(** * convertor-v: the motion converter ([Scripts/converter.py])

    A shallow embedding of the image-to-video converter: the segment
    composer, the effect library (shapes, exceptions and buffer identity;
    pixel kernels of OpenCV and NumPy are collaborators), the per-image
    encoding loop and the batch coordinator, followed by the properties of
    the specification that were checked against them. *)

From Stdlib Require Import ZArith List String Ascii Bool Lia.
From Stdlib Require Import Floats.SpecFloat Sorting.Sorted.
From stdpp Require Import base option list strings pretty gmap.

Open Scope Z_scope.

(** ** Python exceptions and the error monad *)

Inductive exn : Type :=
| ValueError
| ZeroDivisionError
| OverflowError
| IndexError
| KeyError
| cv2_error
| External (msg : string).

Inductive exc (A : Type) : Type :=
| Ok (a : A)
| Raise (e : exn).

Arguments Ok {A} a.
Arguments Raise {A} e.

#[global] Instance exn_eq_dec : EqDecision exn.
Proof. solve_decision. Defined.

#[global] Instance exc_eq_dec {A} `{EqDecision A} : EqDecision (exc A).
Proof. solve_decision. Defined.

#[global] Instance exc_ret : MRet exc := fun A a => Ok a.

#[global] Instance exc_bind : MBind exc := fun A B f m =>
  match m with
  | Ok a => f a
  | Raise e => Raise e
  end.

Definition is_ok {A} (r : exc A) : bool :=
  match r with Ok _ => true | Raise _ => false end.

(** ** Python floats: IEEE 754 binary64, round to nearest even *)

Module PyFloat.

Definition float : Type := spec_float.

Definition prec : Z := 53.
Definition emax : Z := 1024.

Definition add : float -> float -> float := SFadd prec emax.
Definition sub : float -> float -> float := SFsub prec emax.
Definition mul : float -> float -> float := SFmul prec emax.

Definition is_zero (x : float) : bool :=
  match x with S754_zero _ => true | _ => false end.

(** An integer as an unrounded binary number [z * 2^0]. *)
Definition raw (z : Z) : float :=
  match z with
  | Z0 => S754_zero false
  | Zpos p => S754_finite false p 0
  | Zneg p => S754_finite true p 0
  end.

Definition finite_or_overflow (x : float) : exc float :=
  match x with
  | S754_infinity _ => Raise OverflowError
  | _ => Ok x
  end.

(** [float(z)]: correctly rounded, [OverflowError] when out of range. *)
Definition of_int (z : Z) : exc float :=
  finite_or_overflow (binary_normalize prec emax z 0 false).

(** [a / b] on two ints: the correctly rounded quotient. *)
Definition int_truediv (a b : Z) : exc float :=
  if b =? 0 then Raise ZeroDivisionError
  else if a =? 0 then Ok (S754_zero (b <? 0))
  else finite_or_overflow (SFdiv prec emax (raw a) (raw b)).

(** [x / y] on two floats. *)
Definition truediv (x y : float) : exc float :=
  if is_zero y then Raise ZeroDivisionError else Ok (SFdiv prec emax x y).

(** [int(x)]: truncation toward zero. *)
Definition to_int (x : float) : exc Z :=
  match x with
  | S754_zero _ => Ok 0
  | S754_infinity _ => Raise OverflowError
  | S754_nan => Raise ValueError
  | S754_finite s m e => Ok (cond_Zopp s (Z.shiftl (Zpos m) e))
  end.

(** The float literal written [num/den] in decimal, e.g. [0.15] is [lit 15 100]. *)
Definition lit (num den : Z) : float :=
  match num with
  | Z0 => S754_zero false
  | _ => SFdiv prec emax (raw num) (raw den)
  end.

Definition ltb : float -> float -> bool := SFltb.

(** [math.pi] / [np.pi]. *)
Definition pi : float := S754_finite false 7074237752028440 (-51).

(** Mixed int/float arithmetic converts the int operand first. *)
Definition int_mul (z : Z) (x : float) : exc float :=
  fz ← of_int z; Ok (mul fz x).

Definition int_div (z : Z) (x : float) : exc float :=
  fz ← of_int z; truediv fz x.

(** Rounding of a binary64 value to binary32 (a store into a float32 array). *)
Definition to_f32 (x : float) : float :=
  match x with
  | S754_finite s m e => binary_normalize 24 128 (cond_Zopp s (Zpos m)) e s
  | _ => x
  end.

End PyFloat.

Import PyFloat.

(** ** Segment Composer (the arithmetic at the head of the frame loop) *)

(** [segment_duration = total_frames / len(motion_types)] *)
Definition segment_duration (total_frames n : Z) : exc float :=
  int_truediv total_frames n.

(** [current_segment = min(int(frame_idx / segment_duration), len(motion_types) - 1)] *)
Definition current_segment (total_frames n frame_idx : Z) : exc Z :=
  sd ← segment_duration total_frames n;
  q ← int_div frame_idx sd;
  s ← to_int q;
  Ok (Z.min s (n - 1)).

(** [segment_start = int(current_segment * segment_duration)] *)
Definition segment_start (total_frames n s : Z) : exc Z :=
  sd ← segment_duration total_frames n;
  x ← int_mul s sd;
  to_int x.

(** [segment_end = int((current_segment + 1) * segment_duration)] *)
Definition segment_end (total_frames n s : Z) : exc Z :=
  sd ← segment_duration total_frames n;
  x ← int_mul (s + 1) sd;
  to_int x.

Record segment_assignment : Type := {
  seg_index : Z;
  frame_in_segment : Z;
  frames_in_segment : Z
}.

Definition assign_segment (total_frames n frame_idx : Z) : exc segment_assignment :=
  s ← current_segment total_frames n frame_idx;
  a ← segment_start total_frames n s;
  b ← segment_end total_frames n s;
  Ok {| seg_index := s; frame_in_segment := frame_idx - a; frames_in_segment := b - a |}.

(** [progress = frame_idx / max(total_frames - 1, 1)] of every effect. *)
Definition effect_progress (frame_idx total_frames : Z) : exc float :=
  int_truediv frame_idx (Z.max (total_frames - 1) 1).

(** ** NumPy arrays

    An array is its shape and its row-major buffer.  Integer images
    (what [cv2.imread] yields) hold [ints]; float32/float64 intermediates
    hold [floats]. *)

Inductive buffer : Type :=
| ints (l : list Z)
| floats (l : list float).

Record ndarray : Type := {
  shape : list nat;
  data : buffer
}.

Definition buffer_length (b : buffer) : nat :=
  match b with ints l => length l | floats l => length l end.

Definition numel (s : list nat) : nat := foldr Nat.mul 1%nat s.

(** An array is well formed when the buffer has one entry per index. *)
Definition well_formed (a : ndarray) : Prop :=
  buffer_length (data a) = numel (shape a).

(** [height, width = img.shape[:2]] *)
Definition shape2 (a : ndarray) : exc (Z * Z) :=
  match shape a with
  | h :: w :: _ => Ok (Z.of_nat h, Z.of_nat w)
  | _ => Raise ValueError
  end.

(** Width and height of a frame, as the claims speak of them. *)
Definition frame_dims (a : ndarray) : option (nat * nat) :=
  match shape a with
  | h :: w :: _ => Some (w, h)
  | _ => None
  end.

Definition of_nat_f (n : nat) : float :=
  binary_normalize prec emax (Z.of_nat n) 0 false.

Definition f32_of_Z (z : Z) : float := binary_normalize 24 128 z 0 false.

Definition as_f32 (b : buffer) : list float :=
  match b with
  | ints l => f32_of_Z <$> l
  | floats l => to_f32 <$> l
  end.

(** The C cast of a float to an 8-bit unsigned integer (truncation). *)
Definition u8_of_float (x : float) : Z :=
  match to_int x with
  | Ok z => z mod 256
  | Raise _ => 0
  end.

(** [a.astype(np.uint8)] *)
Definition astype_uint8 (a : ndarray) : ndarray :=
  {| shape := shape a;
     data := match data a with
             | ints l => ints ((fun z => z mod 256) <$> l)
             | floats l => ints (u8_of_float <$> l)
             end |}.

(** [a.astype(np.float32)] *)
Definition astype_float32 (a : ndarray) : ndarray :=
  {| shape := shape a; data := floats (as_f32 (data a)) |}.

(** *** Broadcasting *)

Definition broadcast_dim (m n : nat) : option nat :=
  if decide (m = n) then Some m
  else if decide (m = 1%nat) then Some n
  else if decide (n = 1%nat) then Some m
  else None.

(** Shapes are aligned on their last axis: the lists are given reversed. *)
Fixpoint broadcast_rev (s t : list nat) : option (list nat) :=
  match s, t with
  | [], _ => Some t
  | _, [] => Some s
  | m :: s', n :: t' =>
      d ← broadcast_dim m n;
      r ← broadcast_rev s' t';
      Some (d :: r)
  end.

Definition broadcast (s t : list nat) : option (list nat) :=
  reverse <$> broadcast_rev (reverse s) (reverse t).

Fixpoint strides (s : list nat) : list nat :=
  match s with
  | [] => []
  | _ :: r => numel r :: strides r
  end.

(** Flat index in an array of shape [s] read for flat index [k] of the
    array of shape [t] it is broadcast to. *)
Definition bcast_index (s t : list nat) (k : nat) : nat :=
  let s' := replicate (length t - length s) 1%nat ++ s in
  let coord := zip_with (fun st n => ((k / st) mod n)%nat) (strides t) t in
  sum_list (zip_with (fun c sn => if decide (sn.1 = 1%nat) then 0%nat else (c * sn.2)%nat)
                     coord (zip s' (strides s'))).

Definition bcast_data (s t : list nat) (l : list float) : list float :=
  (fun k => default (S754_zero false) (l !! bcast_index s t k)) <$> seq 0 (numel t).

(** An element-wise float32 operation on two arrays. *)
Definition np_binop (f : float -> float -> float) (a b : ndarray) : exc ndarray :=
  match broadcast (shape a) (shape b) with
  | None => Raise ValueError
  | Some t =>
      Ok {| shape := t;
            data := floats (zip_with f (bcast_data (shape a) t (as_f32 (data a)))
                                       (bcast_data (shape b) t (as_f32 (data b)))) |}
  end.

Definition f32_add : float -> float -> float := SFadd 24 128.
Definition f32_sub : float -> float -> float := SFsub 24 128.
Definition f32_mul : float -> float -> float := SFmul 24 128.
Definition f32_div : float -> float -> float := SFdiv 24 128.

(** [a * b], [a + b] on arrays, [c - a] and [a / c] with an int scalar. *)
Definition np_mul : ndarray -> ndarray -> exc ndarray := np_binop f32_mul.
Definition np_add : ndarray -> ndarray -> exc ndarray := np_binop f32_add.

Definition np_rsub (c : Z) (a : ndarray) : ndarray :=
  {| shape := shape a; data := floats (f32_sub (f32_of_Z c) <$> as_f32 (data a)) |}.

Definition np_div_scalar (a : ndarray) (c : Z) : ndarray :=
  {| shape := shape a; data := floats ((fun x => f32_div x (f32_of_Z c)) <$> as_f32 (data a)) |}.

(** [a += b]: the result must keep the shape of [a]. *)
Definition np_iadd (a b : ndarray) : exc ndarray :=
  r ← np_add a b;
  if decide (shape r = shape a) then Ok r else Raise ValueError.

(** *** Slices, tiling and layout *)

(** Bounds of [seq[a:b]] on a sequence of length [len]. *)
Definition slice_bound (len i : Z) : Z :=
  if i <? 0 then Z.max (i + len) 0 else Z.min i len.

Definition slice_range (len a b : Z) : nat * nat :=
  let lo := slice_bound len a in
  let hi := slice_bound len b in
  (Z.to_nat lo, Z.to_nat (Z.max (hi - lo) 0)).

Fixpoint chunks {A} (n k : nat) (l : list A) : list (list A) :=
  match k with
  | O => []
  | S k' => take n l :: chunks n k' (drop n l)
  end.

Definition buffer_rows (f : forall A, list A -> list A) (rows row_len : nat) (b : buffer) : buffer :=
  match b with
  | ints l => ints (concat (f Z <$> chunks row_len rows l))
  | floats l => floats (concat (f float <$> chunks row_len rows l))
  end.

(** [np.hstack([img, img, img])] on an array with at least two axes. *)
Definition np_hstack3 (a : ndarray) : exc ndarray :=
  match shape a with
  | h :: w :: rest =>
      Ok {| shape := h :: (3 * w)%nat :: rest;
            data := buffer_rows (fun A r => r ++ r ++ r) h (w * numel rest) (data a) |}
  | _ => Raise ValueError
  end.

(** [a[:, lo:hi]] *)
Definition slice_columns (a : ndarray) (lo hi : Z) : exc ndarray :=
  match shape a with
  | h :: w :: rest =>
      let '(start, len) := slice_range (Z.of_nat w) lo hi in
      let px := numel rest in
      Ok {| shape := h :: len :: rest;
            data := buffer_rows (fun A r => take (len * px) (drop (start * px) r))
                                h (w * px) (data a) |}
  | _ => Raise IndexError
  end.

(** [np.tile(mask, (1, width))] on a column vector of shape [(height, 1)]. *)
Definition np_tile_columns (mask : list float) (width : Z) : ndarray :=
  {| shape := [length mask; Z.to_nat width];
     data := floats (mask ≫= fun v => replicate (Z.to_nat width) v) |}.

(** ** OpenCV

    The resampling and filtering kernels are collaborators: the model
    fixes the shape of what they return and when the binding raises, and
    takes the pixel values from the kernel. *)

Class Kernels : Type := {
  np_sin : float -> float;
  np_cos : float -> float;
  (** [cv2.getRotationMatrix2D(center, angle, scale)]: a 2x3 matrix, row-major *)
  getRotationMatrix2D : Z * Z -> float -> float -> list float;
  (** pixel values of [cv2.warpAffine(src, M, dsize, borderMode=BORDER_REFLECT)] *)
  warpAffine_px : ndarray -> list float -> Z * Z -> buffer;
  (** pixel values of [cv2.GaussianBlur(src, (21, 21), 0)] *)
  GaussianBlur_px : ndarray -> buffer;
  (** pixel values of [cv2.remap(src, map_x, map_y, INTER_LINEAR, BORDER_REFLECT)] *)
  remap_px : ndarray -> list float -> list float -> buffer;
  (** pixel values of [cv2.resize(src, dsize, interpolation=INTER_LANCZOS4)] *)
  resize_px : ndarray -> Z * Z -> buffer
}.

(** Channels of an image as OpenCV sees the array, [None] when it is not
    an image or is empty. *)
Definition cv2_channels (a : ndarray) : option nat :=
  match shape a with
  | [h; w] => if decide (h = 0 \/ w = 0)%nat then None else Some 1%nat
  | [h; w; c] => if decide (h = 0 \/ w = 0 \/ c = 0)%nat then None else Some c
  | _ => None
  end.

(** Shape of an image of [h] rows, [w] columns and [c] channels handed
    back by the binding: a single channel comes back as a 2-D array. *)
Definition cv2_shape (h w : Z) (c : nat) : list nat :=
  if decide (c = 1%nat) then [Z.to_nat h; Z.to_nat w]
  else [Z.to_nat h; Z.to_nat w; c].

Section OpenCV.
Context {K : Kernels}.

Definition cv2_warpAffine (src : ndarray) (Mx : list float) (dsize : Z * Z) : exc ndarray :=
  match cv2_channels src with
  | Some c =>
      if decide (0 < dsize.1 /\ 0 < dsize.2)
      then Ok {| shape := cv2_shape dsize.2 dsize.1 c; data := warpAffine_px src Mx dsize |}
      else Raise cv2_error
  | None => Raise cv2_error
  end.

Definition cv2_GaussianBlur (src : ndarray) : exc ndarray :=
  match cv2_channels src, shape src with
  | Some c, h :: w :: _ =>
      Ok {| shape := cv2_shape (Z.of_nat h) (Z.of_nat w) c; data := GaussianBlur_px src |}
  | _, _ => Raise cv2_error
  end.

Definition cv2_remap (src : ndarray) (h w : nat) (map_x map_y : list float) : exc ndarray :=
  match cv2_channels src with
  | Some c =>
      if decide (h = 0 \/ w = 0)%nat then Raise cv2_error
      else Ok {| shape := cv2_shape (Z.of_nat h) (Z.of_nat w) c; data := remap_px src map_x map_y |}
  | None => Raise cv2_error
  end.

Definition cv2_resize (src : ndarray) (dsize : Z * Z) : exc ndarray :=
  match cv2_channels src with
  | Some c =>
      if decide (0 < dsize.1 /\ 0 < dsize.2)
      then Ok {| shape := cv2_shape dsize.2 dsize.1 c; data := resize_px src dsize |}
      else Raise cv2_error
  | None => Raise cv2_error
  end.

End OpenCV.

(** [cv2.flip(src, 1)]: every row read right to left. *)
Definition cv2_flip_horizontal (src : ndarray) : exc ndarray :=
  match cv2_channels src, shape src with
  | Some c, h :: w :: _ =>
      Ok {| shape := cv2_shape (Z.of_nat h) (Z.of_nat w) c;
            data := buffer_rows (fun A r => concat (reverse (chunks c w r))) h (w * c) (data src) |}
  | _, _ => Raise cv2_error
  end.

Definition map_pixels (f : forall A, list A -> list A) (c n : nat) (b : buffer) : buffer :=
  buffer_rows f n c b.

(** [cv2.cvtColor(src, cv2.COLOR_GRAY2BGR)] *)
Definition cvtColor_GRAY2BGR (src : ndarray) : exc ndarray :=
  match cv2_channels src, shape src with
  | Some 1%nat, h :: w :: _ =>
      Ok {| shape := [h; w; 3%nat];
            data := map_pixels (fun A p => p ++ p ++ p) 1 (h * w) (data src) |}
  | _, _ => Raise cv2_error
  end.

(** [cv2.cvtColor(src, cv2.COLOR_BGRA2BGR)] *)
Definition cvtColor_BGRA2BGR (src : ndarray) : exc ndarray :=
  match cv2_channels src, shape src with
  | Some 4%nat, h :: w :: _ =>
      Ok {| shape := [h; w; 3%nat];
            data := map_pixels (fun A p => take 3 p) 4 (h * w) (data src) |}
  | _, _ => Raise cv2_error
  end.

(** [cv2.cvtColor(src, cv2.COLOR_RGB2BGR)] *)
Definition cvtColor_RGB2BGR (src : ndarray) : exc ndarray :=
  match cv2_channels src, shape src with
  | Some 3%nat, h :: w :: _ =>
      Ok {| shape := [h; w; 3%nat];
            data := map_pixels (fun A p => reverse p) 3 (h * w) (data src) |}
  | _, _ => Raise cv2_error
  end.

(** ** The store, the trace and the state monad

    Arrays that are handed from one function to another, or updated in
    place as a whole, live in a heap of cells addressed by [loc]; a Python
    variable holding such an array holds its address.  Everything the
    converter does to the outside world is appended to the trace. *)

Definition loc : Type := nat.

Inductive event : Type :=
| EvMakedirs (path : string)
| EvPrint (msg : string)
| EvWriterOpen (path : string) (fps : Z) (size : Z * Z)
| EvWrite (path : string) (frame : ndarray)
| EvRelease (path : string)
| EvProgress (current total : Z).

Record world : Type := {
  heap : list ndarray;
  trace : list event;
  clock : nat
}.

Definition M (A : Type) : Type := world -> world * exc A.

#[global] Instance M_ret : MRet M := fun A a w => (w, Ok a).

#[global] Instance M_bind : MBind M := fun A B f m w =>
  match m w with
  | (w', Ok a) => f a w'
  | (w', Raise e) => (w', Raise e)
  end.

Definition lift {A} (r : exc A) : M A := fun w => (w, r).

Definition raise_if (o : option exn) : M unit :=
  fun w => (w, match o with Some e => Raise e | None => Ok tt end).

Definition alloc (a : ndarray) : M loc := fun w =>
  ({| heap := heap w ++ [a]; trace := trace w; clock := clock w |}, Ok (length (heap w))).

Definition load (l : loc) : M ndarray := fun w =>
  (w, match heap w !! l with
      | Some a => Ok a
      | None => Raise (External "dangling reference")
      end).

Definition store (l : loc) (a : ndarray) : M unit := fun w =>
  ({| heap := <[l := a]> (heap w); trace := trace w; clock := clock w |}, Ok tt).

Definition emit (e : event) : M unit := fun w =>
  ({| heap := heap w; trace := trace w ++ [e]; clock := clock w |}, Ok tt).

Definition tick : M nat := fun w =>
  ({| heap := heap w; trace := trace w; clock := S (clock w) |}, Ok (clock w)).

(** [for x in l: body(x)] *)
Fixpoint for_each {A} (l : list A) (body : A -> M unit) : M unit :=
  match l with
  | [] => mret tt
  | x :: r => body x;; for_each r body
  end.

(** [range(n)] *)
Definition range (n : Z) : list Z := seqZ 0 n.

(** [img.copy()] *)
Definition ndarray_copy (img : loc) : M loc :=
  a ← load img; alloc a.

(** ** Effect Library *)

(** Small integer constants used as floats. *)
Definition fl (z : Z) : float := binary_normalize prec emax z 0 false.

(** [M[i] += z] on a 2x3 matrix kept row-major. *)
Definition matrix_iadd (Mx : list float) (i : nat) (z : Z) : exc (list float) :=
  match Mx !! i with
  | Some v => fz ← of_int z; Ok (<[i := add v fz]> Mx)
  | None => Raise IndexError
  end.

(** Python's [max(0, x)] for a float [x]. *)
Definition max0 (x : float) : float :=
  if ltb (S754_zero false) x then x else S754_zero false.

(** [np.clip(x, 0, hi)] on one element. *)
Definition clip0 (hi : float) (x : float) : float :=
  if ltb x (S754_zero false) then S754_zero false
  else if ltb hi x then hi else x.

Section Effects.
Context {K : Kernels}.

(** The similarity transform shared by the zooming effects:
    [M = cv2.getRotationMatrix2D(center, angle, zoom)] with
    [center = (width // 2, height // 2)], then [cv2.warpAffine]. *)
Definition rotation_matrix (width height : Z) (angle zoom : float) : list float :=
  getRotationMatrix2D (width / 2, height / 2) angle zoom.

Definition warp (img : loc) (Mx : list float) (width height : Z) : M loc :=
  a ← load img;
  r ← lift (cv2_warpAffine a Mx (width, height));
  alloc r.

Definition apply_subtle_motion (img : loc) (frame_idx total_frames : Z) : M loc :=
  a ← load img;
  '(height, width) ← lift (shape2 a);
  progress ← lift (effect_progress frame_idx total_frames);
  let zoom := add (lit 1 1) (mul (lit 15 100) progress) in
  pan_x ← lift (to_int (mul (fl 20) (np_sin (mul (mul progress pi) (fl 2)))));
  pan_y ← lift (to_int (mul (fl 15) (np_cos (mul (mul progress pi) (fl 2)))));
  let Mx := rotation_matrix width height (fl 0) zoom in
  Mx ← lift (matrix_iadd Mx 2 pan_x);
  Mx ← lift (matrix_iadd Mx 5 pan_y);
  warp img Mx width height.

Definition apply_ken_burns_effect (img : loc) (frame_idx total_frames : Z) : M loc :=
  a ← load img;
  '(height, width) ← lift (shape2 a);
  progress ← lift (effect_progress frame_idx total_frames);
  let zoom := add (lit 1 1) (mul (lit 3 10) (mul progress progress)) in
  pan_x ← lift (to_int (mul (fl 30) (np_sin (mul progress pi))));
  pan_y ← lift (to_int (mul (fl 25) (sub progress (lit 5 10))));
  let Mx := rotation_matrix width height (fl 0) zoom in
  Mx ← lift (matrix_iadd Mx 2 pan_x);
  Mx ← lift (matrix_iadd Mx 5 pan_y);
  warp img Mx width height.

Definition apply_360_pan_effect (img : loc) (frame_idx total_frames : Z) : M loc :=
  a ← load img;
  '(height, width) ← lift (shape2 a);
  progress ← lift (effect_progress frame_idx total_frames);
  tiled ← lift (np_hstack3 a);
  '(_, tiled_width) ← lift (shape2 tiled);
  start_x ← lift (x ← int_mul (tiled_width - width) progress; to_int x);
  panned ← lift (slice_columns tiled start_x (start_x + width));
  alloc panned.

(** [int(height * c)] for a float literal [c]. *)
Definition int_scaled (height : Z) (c : float) : exc Z :=
  x ← int_mul height c; to_int x.

(** [for i in l: mask[i] = max(0, num(i) / den)] *)
Fixpoint mask_ramp (mask : list float) (l : list Z) (num : Z -> Z) (den : Z) : exc (list float) :=
  match l with
  | [] => Ok mask
  | i :: r =>
      q ← int_truediv (num i) den;
      mask_ramp (<[Z.to_nat i := to_f32 (max0 q)]> mask) r num den
  end.

(** [mask[lo:hi] = 1.0] *)
Definition mask_fill_ones (mask : list float) (lo hi : Z) : list float :=
  let '(start, len) := slice_range (Z.of_nat (length mask)) lo hi in
  take start mask ++ replicate (length (take len (drop start mask))) (to_f32 (lit 1 1))
       ++ drop (start + len) mask.

Definition tilt_shift_mask (height : Z) : exc (list float) :=
  focus_band ← int_scaled height (lit 4 10);
  band ← int_scaled height (lit 2 10);
  falloff ← int_scaled height (lit 15 100);
  below ← int_scaled height (lit 35 100);
  let mask := replicate (Z.to_nat height) (S754_zero false) in
  let mask := mask_fill_ones mask focus_band (focus_band + band) in
  mask ← mask_ramp mask (range focus_band)
                   (fun i => i - (focus_band - falloff)) falloff;
  mask_ramp mask (seqZ (focus_band + band) (height - (focus_band + band)))
            (fun i => focus_band + below - i) falloff.

Definition apply_tilt_shift_effect (img : loc) (frame_idx total_frames : Z) : M loc :=
  a ← load img;
  '(height, width) ← lift (shape2 a);
  progress ← lift (effect_progress frame_idx total_frames);
  let zoom := add (lit 1 1) (mul (lit 2 10) progress) in
  let Mx := rotation_matrix width height (fl 0) zoom in
  transformed ← warp img Mx width height;
  t ← load transformed;
  blurred ← lift (cv2_GaussianBlur t);
  mask ← lift (tilt_shift_mask height);
  let mask := np_tile_columns mask width in
  sharp ← lift (np_mul t mask);
  soft ← lift (np_mul blurred (np_rsub 1 mask));
  result ← lift (np_add sharp soft);
  alloc (astype_uint8 result).

Definition apply_zoom_in_effect (img : loc) (frame_idx total_frames : Z) : M loc :=
  a ← load img;
  '(height, width) ← lift (shape2 a);
  progress ← lift (effect_progress frame_idx total_frames);
  let zoom := add (lit 1 1) (mul (lit 1 1) progress) in
  warp img (rotation_matrix width height (fl 0) zoom) width height.

Definition apply_zoom_out_effect (img : loc) (frame_idx total_frames : Z) : M loc :=
  a ← load img;
  '(height, width) ← lift (shape2 a);
  progress ← lift (effect_progress frame_idx total_frames);
  let zoom := sub (lit 12 10) (mul (lit 2 10) progress) in
  warp img (rotation_matrix width height (fl 0) zoom) width height.

Definition apply_dolly_zoom_effect (img : loc) (frame_idx total_frames : Z) : M loc :=
  a ← load img;
  '(height, width) ← lift (shape2 a);
  progress ← lift (effect_progress frame_idx total_frames);
  let zoom := add (lit 1 1) (mul (lit 5 10) (np_sin (mul progress pi))) in
  let Mx := rotation_matrix width height (fl 0) zoom in
  let angle := mul (fl 5) (np_sin (mul (mul progress pi) (fl 2))) in
  let rotation_M := rotation_matrix width height angle (lit 1 1) in
  transformed ← warp img rotation_M width height;
  warp transformed Mx width height.

(** The displacement maps of the wave effect, row-major over
    [np.meshgrid(np.arange(width), np.arange(height))]. *)
Definition wave_map (height width : nat) (f : nat -> nat -> float) : list float :=
  r ← seq 0 height; c ← seq 0 width; [to_f32 (f r c)].

Definition apply_wave_effect (img : loc) (frame_idx total_frames : Z) : M loc :=
  a ← load img;
  '(height, width) ← lift (shape2 a);
  progress ← lift (effect_progress frame_idx total_frames);
  let wave_freq := lit 1 100 in
  let wave_amp := mul (fl 20) progress in
  let phase := mul (mul progress pi) (fl 2) in
  let x_wave := wave_map (Z.to_nat height) (Z.to_nat width) (fun y x =>
    clip0 (fl (width - 1))
          (add (of_nat_f x) (mul wave_amp (np_sin (add (mul (of_nat_f y) wave_freq) phase))))) in
  let y_wave := wave_map (Z.to_nat height) (Z.to_nat width) (fun y x =>
    clip0 (fl (height - 1))
          (add (of_nat_f y) (mul wave_amp (np_cos (add (mul (of_nat_f x) wave_freq) phase))))) in
  result ← lift (cv2_remap a (Z.to_nat height) (Z.to_nat width) x_wave y_wave);
  alloc result.

Definition apply_radial_blur_effect (img : loc) (frame_idx total_frames : Z) : M loc :=
  a ← load img;
  '(height, width) ← lift (shape2 a);
  progress ← lift (effect_progress frame_idx total_frames);
  result ← alloc (astype_float32 a);
  blur_strength ← lift (to_int (add (fl 1) (mul (fl 4) progress)));
  for_each (range blur_strength) (fun i =>
    let scale := add (lit 1 1) (mul (lit 5 100) (fl i)) in
    let Mx := rotation_matrix width height (fl 0) scale in
    zoomed ← lift (cv2_warpAffine (astype_float32 a) Mx (width, height));
    r ← load result;
    r ← lift (np_iadd r zoomed);
    store result r);;
  r ← load result;
  alloc (astype_uint8 (np_div_scalar r (blur_strength + 1))).

Definition apply_rotation_effect (img : loc) (frame_idx total_frames : Z) : M loc :=
  a ← load img;
  '(height, width) ← lift (shape2 a);
  progress ← lift (effect_progress frame_idx total_frames);
  let angle := mul (fl 360) progress in
  warp img (rotation_matrix width height angle (lit 1 1)) width height.

Definition apply_flip_effect (img : loc) (frame_idx total_frames : Z) : M loc :=
  a ← load img;
  '(height, width) ← lift (shape2 a);
  progress ← lift (effect_progress frame_idx total_frames);
  flips ← lift (to_int (mul progress (fl 3)));
  result ← ndarray_copy img;
  result ← (if decide (flips `mod` 2 = 1)
            then r ← load result; f ← lift (cv2_flip_horizontal r); alloc f
            else mret result);
  let zoom := add (lit 1 1) (mul (lit 2 10) (np_sin (mul (mul progress pi) (fl 2)))) in
  warp result (rotation_matrix width height (fl 0) zoom) width height.

(** The dispatch table of [create_video_per_image_with_motion]. *)
Definition motion_functions : list (string * option (loc -> Z -> Z -> M loc)) :=
  [ ("subtle", Some apply_subtle_motion);
    ("ken-burns", Some apply_ken_burns_effect);
    ("360-pan", Some apply_360_pan_effect);
    ("tilt-shift", Some apply_tilt_shift_effect);
    ("zoom-in", Some apply_zoom_in_effect);
    ("zoom-out", Some apply_zoom_out_effect);
    ("dolly-zoom", Some apply_dolly_zoom_effect);
    ("wave", Some apply_wave_effect);
    ("radial-blur", Some apply_radial_blur_effect);
    ("rotation", Some apply_rotation_effect);
    ("flip", Some apply_flip_effect);
    ("none", None) ]%string.

End Effects.

(** [key in d] and [d[key]] on a dict kept as its item list. *)
Definition dict_mem {V} (d : list (string * V)) (key : string) : bool :=
  bool_decide (key ∈ d.*1).

Fixpoint dict_get {V} (d : list (string * V)) (key : string) : option V :=
  match d with
  | [] => None
  | (k, v) :: r => if decide (k = key) then Some v else dict_get r key
  end.

(** ** The host: file system, decoders, encoder, clock

    Everything the converter reaches outside itself.  A call that can
    raise says so by the exception it raises ([None]: it returns).  The
    encoder can also fail without raising, as OpenCV's does: a writer
    whose stream could not be opened is handed back all the same, and a
    frame it cannot store is dropped by a [write] that returns. *)

Class Host : Type := {
  os_makedirs : string -> option exn;
  os_path_exists : string -> bool;
  os_path_join : string -> string -> string;
  os_path_basename : string -> string;
  os_path_splitext : string -> string * string;
  os_path_getsize : string -> exc Z;
  glob_glob : string -> list string;
  PIL_AVAILABLE : bool;
  (** [cv2.imread(path, cv2.IMREAD_UNCHANGED)] *)
  cv2_imread : string -> option ndarray;
  (** [np.array(Image.open(path).convert('RGB'))] *)
  PIL_open_RGB : string -> exc ndarray;
  (** [cv2.VideoWriter(path, fourcc, fps, size)], [writer.write(frame)]
      for the frame of the given index, [writer.release()] *)
  VideoWriter_open : string -> option exn;
  VideoWriter_write : string -> Z -> option exn;
  VideoWriter_release : string -> option exn;
  (** [writer.isOpened()] for the writer of the path: whether its stream
      could be opened *)
  VideoWriter_isOpened : string -> bool;
  (** whether a [write] that returns has stored the frame of the given
      index in the stream of the path *)
  VideoWriter_stored : string -> Z -> bool;
  (** the n-th reading of [datetime.now()], in microseconds *)
  datetime_now : nat -> Z;
  strftime : Z -> string;
  (** [round(x, 2)] *)
  round2 : float -> float;
  str_of_exn : exn -> string
}.

(** The host [H] with the encoder's silent state replaced. *)
Definition with_encoder (H : Host) (opened : string -> bool)
    (stored : string -> Z -> bool) : Host := {|
  os_makedirs := os_makedirs;
  os_path_exists := os_path_exists;
  os_path_join := os_path_join;
  os_path_basename := os_path_basename;
  os_path_splitext := os_path_splitext;
  os_path_getsize := os_path_getsize;
  glob_glob := glob_glob;
  PIL_AVAILABLE := PIL_AVAILABLE;
  cv2_imread := cv2_imread;
  PIL_open_RGB := PIL_open_RGB;
  VideoWriter_open := VideoWriter_open;
  VideoWriter_write := VideoWriter_write;
  VideoWriter_release := VideoWriter_release;
  VideoWriter_isOpened := opened;
  VideoWriter_stored := stored;
  datetime_now := datetime_now;
  strftime := strftime;
  round2 := round2;
  str_of_exn := str_of_exn
|}.

(** Quality presets: (width, height, bitrate_factor) *)
Definition QUALITY_PRESETS : list (string * (Z * Z * float)) :=
  [ ("4K", (3840, 2160, lit 15 10));
    ("1080p", (1920, 1080, lit 1 1));
    ("720p", (1280, 720, lit 7 10));
    ("480p", (854, 480, lit 5 10));
    ("360p", (640, 360, lit 3 10)) ]%string.

(** [sorted(l)] on strings. *)
Fixpoint insert_sorted (x : string) (l : list string) : list string :=
  match l with
  | [] => [x]
  | y :: r => if String.leb x y then x :: l else y :: insert_sorted x r
  end.

Definition sorted (l : list string) : list string := foldr insert_sorted [] l.

(** [enumerate(l)] *)
Definition enumerate {A} (l : list A) : list (Z * A) :=
  imap (fun i x => (Z.of_nat i, x)) l.

(** [l[i]] on a Python list. *)
Definition list_index {A} (l : list A) (i : Z) : exc A :=
  let n := Z.of_nat (length l) in
  let j := if i <? 0 then i + n else i in
  if (0 <=? j) && (j <? n)
  then match l !! Z.to_nat j with Some x => Ok x | None => Raise IndexError end
  else Raise IndexError.

(** [total_frames = int(video_duration * fps)] *)
Definition total_frames_of (video_duration : float) (fps : Z) : exc Z :=
  fz ← of_int fps; to_int (mul video_duration fz).

(** The [motion_types] argument: one name or a sequence of names. *)
Inductive motion_arg : Type :=
| MStr (s : string)
| MSeq (l : list string).

Record video_info : Type := {
  vi_path : string;
  vi_filename : string;
  vi_size_mb : float;
  vi_duration_seconds : float;
  vi_fps : Z;
  vi_quality : string;
  vi_resolution : string;
  vi_motion_effects : list string;
  vi_time_generated : string;
  vi_speed : string
}.

Record metadata : Type := {
  md_start_time : string;
  md_end_time : string;
  md_total_processing_time : float;
  md_videos_created : Z;
  md_quality : string;
  md_motion_effects : list string
}.

(** What the function returns: a bare list, or the pair of the list and
    the run metadata. *)
Inductive retval : Type :=
| RList (videos : list video_info)
| RTuple (videos : list video_info) (meta : metadata).

Definition videos_of (r : retval) : list video_info :=
  match r with RList videos | RTuple videos _ => videos end.

(** A progress callback: called with [(current, total)], it returns or raises. *)
Definition callback : Type := Z -> Z -> option exn.

Section Converter.
Context {K : Kernels} {H : Host}.

Definition image_patterns : list string :=
  ["*.png"; "*.jpg"; "*.jpeg"; "*.bmp"; "*.tiff"; "*.heic"]%string.

Definition collect_images (input_dir : string) : list string :=
  if negb (os_path_exists input_dir) then []
  else sorted (pattern ← image_patterns; glob_glob (os_path_join input_dir pattern)).

Definition is_bgra (a : ndarray) : bool :=
  match shape a with
  | [_; _; c] => bool_decide (c = 4%nat)
  | _ => false
  end.

(** The Pillow path of the loader: any exception is swallowed. *)
Definition read_with_pillow (path : string) : option ndarray :=
  match arr ← PIL_open_RGB path; cvtColor_RGB2BGR arr with
  | Ok img => Some img
  | Raise _ => None
  end.

Definition read_image_with_fallback (path : string) : M (option loc) :=
  match cv2_imread path with
  | Some img =>
      img ← (if is_bgra img then lift (cvtColor_BGRA2BGR img) else mret img);
      l ← alloc img; mret (Some l)
  | None =>
      if PIL_AVAILABLE
      then match read_with_pillow path with
           | Some img => l ← alloc img; mret (Some l)
           | None => mret None
           end
      else mret None
  end.

(** Quality fallback of lines 304-307. *)
Definition effective_quality (quality : string) : string :=
  if dict_mem QUALITY_PRESETS quality then quality else "1080p"%string.

Definition target_size_of (quality : string) : exc (Z * Z) :=
  match dict_get QUALITY_PRESETS quality with
  | Some (width, height, _) => Ok (width, height)
  | None => Raise KeyError
  end.

(** [mt in motion_functions] *)
Definition recognized (mt : string) : Prop := dict_mem motion_functions mt = true.

#[global] Instance recognized_dec (mt : string) : Decision (recognized mt).
Proof. unfold recognized. apply _. Defined.

(** Normalisation and validation of the Motion Plan, lines 317-342. *)
Definition normalize_motion_types (motion_types : motion_arg) : list string :=
  match motion_types with
  | MStr s => [s]
  | MSeq l => take 3 l
  end.

Definition effective_motion_types (motion_types : motion_arg) : list string :=
  let motion_types :=
    filter recognized (normalize_motion_types motion_types) in
  match motion_types with
  | [] => ["none"%string]
  | _ => motion_types
  end.

(** "Ensure frame is 3-channel BGR" *)
Definition ensure_bgr (frame : loc) : M loc :=
  a ← load frame;
  match shape a with
  | [_; _] => r ← lift (cvtColor_GRAY2BGR a); alloc r
  | _ :: _ :: c :: _ =>
      if decide (c = 4%nat) then r ← lift (cvtColor_BGRA2BGR a); alloc r
      else mret frame
  | _ => lift (Raise IndexError)
  end.

(** The body of [for frame_idx in range(total_frames)]. *)
Definition synthesize_frame (img : loc) (motion_types : list string)
    (total_frames frame_idx : Z) : M loc :=
  frame ← ndarray_copy img;
  let n := Z.of_nat (length motion_types) in
  current_segment ← lift (current_segment total_frames n frame_idx);
  motion_type ← lift (list_index motion_types current_segment);
  frame ← match dict_get motion_functions motion_type with
          | Some (Some motion_func) =>
              segment_start ← lift (segment_start total_frames n current_segment);
              segment_end ← lift (segment_end total_frames n current_segment);
              motion_func frame (frame_idx - segment_start) (segment_end - segment_start)
          | _ => mret frame
          end;
  ensure_bgr frame.

Definition write_frame (output_path : string) (img : loc) (motion_types : list string)
    (total_frames frame_idx : Z) : M unit :=
  frame ← synthesize_frame img motion_types total_frames frame_idx;
  a ← load frame;
  raise_if (VideoWriter_write output_path frame_idx);;
  emit (EvWrite output_path (astype_uint8 a)).

(** Decoding of one image, lines 347-359: [None] is the [continue]. *)
Definition decode_image (img_path : string) : M (option loc) :=
  img ← read_image_with_fallback img_path;
  match img with
  | Some l => mret (Some l)
  | None =>
      if PIL_AVAILABLE
      then match arr ← PIL_open_RGB img_path; cvtColor_RGB2BGR arr with
           | Ok a => l ← alloc a; mret (Some l)
           | Raise e =>
               emit (EvPrint ("Skipping '" +:+ img_path +:+ "': " +:+ str_of_exn e));;
               mret None
           end
      else
        emit (EvPrint ("Skipping '" +:+ img_path
                       +:+ "' - OpenCV couldn't read it (Pillow not available for fallback)"));;
        mret None
  end.

Definition output_path_of (output_dir img_path : string) (motion_types : list string)
    (quality : string) : string :=
  let base_name := (os_path_splitext (os_path_basename img_path)).1 in
  let motion_suffix := String.concat "_" (take 3 motion_types) in
  os_path_join output_dir
    (base_name +:+ "_motion_" +:+ motion_suffix +:+ "_" +:+ quality +:+ ".avi").

(** The body of [for img_idx, img_path in enumerate(images)]. *)
Definition process_image (output_dir : string) (motion_types : list string)
    (video_duration : float) (fps : Z) (quality : string) (target_size : Z * Z)
    (total_images total_frames : Z) (progress_callback : option callback)
    (img_idx : Z) (img_path : string) : M (option video_info) :=
  img ← decode_image img_path;
  match img with
  | None => mret None
  | Some img =>
      a ← load img;
      r ← lift (cv2_resize a target_size);
      img ← alloc r;
      let output_path := output_path_of output_dir img_path motion_types quality in
      raise_if (VideoWriter_open output_path);;
      emit (EvWriterOpen output_path fps target_size);;
      for_each (range total_frames)
               (write_frame output_path img motion_types total_frames);;
      raise_if (VideoWriter_release output_path);;
      emit (EvRelease output_path);;
      size ← lift (os_path_getsize output_path);
      file_size ← lift (int_truediv size (1024 * 1024));
      t ← tick;
      let video_info :=
        {| vi_path := output_path;
           vi_filename := os_path_basename output_path;
           vi_size_mb := round2 file_size;
           vi_duration_seconds := video_duration;
           vi_fps := fps;
           vi_quality := quality;
           vi_resolution := pretty target_size.1 +:+ "x" +:+ pretty target_size.2;
           vi_motion_effects := motion_types;
           vi_time_generated := strftime (datetime_now t);
           vi_speed := pretty fps +:+ "fps" |} in
      match progress_callback with
      | Some cb =>
          emit (EvProgress (img_idx + 1) total_images);;
          raise_if (cb (img_idx + 1) total_images)
      | None => mret tt
      end;;
      mret (Some video_info)
  end.

Fixpoint images_loop (body : Z -> string -> M (option video_info))
    (items : list (Z * string)) (created_videos : list video_info) : M (list video_info) :=
  match items with
  | [] => mret created_videos
  | (img_idx, img_path) :: rest =>
      r ← body img_idx img_path;
      images_loop body rest
        (match r with Some v => created_videos ++ [v] | None => created_videos end)
  end.

Definition create_video_per_image_with_motion (input_dir output_dir : string)
    (motion_types : motion_arg) (video_duration : float) (fps : Z) (quality : string)
    (progress_callback : option callback) : M retval :=
  raise_if (os_makedirs output_dir);;
  emit (EvMakedirs output_dir);;
  let quality := effective_quality quality in
  target_size ← lift (target_size_of quality);
  let images := collect_images input_dir in
  match images with
  | [] => mret (RList [])
  | _ =>
      let total_images := Z.of_nat (length images) in
      total_frames ← lift (total_frames_of video_duration fps);
      let motion_types := effective_motion_types motion_types in
      start_time ← tick;
      created_videos ←
        images_loop (process_image output_dir motion_types video_duration fps quality
                       target_size total_images total_frames progress_callback)
                    (enumerate images) [];
      end_time ← tick;
      processing_time ← lift (int_truediv (datetime_now end_time - datetime_now start_time)
                                          1000000);
      mret (RTuple created_videos
              {| md_start_time := strftime (datetime_now start_time);
                 md_end_time := strftime (datetime_now end_time);
                 md_total_processing_time := round2 processing_time;
                 md_videos_created := Z.of_nat (length created_videos);
                 md_quality := quality;
                 md_motion_effects := motion_types |})
  end.

End Converter.

(** ** A small concrete host and kernel set

    Used to run the converter on explicit inputs: two files in the input
    directory, [in/a.png] which no decoder reads and [in/b.png], a 2x2
    BGR image; an encoder that can be told to raise on the stream or on the
    write of one frame.  The kernels hand back the pixels they are given
    (the runs below read shapes, exceptions and events, not resampled
    pixel values). *)

Module Fixture.

Definition zero : float := S754_zero false.

#[local] Instance kernels : Kernels := {|
  np_sin := fun _ => zero;
  np_cos := fun _ => lit 1 1;
  getRotationMatrix2D := fun _ _ scale => [scale; zero; zero; zero; scale; zero];
  warpAffine_px := fun src _ _ => data src;
  GaussianBlur_px := fun src => data src;
  remap_px := fun src _ _ => data src;
  resize_px := fun src _ => data src
|}.

Definition photo : ndarray :=
  {| shape := [2; 2; 3]%nat; data := ints [10; 20; 30; 10; 20; 30; 10; 20; 30; 10; 20; 30] |}.

Definition gray_photo : ndarray :=
  {| shape := [2; 2]%nat; data := ints [7; 7; 7; 7] |}.

(** A 2x2 colour image with 16-bit samples. *)
Definition deep_photo : ndarray :=
  {| shape := [2; 2; 3]%nat;
     data := ints [300; 65535; 256; 300; 65535; 256; 300; 65535; 256; 300; 65535; 256] |}.

Definition host_with (files : list string) (decode : string -> option ndarray)
    (open_fails : bool) (write_fails_at : option Z) : Host := {|
  os_makedirs := fun _ => None;
  os_path_exists := fun _ => true;
  os_path_join := fun d f => d +:+ "/" +:+ f;
  os_path_basename := fun p => p;
  os_path_splitext := fun p => (p, ""%string);
  os_path_getsize := fun _ => Ok 2097152;
  glob_glob := fun pat => if decide (pat = "in/*.png"%string) then files else [];
  PIL_AVAILABLE := false;
  cv2_imread := decode;
  PIL_open_RGB := fun _ => Raise (External "cannot identify image file");
  VideoWriter_open := fun _ => if open_fails then Some cv2_error else None;
  VideoWriter_write := fun _ i =>
    if decide (write_fails_at = Some i) then Some cv2_error else None;
  VideoWriter_release := fun _ => None;
  VideoWriter_isOpened := fun _ => true;
  VideoWriter_stored := fun _ _ => true;
  datetime_now := fun n => 1000000 * Z.of_nat n;
  strftime := fun t => pretty t;
  round2 := fun x => x;
  str_of_exn := fun _ => "error"%string
|}.

Definition decode_b (path : string) : option ndarray :=
  if decide (path = "in/b.png"%string) then Some photo else None.

(** [in/a.png] is unreadable, [in/b.png] decodes. *)
Definition host : Host := host_with ["in/b.png"; "in/a.png"]%string decode_b false None.

(** The same directory with an encoder whose constructor raises. *)
Definition host_no_stream : Host := host_with ["in/b.png"; "in/a.png"]%string decode_b true None.

(** The same directory with an encoder whose [write] raises on the frame
    of index 1. *)
Definition host_bad_write : Host :=
  host_with ["in/b.png"; "in/a.png"]%string decode_b false (Some 1).

(** The same directory when no decoder reads any of its files. *)
Definition host_unreadable : Host :=
  host_with ["in/b.png"; "in/a.png"]%string (fun _ => None) false None.

(** The same directory with an encoder that opens no stream and stores
    no frame, and never raises: every call on its writers returns.  The
    files at the output paths are those an earlier run left. *)
Definition host_silent : Host := with_encoder host (fun _ => false) (fun _ _ => false).

(** An input directory without images. *)
Definition host_empty : Host := host_with [] decode_b false None.

(** A directory holding one grayscale image. *)
Definition host_gray : Host :=
  host_with ["in/g.png"]%string (fun _ => Some gray_photo) false None.

(** A directory holding one 16-bit image. *)
Definition host_deep : Host :=
  host_with ["in/d.png"]%string (fun _ => Some deep_photo) false None.

Definition w0 : world := {| heap := []; trace := []; clock := 0 |}.

(** A small colour frame. *)
Definition small_frame : ndarray :=
  {| shape := [8; 4; 3]%nat; data := ints (replicate 96 0) |}.

Definition progress_ok : callback := fun _ _ => None.


End Fixture.

(** * Vocabulary of the properties *)

(** [keeps n P w w']: from [w] to [w'] the first [n] cells of the heap are
    unchanged, no cell is freed, and every new event satisfies [P]. *)
Definition keeps (n : nat) (P : event -> Prop) (w w' : world) : Prop :=
  take n (heap w') = take n (heap w)
  /\ (length (heap w) <= length (heap w'))%nat
  /\ exists evs, trace w' = trace w ++ evs /\ Forall P evs.

(** [safe n P m Q]: run from a heap of at least [n] cells, [m] keeps the
    first [n] of them, emits only [P]-events, and returns a [Q]-value. *)
Definition safe {A} (n : nat) (P : event -> Prop) (m : M A) (Q : A -> Prop) : Prop :=
  forall w, (n <= length (heap w))%nat ->
    keeps n P w (m w).1 /\ forall a, (m w).2 = Ok a -> Q a.

(** The event predicate of a computation that emits nothing. *)
Definition no_event : event -> Prop := fun _ => False.

(** [wp m w post]: the world and the outcome of [m] run from [w] satisfy [post]. *)
Definition wp {A} (m : M A) (w : world) (post : world -> exc A -> Prop) : Prop :=
  post (m w).1 (m w).2.

(** Cell [l1] of [w1] and cell [l2] of [w2] hold the same array. *)
Definition same_at (w1 w2 : world) (l1 l2 : loc) : Prop :=
  exists a, heap w1 !! l1 = Some a /\ heap w2 !! l2 = Some a.

(** Two runs raise the same exception, or return [R]-related values. *)
Definition rel {A} (R : world -> A -> world -> A -> Prop) (m1 m2 : M A)
    (w1 w2 : world) : Prop :=
  match (m1 w1).2, (m2 w2).2 with
  | Ok a, Ok b => R (m1 w1).1 a (m2 w2).1 b
  | Raise e1, Raise e2 => e1 = e2
  | _, _ => False
  end.

(** Both runs return cells holding the same array. *)
Definition same_cell : world -> loc -> world -> loc -> Prop :=
  fun w1 l1 w2 l2 => same_at w1 w2 l1 l2.

(** Both runs leave the same array in the cells [l1] and [l2]. *)
Definition still_same (l1 l2 : loc) : world -> unit -> world -> unit -> Prop :=
  fun w1 _ w2 _ => same_at w1 w2 l1 l2.

(** Two runs raise the same exception, or return cells holding the same array. *)
Definition same_outcome : M loc -> M loc -> world -> world -> Prop := rel same_cell.

(** An effect keeps every cell that exists when it is called and emits nothing. *)
Definition effect_safe (f : loc -> Z -> Z -> M loc) : Prop :=
  forall n P l i t, safe n P (f l i t) (fun l' => (n <= l')%nat).

(** The outcome of an effect depends on the content of its argument only. *)
Definition effect_same (f : loc -> Z -> Z -> M loc) : Prop :=
  forall l1 l2 i t w1 w2, same_at w1 w2 l1 l2 -> same_outcome (f l1 i t) (f l2 i t) w1 w2.

(** Events appended between two worlds. *)
Definition new_events (w w' : world) : list event :=
  drop (length (trace w)) (trace w').

(** A frame written to the stream at [path]. *)
Definition is_write (path : string) (e : event) : Prop :=
  exists frame, e = EvWrite path frame.

(** The calls of the progress callback recorded in a list of events. *)
Definition progress_calls (evs : list event) : list (Z * Z) :=
  omap (fun e => match e with EvProgress c t => Some (c, t) | _ => None end) evs.

(** The value form of {!ensure_bgr}. *)
Definition to_bgr (a : ndarray) : exc ndarray :=
  match shape a with
  | [_; _] => cvtColor_GRAY2BGR a
  | _ :: _ :: c :: _ => if decide (c = 4%nat) then cvtColor_BGRA2BGR a else Ok a
  | _ => Raise IndexError
  end.

(** A frame of the data model: three channels, eight bits each. *)
Definition is_bgr8 (a : ndarray) : Prop :=
  (exists h w, shape a = [h; w; 3%nat])
  /\ exists l, data a = ints l /\ Forall (fun z => 0 <= z < 256) l.

(** An event of a run, if it is a written frame, goes to the stream of
    [path] and is a [Pw]-frame of the resized source of [a]. *)
Definition written_by {K : Kernels} (path : string) (a : ndarray) (target_size : Z * Z)
    (Pw : ndarray -> event -> Prop) (e : event) : Prop :=
  forall p f, e = EvWrite p f ->
    p = path /\ exists r, cv2_resize a target_size = Ok r /\ Pw r e.

(** [enumerate(l, start=k)] *)
Definition enumerate_from {A} (k : nat) (l : list A) : list (Z * A) :=
  imap (fun i x => (Z.of_nat (k + i), x)) l.

(** The boundaries partition the timeline: segment 0 starts at frame 0,
    consecutive segments share their boundary, and the last segment ends
    at [total_frames]. *)
Definition boundaries_partition (total_frames n : Z) : bool :=
  bool_decide (segment_start total_frames n 0 = Ok 0)
  && bool_decide (segment_end total_frames n (n - 1) = Ok total_frames)
  && forallb (fun s => bool_decide (segment_end total_frames n s
                                    = segment_start total_frames n (s + 1)))
             (seqZ 0 (n - 1)).

(** The local index of a frame lies inside its segment. *)
Definition local_index_in_range (total_frames n frame_idx : Z) : bool :=
  match assign_segment total_frames n frame_idx with
  | Ok a => (0 <=? frame_in_segment a) && (frame_in_segment a <? frames_in_segment a)
            && (1 <=? frames_in_segment a)
  | Raise _ => false
  end.

(** The keys of [QUALITY_PRESETS]. *)
Definition preset_names : list string := ["4K"; "1080p"; "720p"; "480p"; "360p"]%string.

Section Vocabulary.
Context {K : Kernels} {H : Host}.
Implicit Types (motion_types : list string) (items : list (Z * string)).

(** The value form of {!decode_image}: the array an image path decodes
    to, [None] when every decoder gives up. *)
Definition decoded (img_path : string) : exc (option ndarray) :=
  match cv2_imread img_path with
  | Some img =>
      if is_bgra img
      then match cvtColor_BGRA2BGR img with Ok a => Ok (Some a) | Raise e => Raise e end
      else Ok (Some img)
  | None => if PIL_AVAILABLE then Ok (read_with_pillow img_path) else Ok None
  end.

(** An image some decoder reads. *)
Definition decodes (img_path : string) : bool :=
  match decoded img_path with Ok (Some _) => true | _ => false end.

(** The calls a batch makes when it completes: one per decodable image,
    with its 1-based position in the enumeration. *)
Definition expected_calls (total_images : Z) items : list (Z * Z) :=
  omap (fun '(img_idx, img_path) =>
          if decodes img_path then Some (img_idx + 1, total_images) else None) items.

(** A written frame of a batch belongs to one of its decodable images. *)
Definition batch_written (output_dir : string) motion_types (quality : string)
    (target_size : Z * Z) (Pw : ndarray -> event -> Prop) (paths : list string)
    (e : event) : Prop :=
  forall p f, e = EvWrite p f ->
    exists img_path a,
      img_path ∈ paths /\ decoded img_path = Ok (Some a)
      /\ written_by (output_path_of output_dir img_path motion_types quality)
                    a target_size Pw e.

(** Every call on the encoder made for an image returned, and so did the
    size probe of its file. *)
Definition encoded_ok (output_dir : string) motion_types (quality : string)
    (total_frames : Z) (img_path : string) : Prop :=
  decodes img_path = true ->
  VideoWriter_open (output_path_of output_dir img_path motion_types quality) = None
  /\ Forall (fun j => VideoWriter_write
                        (output_path_of output_dir img_path motion_types quality) j = None)
            (range total_frames)
  /\ VideoWriter_release (output_path_of output_dir img_path motion_types quality) = None
  /\ is_ok (os_path_getsize (output_path_of output_dir img_path motion_types quality)) = true.

(** The encoding of the video at [path] failed: its stream could not be
    opened, or one of its [total_frames] frames was not stored. *)
Definition encoding_failed (path : string) (total_frames : Z) : Prop :=
  VideoWriter_isOpened path = false
  \/ exists j, 0 <= j < total_frames /\ VideoWriter_stored path j = false.

End Vocabulary.

(** ** The web front end ([Scripts/app.py])

    The two tables of the page, the job store [JOBS], the background
    worker, and the [/batch-start] and [/status] handlers.  A request body
    is taken field by field, with the types the page sends: text for the
    directory and the quality, a name or a list of names for the effects,
    numbers (or their text) for the frame rate and the duration.  The
    worker thread is the function [batch_worker] run on the arguments
    [batch_start] hands over. *)

(** Available motion effects *)
Definition MOTION_EFFECTS : list (string * string) :=
  [ ("subtle", "Subtle (Gentle Zoom + Pan)");
    ("ken-burns", "Ken Burns (Classic Cinema Zoom)");
    ("360-pan", "360° Panoramic Pan");
    ("tilt-shift", "Tilt-Shift (Selective Focus)");
    ("zoom-in", "Zoom In (Strong)");
    ("zoom-out", "Zoom Out");
    ("dolly-zoom", "Dolly Zoom (Perspective)");
    ("wave", "Wave Distortion");
    ("radial-blur", "Radial Blur (Zoom Blur)");
    ("rotation", "Rotation (360°)");
    ("flip", "Flip with Zoom");
    ("none", "No Motion (Static)") ]%string.

(** Quality presets *)
Definition QUALITY_OPTIONS : list (string * string) :=
  [ ("4K", "3840x2160");
    ("1080p", "1920x1080");
    ("720p", "1280x720");
    ("480p", "854x480");
    ("360p", "640x360") ]%string.

(** A number of a request body: a JSON number, or its text. *)
Inductive number : Type :=
| NInt (z : Z)
| NFloat (x : float)
| NStr (s : string).

(** The values a job record and a response body hold. *)
Inductive value : Type :=
| VStr (s : string)
| VInt (z : Z)
| VNum (n : number)
| VNames (l : list string)
| VVideos (l : list video_info)
| VVideo (v : video_info)
| VMeta (m : metadata).

(** [JOBS]: job id to job record; a record is a dict of its own. *)
Abbreviation job := (gmap string value).
Abbreviation jobs := (gmap string job).

(** What the front end reaches outside itself, besides the converter's host. *)
Class Server : Type := {
  script_dir : string;
  os_path_isabs : string -> bool;
  (** [int(s)] and [float(s)] on text *)
  int_of_str : string -> exc Z;
  float_of_str : string -> exc float;
  (** a float, a request number and a list of names as an f-string prints them *)
  str_of_float : float -> string;
  str_of_number : number -> string;
  str_of_names : list string -> string;
  (** [strftime('%Y%m%d_%H%M%S_%f')] *)
  strftime_id : Z -> string
}.

(** The state of the process, and a computation on it that can raise. *)
Definition App (A : Type) : Type := jobs * world -> (jobs * world) * exc A.

#[global] Instance App_ret : MRet App := fun A a s => (s, Ok a).

#[global] Instance App_bind : MBind App := fun A B f m s =>
  match m s with
  | (s', Ok a) => f a s'
  | (s', Raise e) => (s', Raise e)
  end.

Definition app_lift {A} (r : exc A) : App A := fun s => (s, r).

(** A computation of the converter, run in the process. *)
Definition app_run {A} (m : M A) : App A := fun s =>
  let '(w', r) := m s.2 in ((s.1, w'), r).

(** [try: body except Exception as e: handler(e)] *)
Definition try_except (body : App unit) (handler : exn -> App unit) : App unit := fun s =>
  match body s with
  | (s', Raise e) => handler e s'
  | r => r
  end.

(** [JOBS[job_id][key] = v] *)
Definition set_item (job_id key : string) (v : value) : App unit := fun s =>
  match s.1 !! job_id with
  | Some j => ((<[job_id := <[key := v]> j]> s.1, s.2), Ok tt)
  | None => (s, Raise KeyError)
  end.

(** [JOBS[job_id] = record] *)
Definition put_job (job_id : string) (record : job) : App unit := fun s =>
  ((<[job_id := record]> s.1, s.2), Ok tt).

(** [d[key]] *)
Definition get_item (d : job) (key : string) : exc value :=
  match d !! key with Some v => Ok v | None => Raise KeyError end.

(** [len(v)] *)
Definition py_len (v : value) : exc Z :=
  match v with
  | VStr s => Ok (Z.of_nat (String.length s))
  | VNames l => Ok (Z.of_nat (length l))
  | VVideos l => Ok (Z.of_nat (length l))
  | VVideo _ => Ok 10
  | VMeta _ => Ok 6
  | VInt _ | VNum _ => Raise (External "TypeError")
  end.

(** Truth value of [v] in a condition. *)
Definition truthy (v : value) : bool :=
  match v with
  | VStr s => negb (bool_decide (s = ""%string))
  | VNames l => negb (bool_decide (l = []))
  | VVideos l => negb (bool_decide (length l = 0%nat))
  | VInt z => negb (z =? 0)
  | VNum (NInt z) => negb (z =? 0)
  | VNum (NFloat x) => negb (is_zero x)
  | VNum (NStr s) => negb (bool_decide (s = ""%string))
  | VVideo _ | VMeta _ => true
  end.

(** [v == 'done'] *)
Definition is_str (s : string) (v : value) : bool :=
  match v with VStr s' => bool_decide (s' = s) | _ => false end.

(** [int((current / total) * 100)] of both progress callbacks. *)
Definition progress_percent (current total : Z) : exc Z :=
  q ← int_truediv current total;
  hundred ← of_int 100;
  to_int (mul q hundred).

Section FrontEnd.
Context {K : Kernels} {H : Host} {S : Server}.

(** [int(n)], [float(n)] *)
Definition py_int (n : number) : exc Z :=
  match n with
  | NInt z => Ok z
  | NFloat x => to_int x
  | NStr s => int_of_str s
  end.

Definition py_float (n : number) : exc float :=
  match n with
  | NInt z => of_int z
  | NFloat x => Ok x
  | NStr s => float_of_str s
  end.

(** The closure [progress_callback] of [batch_worker],
    [JOBS[job_id]['progress'] = int((current / total) * 100)]: what it
    raises ([tracked]: the job is in [JOBS]), and what it stores when it
    returns. *)
Definition job_progress_raises (tracked : bool) : callback :=
  fun current total =>
    match progress_percent current total with
    | Ok _ => if tracked then None else Some KeyError
    | Raise e => Some e
    end.

Definition job_progress_stores (job_id : string) (J : jobs) (call : Z * Z) : jobs :=
  match progress_percent call.1 call.2, J !! job_id with
  | Ok p, Some j => <[job_id := <["progress" := VInt p]> j]> J
  | _, _ => J
  end.

(** The call of the converter from the worker: the converter runs with
    the closure; the calls it made are then read off the trace, in order,
    for what the closure stored in [JOBS]. *)
Definition convert (job_id input_path output_path : string) (motion_types : motion_arg)
    (video_duration : float) (fps : Z) (quality : string) : App retval := fun s =>
  let '(w', r) :=
    create_video_per_image_with_motion input_path output_path motion_types video_duration
      fps quality (Some (job_progress_raises (bool_decide (is_Some (s.1 !! job_id))))) s.2 in
  ((foldl (job_progress_stores job_id) s.1 (progress_calls (new_events s.2 w')), w'), r).

(** [videos, metadata = result] *)
Definition unpack_pair (r : retval) : exc (value * value) :=
  match r with
  | RTuple videos meta => Ok (VVideos videos, VMeta meta)
  | RList [v1; v2] => Ok (VVideo v1, VVideo v2)
  | RList _ => Raise ValueError
  end.

(** [metadata['total_processing_time']] *)
Definition total_processing_time_of (metadata : value) : exc float :=
  match metadata with
  | VMeta m => Ok (md_total_processing_time m)
  | VVideo _ => Raise KeyError
  | _ => Raise (External "TypeError")
  end.

(** Background worker for batch conversion. *)
Definition batch_worker (job_id input_dir : string) (motion_types : motion_arg)
    (quality : string) (fps duration : number) : App unit :=
  try_except
    (let input_path :=
       if negb (os_path_isabs input_dir) then os_path_join script_dir input_dir
       else input_dir in
     let output_path := os_path_join script_dir "Output" in
     set_item job_id "status" (VStr "running");;
     video_duration ← app_lift (py_float duration);
     fps ← app_lift (py_int fps);
     result ← convert job_id input_path output_path motion_types video_duration fps quality;
     '(videos, metadata) ← app_lift (unpack_pair result);
     set_item job_id "status" (VStr "done");;
     set_item job_id "progress" (VInt 100);;
     set_item job_id "output" videos;;
     set_item job_id "metadata" metadata;;
     n ← app_lift (py_len videos);
     t ← app_lift (total_processing_time_of metadata);
     set_item job_id "message"
       (VStr ("Successfully created " +:+ pretty n +:+ " videos in "
              +:+ str_of_float t +:+ "s")))
    (fun e =>
       set_item job_id "status" (VStr "error");;
       set_item job_id "message" (VStr (str_of_exn e))).

(** The body of a [/batch-start] request, field by field ([None]: the
    key is absent). *)
Record request : Type := {
  req_input_dir : option string;
  req_motion_types : option motion_arg;
  req_quality : option string;
  req_fps : option number;
  req_duration : option number
}.

(** The arguments handed to the worker thread. *)
Record worker_args : Type := {
  wa_job_id : string;
  wa_input_dir : string;
  wa_motion_types : motion_arg;
  wa_quality : string;
  wa_fps : number;
  wa_duration : number
}.

(** Start a batch conversion job: the job record is stored, and the
    worker thread is started with the arguments returned. *)
Definition batch_start (data : request) : App worker_args :=
  let input_dir := default "Input"%string (req_input_dir data) in
  let motion_types := default (MSeq ["subtle"%string]) (req_motion_types data) in
  let quality := default "1080p"%string (req_quality data) in
  let fps := default (NInt 10) (req_fps data) in
  let duration := default (NInt 5) (req_duration data) in
  app_run (emit (EvPrint ("DEBUG: Received motion_types: "
                           +:+ match motion_types with
                               | MStr s => s
                               | MSeq l => str_of_names l
                               end
                           +:+ ", type: "
                           +:+ match motion_types with
                               | MStr _ => "<class 'str'>"
                               | MSeq _ => "<class 'list'>"
                               end)));;
  app_run (emit (EvPrint ("DEBUG: Received data: input_dir=" +:+ input_dir
                           +:+ ", quality=" +:+ quality
                           +:+ ", fps=" +:+ str_of_number fps
                           +:+ ", duration=" +:+ str_of_number duration)));;
  let motion_types :=
    match motion_types with
    | MStr s => [s]
    | MSeq l => l
    end in
  app_run (emit (EvPrint ("DEBUG: Final motion_types after conversion: "
                           +:+ str_of_names motion_types)));;
  t ← app_run tick;
  let job_id := strftime_id (datetime_now t) in
  t' ← app_run tick;
  put_job job_id
    {[ "status" := VStr "queued";
       "progress" := VInt 0;
       "output" := VVideos [];
       "message" := VStr "Job queued";
       "motion_types" := VNames motion_types;
       "quality" := VStr quality;
       "fps" := VNum fps;
       "duration" := VNum duration;
       "start_time" := VStr (strftime (datetime_now t')) ]}%string;;
  mret {| wa_job_id := job_id; wa_input_dir := input_dir;
          wa_motion_types := MSeq motion_types; wa_quality := quality;
          wa_fps := fps; wa_duration := duration |}.

(** Get job status: the HTTP status code and the body. *)
Definition status (job_id : string) (J : jobs) : exc (Z * gmap string value) :=
  match J !! job_id with
  | None => Ok (404, {[ "error"%string := VStr "Job not found" ]})
  | Some job =>
      st ← get_item job "status";
      progress ← get_item job "progress";
      message ← get_item job "message";
      output ← get_item job "output";
      output_count ← py_len output;
      let response : gmap string value :=
        {[ "status" := st;
           "progress" := progress;
           "message" := message;
           "motion_types" := default (VNames []) (job !! "motion_types");
           "quality" := default (VStr "unknown") (job !! "quality");
           "fps" := default (VInt 10) (job !! "fps");
           "duration" := default (VInt 5) (job !! "duration");
           "output_count" := VInt output_count;
           "start_time" := default (VStr "") (job !! "start_time") ]}%string in
      response ←
        (if is_str "done" st && bool_decide (is_Some (job !! "metadata"%string))
         then metadata ← get_item job "metadata";
              let response := <["metadata"%string := metadata]> response in
              output ← get_item job "output";
              Ok (if truthy output then <["videos"%string := output]> response
                  else response)
         else Ok response);
      Ok (200, response)
  end.

End FrontEnd.

(** ** A small site

    The front end installed in [/srv], with the converter's host reading
    [/srv/Input]: [b.png] decodes to the 2x2 image of the fixture, and
    [a.png] is read by no decoder. *)

Module Site.
Import Fixture.

Definition server : Server := {|
  script_dir := "/srv";
  os_path_isabs := String.prefix "/";
  int_of_str := fun _ => Raise ValueError;
  float_of_str := fun _ => Raise ValueError;
  str_of_float := fun _ => "0.0"%string;
  str_of_number := fun n => match n with
                            | NInt z => pretty z
                            | NFloat _ => "0.0"%string
                            | NStr s => s
                            end;
  str_of_names := fun l => "[" +:+ String.concat ", " l +:+ "]";
  strftime_id := fun t => "job-" +:+ pretty t
|}.

Definition host_of (files : list string) (open_fails : bool) : Host := {|
  os_makedirs := fun _ => None;
  os_path_exists := fun _ => true;
  os_path_join := fun d f => d +:+ "/" +:+ f;
  os_path_basename := fun p =>
    if decide (p = "/srv/Input/b.png"%string) then "b.png"%string
    else if decide (p = "/srv/Input/a.png"%string) then "a.png"%string
    else p;
  os_path_splitext := fun p =>
    if decide (p = "b.png"%string) then ("b", ".png")%string
    else if decide (p = "a.png"%string) then ("a", ".png")%string
    else (p, ""%string);
  os_path_getsize := fun _ => Ok 2097152;
  glob_glob := fun pat => if decide (pat = "/srv/Input/*.png"%string) then files else [];
  PIL_AVAILABLE := false;
  cv2_imread := fun path =>
    if decide (path = "/srv/Input/b.png"%string) then Some photo else None;
  PIL_open_RGB := fun _ => Raise (External "cannot identify image file");
  VideoWriter_open := fun _ => if open_fails then Some cv2_error else None;
  VideoWriter_write := fun _ _ => None;
  VideoWriter_release := fun _ => None;
  VideoWriter_isOpened := fun _ => true;
  VideoWriter_stored := fun _ _ => true;
  datetime_now := fun n => 1000000 * Z.of_nat n;
  strftime := fun t => pretty t;
  round2 := fun x => x;
  str_of_exn := fun e => match e with
                         | ValueError => "not enough values to unpack"
                         | _ => "error"
                         end%string
|}.

Definition site_host : Host :=
  host_of ["/srv/Input/b.png"; "/srv/Input/a.png"]%string false.

Definition site_no_stream : Host :=
  host_of ["/srv/Input/b.png"; "/srv/Input/a.png"]%string true.

Definition site_empty : Host := host_of [] false.

(** A job as [/batch-start] queues it. *)
Definition queued : job :=
  {[ "status" := VStr "queued";
     "progress" := VInt 0;
     "output" := VVideos [];
     "message" := VStr "Job queued";
     "motion_types" := VNames ["none"];
     "quality" := VStr "360p";
     "fps" := VNum (NInt 10);
     "duration" := VNum (NFloat (lit 2 10));
     "start_time" := VStr "0" ]}%string.

Definition tracked : jobs := {[ "job-0"%string := queued ]}.

End Site.

(** ** Further vocabulary: sizes, runs of the batch, jobs *)

(** Python's order on [str]: lexicographic on code points. *)
Definition str_le (x y : string) : Prop := String.leb x y = true.

(** Two frames of the same width, height and channel count. *)
Definition same_frame_size (a a' : ndarray) : Prop :=
  frame_dims a' = frame_dims a /\ cv2_channels a' = cv2_channels a.

(** The cell an effect returns holds a [Q]-frame. *)
Definition returns_frame (Q : ndarray -> Prop) : world -> exc loc -> Prop :=
  fun w' r => match r with
              | Ok l => exists a', heap w' !! l = Some a' /\ Q a'
              | Raise _ => True
              end.

(** A frame as an 8-bit encoder takes it. *)
Definition is_uint8 (a : ndarray) : Prop :=
  exists l, data a = ints l /\ Forall (fun z => 0 <= z < 256) l.

(** A written frame has the dimensions of [r] and 8-bit samples. *)
Definition sized_as (r : ndarray) (e : event) : Prop :=
  forall p f, e = EvWrite p f -> frame_dims f = frame_dims r /\ is_uint8 f.

(** Left edge of the window of the 360-degree pan:
    [start_x = int((tiled_width - width) * progress)]. *)
Definition pan_start (width : nat) (frame_idx total_frames : Z) : exc Z :=
  progress ← effect_progress frame_idx total_frames;
  x ← int_mul (Z.of_nat (3 * width) - Z.of_nat width) progress;
  to_int x.

(** Columns of [tiled[:, start_x:start_x + width]] on the tiled image. *)
Definition pan_width (width : nat) (start_x : Z) : nat :=
  (slice_range (Z.of_nat (3 * width)) start_x (start_x + Z.of_nat width)).2.

(** The sign bit of a float, when it has one, is [s]. *)
Definition sign_is (s : bool) (x : float) : Prop :=
  match x with
  | S754_zero s' | S754_infinity s' | S754_finite s' _ _ => s' = s
  | S754_nan => True
  end.

(** The events of the encoding of one image: the stream is opened, the
    frames are written, the stream is released ([released]) and the
    callback is called ([reported]). *)
Definition video_events (path : string) (fps : Z) (target_size : Z * Z)
    (img_idx total_images : Z) (frames : list ndarray) (released reported : bool)
    : list event :=
  EvWriterOpen path fps target_size :: (EvWrite path <$> frames)
    ++ (if released then [EvRelease path] else [])
    ++ (if reported then [EvProgress (img_idx + 1) total_images] else []).

Section RunVocabulary.
Context {K : Kernels} {H : Host}.
Implicit Types (motion_types : list string) (item : Z * string) (items : list (Z * string)).

(** What the six patterns match, in pattern order. *)
Definition globbed (input_dir : string) : list string :=
  pattern ← image_patterns; glob_glob (os_path_join input_dir pattern).

(** The calls on the encoder for the stream of [path] all returned: the
    opening, the [total_frames] writes and the release. *)
Definition accepted (path : string) (total_frames : Z) : Prop :=
  VideoWriter_open path = None
  /\ Forall (fun j => VideoWriter_write path j = None) (range total_frames)
  /\ VideoWriter_release path = None.

(** The record of the result that describes the video of [img_path]. *)
Definition describes (output_dir : string) motion_types (video_duration : float)
    (fps : Z) (quality : string) (target_size : Z * Z) (img_path : string)
    (v : video_info) : Prop :=
  let path := output_path_of output_dir img_path motion_types quality in
  vi_path v = path
  /\ vi_filename v = os_path_basename path
  /\ (exists size mb, os_path_getsize path = Ok size
        /\ int_truediv size (1024 * 1024) = Ok mb /\ vi_size_mb v = round2 mb)
  /\ vi_duration_seconds v = video_duration
  /\ vi_fps v = fps
  /\ vi_quality v = quality
  /\ vi_resolution v = pretty target_size.1 +:+ "x" +:+ pretty target_size.2
  /\ vi_motion_effects v = motion_types
  /\ vi_speed v = pretty fps +:+ "fps".

(** What a batch does for an image it completes: a whole stream for a
    decodable image, one printed line for the others. *)
Definition image_block (output_dir : string) motion_types (fps : Z) (quality : string)
    (target_size : Z * Z) (total_images total_frames : Z)
    (progress_callback : option callback) item (evs : list event) : Prop :=
  let path := output_path_of output_dir item.2 motion_types quality in
  if decodes item.2
  then accepted path total_frames
       /\ (forall cb, progress_callback = Some cb -> cb (item.1 + 1) total_images = None)
       /\ exists frames,
            length frames = Z.to_nat total_frames
            /\ evs = video_events path fps target_size item.1 total_images frames true
                       (bool_decide (is_Some progress_callback))
  else decoded item.2 = Ok None
       /\ exists rest, evs = [EvPrint ("Skipping '" +:+ item.2 +:+ rest)].

(** What a batch leaves of the image it fails on, raising [e]. *)
Definition failed_block (output_dir : string) motion_types (fps : Z) (quality : string)
    (target_size : Z * Z) (total_images total_frames : Z)
    (progress_callback : option callback) item (e : exn) (evs : list event) : Prop :=
  let path := output_path_of output_dir item.2 motion_types quality in
  evs = []
  \/ exists frames released reported,
       decodes item.2 = true
       /\ evs = video_events path fps target_size item.1 total_images frames released reported
       /\ (length frames <= Z.to_nat total_frames)%nat
       /\ (released = true -> length frames = Z.to_nat total_frames
                              /\ accepted path total_frames)
       /\ (reported = true ->
           released = true
           /\ exists cb, progress_callback = Some cb
                         /\ cb (item.1 + 1) total_images = Some e).

(** The outcome of a batch over [items]: the blocks of the images it
    completed and their records, or the blocks of the images before the
    one it failed on and what it left of that one. *)
Definition batch_outcome (output_dir : string) motion_types (video_duration : float)
    (fps : Z) (quality : string) (target_size : Z * Z) (total_images total_frames : Z)
    (progress_callback : option callback) items (evs : list event)
    (res : exc (list video_info)) : Prop :=
  match res with
  | Ok videos =>
      exists blocks,
        evs = concat blocks
        /\ Forall2 (image_block output_dir motion_types fps quality target_size
                      total_images total_frames progress_callback) items blocks
        /\ Forall2 (describes output_dir motion_types video_duration fps quality
                      target_size)
                   (filter (fun p => decodes p = true) items.*2) videos
  | Raise e =>
      exists completed item rest blocks partial,
        items = completed ++ item :: rest
        /\ evs = concat blocks ++ partial
        /\ Forall2 (image_block output_dir motion_types fps quality target_size
                      total_images total_frames progress_callback) completed blocks
        /\ failed_block output_dir motion_types fps quality target_size total_images
             total_frames progress_callback item e partial
  end.

(** The outcome of the whole function, from the events it appended. *)
Definition run_outcome (input_dir output_dir : string) (motion_types : motion_arg)
    (video_duration : float) (fps : Z) (quality : string)
    (progress_callback : option callback) (evs : list event) (res : exc retval) : Prop :=
  let images := collect_images input_dir in
  let plan := effective_motion_types motion_types in
  let batch target_size total_frames :=
    batch_outcome output_dir plan video_duration fps (effective_quality quality)
      target_size (Z.of_nat (length images)) total_frames progress_callback
      (enumerate images) in
  match res with
  | Ok (RList videos) => images = [] /\ videos = [] /\ evs = [EvMakedirs output_dir]
  | Ok (RTuple videos meta) =>
      images ≠ []
      /\ md_videos_created meta = Z.of_nat (length videos)
      /\ md_quality meta = effective_quality quality
      /\ md_motion_effects meta = plan
      /\ exists target_size total_frames batch_evs,
           target_size_of (effective_quality quality) = Ok target_size
           /\ total_frames_of video_duration fps = Ok total_frames
           /\ evs = EvMakedirs output_dir :: batch_evs
           /\ batch target_size total_frames batch_evs (Ok videos)
  | Raise e =>
      evs = []
      \/ evs = [EvMakedirs output_dir]
      \/ exists target_size total_frames batch_evs,
           target_size_of (effective_quality quality) = Ok target_size
           /\ total_frames_of video_duration fps = Ok total_frames
           /\ evs = EvMakedirs output_dir :: batch_evs
           /\ (batch target_size total_frames batch_evs (Raise e)
               \/ exists videos, batch target_size total_frames batch_evs (Ok videos))
  end.

End RunVocabulary.

(** The keys of a job record the worker writes. *)
Definition worker_keys : list string :=
  ["status"; "progress"; "output"; "metadata"; "message"]%string.

(** [J'] is [J] but for the record of [job_id], which is [j] but for the
    keys the worker writes; no key of [j] is lost. *)
Definition tracks (job_id : string) (j : job) (J J' : jobs) : Prop :=
  (forall id, id ≠ job_id -> J' !! id = J !! id)
  /\ exists j', J' !! job_id = Some j'
       /\ (forall k, k ∉ worker_keys -> j' !! k = j !! k)
       /\ (forall k, is_Some (j !! k) -> is_Some (j' !! k)).

(** [awp m s post]: the state and the outcome of [m] run from [s] satisfy [post]. *)
Definition awp {A} (m : App A) (s : jobs * world)
    (post : jobs * world -> exc A -> Prop) : Prop :=
  post (m s).1 (m s).2.

(** What the closure leaves under ["progress"] after the calls [calls]:
    the percentage of the last call it could compute. *)
Definition reported_progress (calls : list (Z * Z)) (old : option value) : option value :=
  foldl (fun acc c => match progress_percent c.1 c.2 with
                      | Ok p => Some (VInt p)
                      | Raise _ => acc
                      end) old calls.

Section WorkerVocabulary.
Context {K : Kernels} {H : Host} {S : Server}.

(** The directory the worker reads. *)
Definition worker_input_path (input_dir : string) : string :=
  if negb (os_path_isabs input_dir) then os_path_join script_dir input_dir else input_dir.

(** The conversion the worker attempts, with the unpacking of its result. *)
Definition worker_attempt (input_dir : string) (motion_types : motion_arg)
    (quality : string) (fps duration : number) (w : world) : world * exc (value * value) :=
  match py_float duration with
  | Raise e => (w, Raise e)
  | Ok video_duration =>
      match py_int fps with
      | Raise e => (w, Raise e)
      | Ok fps =>
          let '(w', r) :=
            create_video_per_image_with_motion (worker_input_path input_dir)
              (os_path_join script_dir "Output") motion_types video_duration fps quality
              (Some (job_progress_raises true)) w in
          (w', r ≫= unpack_pair)
      end
  end.

End WorkerVocabulary.

(** * Properties *)

(** ** A program logic for [M] *)

Lemma keeps_refl n P w : keeps n P w w.
Proof.
  split; [done|]. split; [done|]. exists []. by rewrite app_nil_r.
Qed.

Lemma keeps_trans n P w1 w2 w3 : keeps n P w1 w2 -> keeps n P w2 w3 -> keeps n P w1 w3.
Proof.
  intros (Ht1 & Hl1 & evs1 & He1 & Hp1) (Ht2 & Hl2 & evs2 & He2 & Hp2).
  split; [congruence|]. split; [lia|].
  exists (evs1 ++ evs2). split.
  - by rewrite He2, He1, app_assoc.
  - by apply Forall_app.
Qed.

Lemma keeps_weaken n P P' w w' :
  (forall e, P e -> P' e) -> keeps n P w w' -> keeps n P' w w'.
Proof.
  intros HP (Ht & Hl & evs & He & Hp). repeat split; [done..|].
  exists evs. split; [done|]. eapply Forall_impl; eauto.
Qed.

Lemma keeps_le n n' P w w' : (n' <= n)%nat -> keeps n P w w' -> keeps n' P w w'.
Proof.
  intros Hle (Ht & Hl & Hev). split; [|done].
  rewrite <- (Nat.min_l n' n) by done.
  by rewrite <- !take_take, Ht.
Qed.

Lemma keeps_lookup n P w w' l a :
  keeps n P w w' -> (l < n)%nat -> heap w !! l = Some a -> heap w' !! l = Some a.
Proof.
  intros (Ht & _) Hl Ha.
  rewrite <- (lookup_take_lt (heap w') n l) by done.
  rewrite Ht. by rewrite lookup_take_lt.
Qed.

Lemma keeps_no_event n w w' : keeps n no_event w w' -> trace w' = trace w.
Proof.
  intros (_ & _ & evs & He & Hp). destruct evs as [|e evs].
  - by rewrite app_nil_r in He.
  - by inversion Hp.
Qed.

Section Logic.
Context {A B : Type}.
Implicit Types (n : nat) (P : event -> Prop).

Lemma M_bind_eq (m : M A) (f : A -> M B) w :
  (m ≫= f) w = match m w with (w', Ok a) => f a w' | (w', Raise e) => (w', Raise e) end.
Proof. reflexivity. Qed.

Lemma safe_bind n P (m : M A) (f : A -> M B) Q R :
  safe n P m Q -> (forall a, Q a -> safe n P (f a) R) -> safe n P (m ≫= f) R.
Proof.
  intros Hm Hf w Hn. rewrite M_bind_eq.
  destruct (Hm w Hn) as [Hk HQ]. destruct (m w) as [w' [a|e]]; simpl in *.
  - destruct (Hf a (HQ a eq_refl) w') as [Hk' HR].
    { destruct Hk as (_ & ? & _). lia. }
    split; [by eapply keeps_trans|done].
  - split; [done|]. intros a; discriminate.
Qed.

Lemma safe_weaken n P (m : M A) (Q Q' : A -> Prop) :
  safe n P m Q -> (forall a, Q a -> Q' a) -> safe n P m Q'.
Proof. intros Hm HQ w Hn. destruct (Hm w Hn). split; eauto. Qed.

Lemma safe_events n P P' (m : M A) Q :
  (forall e, P e -> P' e) -> safe n P m Q -> safe n P' m Q.
Proof. intros HP Hm w Hn. destruct (Hm w Hn). split; [by eapply keeps_weaken|done]. Qed.

Lemma safe_ret n P (a : A) : safe n P (mret a) (eq a).
Proof. intros w _. split; [apply keeps_refl|]. by intros ? [= ->]. Qed.

Lemma safe_lift n P (r : exc A) : safe n P (lift r) (fun a => r = Ok a).
Proof. intros w _. split; [apply keeps_refl|]. intros a Ha. exact Ha. Qed.

End Logic.

Lemma safe_load n P l : safe n P (load l) (fun _ => True).
Proof. intros w _. split; [apply keeps_refl|done]. Qed.

Lemma safe_alloc n P a : safe n P (alloc a) (fun l => (n <= l)%nat).
Proof.
  intros w Hn. split.
  - split; simpl.
    + by rewrite take_app_le.
    + split; [rewrite length_app; lia|]. exists []. by rewrite app_nil_r.
  - by intros l [= <-].
Qed.

Lemma safe_store n P l a : (n <= l)%nat -> safe n P (store l a) (fun _ => True).
Proof.
  intros Hl w Hn. split; [|done]. split; simpl.
  - by apply take_insert_ge.
  - split; [by rewrite length_insert|]. exists []. by rewrite app_nil_r.
Qed.

Lemma safe_emit n (P : event -> Prop) e : P e -> safe n P (emit e) (fun _ => True).
Proof.
  intros He w Hn. split; [|done]. split; [done|]. split; [done|].
  exists [e]. split; [done|]. by constructor.
Qed.

Lemma safe_raise_if n P o : safe n P (raise_if o) (fun _ => True).
Proof. intros w _. split; [apply keeps_refl|done]. Qed.

Lemma safe_for_each {A} n P (l : list A) (body : A -> M unit) :
  (forall x, x ∈ l -> safe n P (body x) (fun _ => True)) ->
  safe n P (for_each l body) (fun _ => True).
Proof.
  induction l as [|x l IH]; intros Hbody; simpl.
  - eapply safe_weaken; [apply safe_ret|done].
  - eapply safe_bind.
    + apply Hbody. by left.
    + intros _ _. apply IH. intros y Hy. apply Hbody. by right.
Qed.

(** One step of a [safe] derivation. *)
Ltac safe_close := intros; simplify_eq; try done; try lia.

Ltac safe_prim lem :=
  first [ apply lem | eapply safe_weaken; [apply lem | safe_close] ].

Ltac safe_step :=
  lazymatch goal with
  | |- safe _ _ (mbind _ _) _ => eapply safe_bind; [| intros ? ?; cbv beta in *]
  | |- safe _ _ (let '(_, _) := ?x in _) _ => destruct x
  | |- safe _ _ (lift _) _ => safe_prim safe_lift
  | |- safe _ _ (load _) _ => safe_prim safe_load
  | |- safe _ _ (alloc _) _ => safe_prim safe_alloc
  | |- safe _ _ (store _ _) _ => safe_prim safe_store; try lia
  | |- safe _ _ (raise_if _) _ => safe_prim safe_raise_if
  | |- safe _ _ (mret _) _ => safe_prim safe_ret
  | |- safe _ _ (for_each _ _) _ => safe_prim safe_for_each; intros ? ?
  | |- safe _ _ (if ?c then _ else _) _ => destruct c
  | |- safe _ _ (match ?x with _ => _ end) _ => destruct x
  end.

Section EffectsSafe.
Context {K : Kernels}.
Implicit Types (n : nat) (img : loc) (frame_idx total_frames : Z).

Lemma safe_warp n P img Mx width height :
  safe n P (warp img Mx width height) (fun l => (n <= l)%nat).
Proof. unfold warp. repeat safe_step. Qed.

Lemma safe_ndarray_copy n P img : safe n P (ndarray_copy img) (fun l => (n <= l)%nat).
Proof. unfold ndarray_copy. repeat safe_step. Qed.

Ltac safe_effect :=
  repeat first
    [ safe_prim safe_warp
    | safe_prim safe_ndarray_copy
    | safe_step ].

Lemma safe_apply_subtle_motion n P img frame_idx total_frames :
  safe n P (apply_subtle_motion img frame_idx total_frames) (fun l => (n <= l)%nat).
Proof. unfold apply_subtle_motion. safe_effect. Qed.

Lemma safe_apply_ken_burns_effect n P img frame_idx total_frames :
  safe n P (apply_ken_burns_effect img frame_idx total_frames) (fun l => (n <= l)%nat).
Proof. unfold apply_ken_burns_effect. safe_effect. Qed.

Lemma safe_apply_360_pan_effect n P img frame_idx total_frames :
  safe n P (apply_360_pan_effect img frame_idx total_frames) (fun l => (n <= l)%nat).
Proof. unfold apply_360_pan_effect. safe_effect. Qed.

Lemma safe_apply_tilt_shift_effect n P img frame_idx total_frames :
  safe n P (apply_tilt_shift_effect img frame_idx total_frames) (fun l => (n <= l)%nat).
Proof. unfold apply_tilt_shift_effect. safe_effect. Qed.

Lemma safe_apply_zoom_in_effect n P img frame_idx total_frames :
  safe n P (apply_zoom_in_effect img frame_idx total_frames) (fun l => (n <= l)%nat).
Proof. unfold apply_zoom_in_effect. safe_effect. Qed.

Lemma safe_apply_zoom_out_effect n P img frame_idx total_frames :
  safe n P (apply_zoom_out_effect img frame_idx total_frames) (fun l => (n <= l)%nat).
Proof. unfold apply_zoom_out_effect. safe_effect. Qed.

Lemma safe_apply_dolly_zoom_effect n P img frame_idx total_frames :
  safe n P (apply_dolly_zoom_effect img frame_idx total_frames) (fun l => (n <= l)%nat).
Proof. unfold apply_dolly_zoom_effect. safe_effect. Qed.

Lemma safe_apply_wave_effect n P img frame_idx total_frames :
  safe n P (apply_wave_effect img frame_idx total_frames) (fun l => (n <= l)%nat).
Proof. unfold apply_wave_effect. safe_effect. Qed.

Lemma safe_apply_radial_blur_effect n P img frame_idx total_frames :
  safe n P (apply_radial_blur_effect img frame_idx total_frames) (fun l => (n <= l)%nat).
Proof. unfold apply_radial_blur_effect. safe_effect. Qed.

Lemma safe_apply_rotation_effect n P img frame_idx total_frames :
  safe n P (apply_rotation_effect img frame_idx total_frames) (fun l => (n <= l)%nat).
Proof. unfold apply_rotation_effect. safe_effect. Qed.

Lemma safe_apply_flip_effect n P img frame_idx total_frames :
  safe n P (apply_flip_effect img frame_idx total_frames) (fun l => (n <= l)%nat).
Proof. unfold apply_flip_effect. safe_effect. Qed.

End EffectsSafe.

(** ** Two runs side by side *)

Section SideBySide.
Context {A B : Type}.
Implicit Types (w : world) (l : loc) (R : world -> B -> world -> B -> Prop).

Lemma rel_bind (S : world -> A -> world -> A -> Prop) R (m1 m2 : M A) (f1 f2 : A -> M B) w1 w2 :
  rel S m1 m2 w1 w2 ->
  (forall w1' w2' a b, S w1' a w2' b -> rel R (f1 a) (f2 b) w1' w2') ->
  rel R (m1 ≫= f1) (m2 ≫= f2) w1 w2.
Proof.
  intros Hm Hf. unfold rel in *. rewrite !M_bind_eq.
  destruct (m1 w1) as [w1' [a|e1]], (m2 w2) as [w2' [b|e2]]; simpl in *; try done.
  by apply Hf.
Qed.

Lemma rel_bind_load R l1 l2 (f1 f2 : ndarray -> M B) w1 w2 :
  same_at w1 w2 l1 l2 ->
  (forall a, heap w1 !! l1 = Some a -> heap w2 !! l2 = Some a -> rel R (f1 a) (f2 a) w1 w2) ->
  rel R (load l1 ≫= f1) (load l2 ≫= f2) w1 w2.
Proof.
  intros (a & H1 & H2) Hf. specialize (Hf a H1 H2).
  unfold rel in *. rewrite !M_bind_eq. unfold load. by rewrite H1, H2.
Qed.

Lemma rel_bind_lift R (r : exc A) (f1 f2 : A -> M B) w1 w2 :
  (forall a, r = Ok a -> rel R (f1 a) (f2 a) w1 w2) ->
  rel R (lift r ≫= f1) (lift r ≫= f2) w1 w2.
Proof.
  intros Hf. unfold rel in *. rewrite !M_bind_eq. unfold lift.
  destruct r as [a|e]; [by apply Hf|done].
Qed.

End SideBySide.

Lemma rel_alloc a w1 w2 : same_outcome (alloc a) (alloc a) w1 w2.
Proof. exists a. simpl. split; by apply list_lookup_middle. Qed.

Lemma rel_ret l1 l2 w1 w2 :
  same_at w1 w2 l1 l2 -> same_outcome (mret l1) (mret l2) w1 w2.
Proof. done. Qed.

Lemma rel_lift_alloc (r : exc ndarray) w1 w2 :
  same_outcome (lift r ≫= alloc) (lift r ≫= alloc) w1 w2.
Proof. apply rel_bind_lift. intros a _. apply rel_alloc. Qed.

Lemma rel_store l1 l2 a w1 w2 :
  same_at w1 w2 l1 l2 -> rel (still_same l1 l2) (store l1 a) (store l2 a) w1 w2.
Proof.
  intros (r & H1 & H2). exists a. simpl.
  split; apply list_lookup_insert_eq; by eapply lookup_lt_Some.
Qed.

Lemma rel_for_each {A} (l : list A) (body1 body2 : A -> M unit) l1 l2 w1 w2 :
  (forall x w1 w2, same_at w1 w2 l1 l2 -> rel (still_same l1 l2) (body1 x) (body2 x) w1 w2) ->
  same_at w1 w2 l1 l2 ->
  rel (still_same l1 l2) (for_each l body1) (for_each l body2) w1 w2.
Proof.
  intros Hbody. revert w1 w2. induction l as [|x l IH]; intros w1 w2 Hat; [done|].
  simpl. eapply rel_bind; [by apply Hbody|].
  intros w1' w2' [] [] Hat'. by apply IH.
Qed.

Ltac rel_step :=
  lazymatch goal with
  | |- rel _ (let '(_, _) := ?x in _) (let '(_, _) := ?x in _) _ _ => destruct x
  | |- rel _ (if ?c then _ else _) (if ?c then _ else _) _ _ => destruct c
  | |- rel _ (load _ ≫= _) (load _ ≫= _) _ _ =>
      apply rel_bind_load; [eassumption | intros ? ? ?]
  | |- rel _ (lift ?r ≫= alloc) (lift ?r ≫= alloc) _ _ => apply rel_lift_alloc
  | |- rel _ (lift ?r ≫= _) (lift ?r ≫= _) _ _ => apply rel_bind_lift; intros ? ?
  | |- rel _ (alloc ?a ≫= _) (alloc ?a ≫= _) _ _ =>
      eapply rel_bind; [apply rel_alloc | intros ? ? ? ? ?]
  | |- rel _ ((if ?c then _ else _) ≫= _) ((if ?c then _ else _) ≫= _) _ _ =>
      eapply rel_bind; [destruct c | intros ? ? ? ? ?]
  | |- rel _ (alloc ?a) (alloc ?a) _ _ => apply rel_alloc
  | |- rel _ (store _ ?a) (store _ ?a) _ _ => apply rel_store; assumption
  | |- rel _ (mret _) (mret _) _ _ => apply rel_ret; assumption
  end.

Section EffectsSideBySide.
Context {K : Kernels}.
Implicit Types (img : loc) (frame_idx total_frames : Z).

Lemma warp_same img1 img2 Mx width height w1 w2 :
  same_at w1 w2 img1 img2 ->
  same_outcome (warp img1 Mx width height) (warp img2 Mx width height) w1 w2.
Proof. intros Hat. unfold same_outcome, warp. repeat rel_step. Qed.

Lemma ndarray_copy_same img1 img2 w1 w2 :
  same_at w1 w2 img1 img2 ->
  same_outcome (ndarray_copy img1) (ndarray_copy img2) w1 w2.
Proof. intros Hat. unfold same_outcome, ndarray_copy. repeat rel_step. Qed.

Ltac rel_effect :=
  unfold same_outcome;
  repeat first
    [ rel_step
    | apply warp_same; assumption
    | eapply rel_bind; [apply warp_same; assumption | intros ? ? ? ? ?]
    | eapply rel_bind; [apply ndarray_copy_same; assumption | intros ? ? ? ? ?] ].

Lemma apply_subtle_motion_same img1 img2 frame_idx total_frames w1 w2 :
  same_at w1 w2 img1 img2 ->
  same_outcome (apply_subtle_motion img1 frame_idx total_frames)
               (apply_subtle_motion img2 frame_idx total_frames) w1 w2.
Proof. intros Hat. unfold apply_subtle_motion. rel_effect. Qed.

Lemma apply_ken_burns_effect_same img1 img2 frame_idx total_frames w1 w2 :
  same_at w1 w2 img1 img2 ->
  same_outcome (apply_ken_burns_effect img1 frame_idx total_frames)
               (apply_ken_burns_effect img2 frame_idx total_frames) w1 w2.
Proof. intros Hat. unfold apply_ken_burns_effect. rel_effect. Qed.

Lemma apply_360_pan_effect_same img1 img2 frame_idx total_frames w1 w2 :
  same_at w1 w2 img1 img2 ->
  same_outcome (apply_360_pan_effect img1 frame_idx total_frames)
               (apply_360_pan_effect img2 frame_idx total_frames) w1 w2.
Proof. intros Hat. unfold apply_360_pan_effect. rel_effect. Qed.

Lemma apply_tilt_shift_effect_same img1 img2 frame_idx total_frames w1 w2 :
  same_at w1 w2 img1 img2 ->
  same_outcome (apply_tilt_shift_effect img1 frame_idx total_frames)
               (apply_tilt_shift_effect img2 frame_idx total_frames) w1 w2.
Proof. intros Hat. unfold apply_tilt_shift_effect. rel_effect. Qed.

Lemma apply_zoom_in_effect_same img1 img2 frame_idx total_frames w1 w2 :
  same_at w1 w2 img1 img2 ->
  same_outcome (apply_zoom_in_effect img1 frame_idx total_frames)
               (apply_zoom_in_effect img2 frame_idx total_frames) w1 w2.
Proof. intros Hat. unfold apply_zoom_in_effect. rel_effect. Qed.

Lemma apply_zoom_out_effect_same img1 img2 frame_idx total_frames w1 w2 :
  same_at w1 w2 img1 img2 ->
  same_outcome (apply_zoom_out_effect img1 frame_idx total_frames)
               (apply_zoom_out_effect img2 frame_idx total_frames) w1 w2.
Proof. intros Hat. unfold apply_zoom_out_effect. rel_effect. Qed.

Lemma apply_dolly_zoom_effect_same img1 img2 frame_idx total_frames w1 w2 :
  same_at w1 w2 img1 img2 ->
  same_outcome (apply_dolly_zoom_effect img1 frame_idx total_frames)
               (apply_dolly_zoom_effect img2 frame_idx total_frames) w1 w2.
Proof. intros Hat. unfold apply_dolly_zoom_effect. rel_effect. Qed.

Lemma apply_wave_effect_same img1 img2 frame_idx total_frames w1 w2 :
  same_at w1 w2 img1 img2 ->
  same_outcome (apply_wave_effect img1 frame_idx total_frames)
               (apply_wave_effect img2 frame_idx total_frames) w1 w2.
Proof. intros Hat. unfold apply_wave_effect. rel_effect. Qed.

Lemma apply_rotation_effect_same img1 img2 frame_idx total_frames w1 w2 :
  same_at w1 w2 img1 img2 ->
  same_outcome (apply_rotation_effect img1 frame_idx total_frames)
               (apply_rotation_effect img2 frame_idx total_frames) w1 w2.
Proof. intros Hat. unfold apply_rotation_effect. rel_effect. Qed.

Lemma apply_flip_effect_same img1 img2 frame_idx total_frames w1 w2 :
  same_at w1 w2 img1 img2 ->
  same_outcome (apply_flip_effect img1 frame_idx total_frames)
               (apply_flip_effect img2 frame_idx total_frames) w1 w2.
Proof. intros Hat. unfold apply_flip_effect. rel_effect. Qed.

Lemma apply_radial_blur_effect_same img1 img2 frame_idx total_frames w1 w2 :
  same_at w1 w2 img1 img2 ->
  same_outcome (apply_radial_blur_effect img1 frame_idx total_frames)
               (apply_radial_blur_effect img2 frame_idx total_frames) w1 w2.
Proof.
  intros Hat. unfold apply_radial_blur_effect. rel_effect.
  eapply rel_bind.
  - apply rel_for_each; [|eassumption].
    intros i w1'' w2'' Hat'. repeat rel_step.
  - intros w1'' w2'' [] [] Hat'. repeat rel_step.
Qed.

End EffectsSideBySide.

(** ** Segment Composer *)

(** X1: the segment boundaries computed in floating point partition
    [[0, total_frames)] for every frame count up to 1200 and every plan
    length (exhaustive evaluation). *)
Lemma boundaries_partition_upto_1200 total_frames n :
  1 <= total_frames <= 1200 -> 1 <= n <= 3 ->
  boundaries_partition total_frames n = true.
Proof.
  intros Ht Hn.
  assert (Hall : forallb (fun t => forallb (boundaries_partition t) (seqZ 1 3)) (seqZ 1 1200) = true)
    by (vm_compute; reflexivity).
  rewrite forallb_forall in Hall.
  specialize (Hall total_frames). rewrite forallb_forall in Hall.
  apply Hall.
  - apply list_elem_of_In, elem_of_seqZ. lia.
  - apply list_elem_of_In, elem_of_seqZ. lia.
Qed.

(** When [n] divides [total_frames] the assignment and the boundaries
    agree (checked up to 120 frames). *)
Lemma local_index_in_range_when_divisible total_frames n frame_idx :
  1 <= n <= 3 -> 1 <= total_frames <= 120 -> total_frames mod n = 0 ->
  0 <= frame_idx < total_frames ->
  local_index_in_range total_frames n frame_idx = true.
Proof.
  intros Hn Ht Hdiv Hi.
  assert (Hall : forallb (fun n => forallb (fun t =>
            if t mod n =? 0
            then forallb (local_index_in_range t n) (seqZ 0 t) else true)
            (seqZ 1 120)) (seqZ 1 3) = true)
    by (vm_compute; reflexivity).
  rewrite forallb_forall in Hall. specialize (Hall n).
  rewrite forallb_forall in Hall.
  assert (Hn' : In n (seqZ 1 3)) by (apply list_elem_of_In, elem_of_seqZ; lia).
  specialize (Hall Hn' total_frames).
  assert (Ht' : In total_frames (seqZ 1 120)) by (apply list_elem_of_In, elem_of_seqZ; lia).
  specialize (Hall Ht'). rewrite Hdiv in Hall. change (0 =? 0) with true in Hall. cbv iota in Hall.
  rewrite forallb_forall in Hall. apply Hall.
  apply list_elem_of_In, elem_of_seqZ. lia.
Qed.

(** C1 (stated for every [total_frames >= 1] and plan length 1 to 3: each
    frame's local index lies in [[0, localTotal)] with [localTotal >= 1]).
    The code breaks it as soon as the plan length does not divide the
    frame count.  With the default 5 s at 10 fps and three effects, frame
    16 is given to segment 0, whose range is [[0, 16)]: local index 16 of
    16 frames, and a progress of 16/15 > 1 handed to the effect; frame 33
    likewise in segment 1.  With fewer frames than effects a segment of
    zero frames is used. *)
Theorem assign_segment_escapes_its_range :
  assign_segment 50 3 16
    = Ok {| seg_index := 0; frame_in_segment := 16; frames_in_segment := 16 |}
  /\ assign_segment 50 3 33
    = Ok {| seg_index := 1; frame_in_segment := 17; frames_in_segment := 17 |}
  /\ (exists p, effect_progress 16 16 = Ok p /\ ltb (lit 1 1) p = true)
  /\ assign_segment 1 3 0
    = Ok {| seg_index := 0; frame_in_segment := 0; frames_in_segment := 0 |}
  /\ local_index_in_range 50 3 16 = false.
Proof.
  split; [vm_compute; reflexivity|].
  split; [vm_compute; reflexivity|].
  split; [eexists; split; vm_compute; reflexivity|].
  split; vm_compute; reflexivity.
Qed.

(** ** Motion Plan and quality preset *)

Section Plan.
Context {K : Kernels} {H : Host}.

Lemma effective_motion_types_eq (arg : motion_arg) :
  effective_motion_types arg
  = match filter recognized (normalize_motion_types arg) with
    | [] => ["none"%string]
    | plan => plan
    end.
Proof.
  unfold effective_motion_types.
  by destruct (filter recognized (normalize_motion_types arg)).
Qed.

Lemma effective_motion_types_filter (arg : motion_arg) :
  effective_motion_types arg = filter recognized (normalize_motion_types arg)
  \/ (filter recognized (normalize_motion_types arg) = []
      /\ effective_motion_types arg = ["none"%string]).
Proof.
  rewrite effective_motion_types_eq.
  destruct (filter _ (normalize_motion_types arg)); [right|left]; done.
Qed.

Lemma normalize_motion_types_length (arg : motion_arg) :
  (length (normalize_motion_types arg) <= 3)%nat.
Proof.
  destruct arg as [s|l]; simpl; [lia|]. rewrite length_take. lia.
Qed.

Lemma none_recognized : recognized "none".
Proof. reflexivity. Qed.

(** C5: the effective Motion Plan has at most three entries, all of them
    recognized identifiers, taken in order from the input (nothing
    recognized among the entries kept is lost, nothing is invented); it
    is [["none"]] when nothing remains; [["foo","zoom-in","bar"]] gives
    [["zoom-in"]], and five valid names give the first three. *)
Theorem effective_motion_types_plan (arg : motion_arg) :
  (length (effective_motion_types arg) <= 3)%nat
  /\ Forall recognized (effective_motion_types arg)
  /\ (effective_motion_types arg `sublist_of` normalize_motion_types arg
      \/ effective_motion_types arg = ["none"%string])
  /\ (forall mt, recognized mt -> mt ∈ normalize_motion_types arg ->
                 mt ∈ effective_motion_types arg)
  /\ (filter recognized (normalize_motion_types arg) = [] ->
      effective_motion_types arg = ["none"%string])
  /\ effective_motion_types (MSeq ["foo"; "zoom-in"; "bar"]%string) = ["zoom-in"%string]
  /\ (forall l, length l = 5%nat -> Forall recognized l ->
                effective_motion_types (MSeq l) = take 3 l).
Proof.
  assert (Hfive : forall l, length l = 5%nat -> Forall recognized l ->
                            effective_motion_types (MSeq l) = take 3 l).
  { intros l Hlen Hall. rewrite effective_motion_types_eq. simpl.
    assert (Hf : filter recognized (take 3 l) = take 3 l).
    { apply Forall_take with (n := 3%nat) in Hall.
      induction Hall as [|x l' Hx Hl IH]; [done|].
      rewrite filter_cons. destruct (decide (recognized x)); [|done]. by rewrite IH. }
    rewrite Hf. by destruct l. }
  assert (Hnone : filter recognized (normalize_motion_types arg) = [] ->
                  effective_motion_types arg = ["none"%string]).
  { intros Hnil. by rewrite effective_motion_types_eq, Hnil. }
  destruct (effective_motion_types_filter arg) as [Heq|[Hnil Heq]]; rewrite Heq.
  - split; [|split; [|split; [|split; [|split; [|split]]]]].
    + etrans; [apply length_filter|apply normalize_motion_types_length].
    + apply Forall_forall. intros mt Hmt. by apply list_elem_of_filter in Hmt as [? _].
    + left. apply sublist_filter.
    + intros mt Hrec Hin. by apply list_elem_of_filter.
    + intros Hn. rewrite <- Heq. by apply Hnone.
    + reflexivity.
    + exact Hfive.
  - split; [|split; [|split; [|split; [|split; [|split]]]]].
    + simpl. lia.
    + repeat constructor.
    + by right.
    + intros mt Hrec Hin. by apply (filter_nil_not_elem_of _ _ _ Hnil) in Hin.
    + done.
    + reflexivity.
    + exact Hfive.
Qed.

(** C10: the plan is cut to its first three entries before unrecognized
    identifiers are dropped, so a list whose first three entries are all
    unrecognized gives [["none"]] whatever follows them. *)
Theorem truncation_precedes_filtering (l : list string) :
  Forall (fun mt => ~ recognized mt) (take 3 l) ->
  effective_motion_types (MSeq l) = ["none"%string].
Proof.
  intros Hall. rewrite effective_motion_types_eq. simpl.
  assert (Hf : filter recognized (take 3 l) = []).
  { induction Hall as [|x l' Hx Hl IH]; [done|].
    rewrite filter_cons. by destruct (decide (recognized x)). }
  by rewrite Hf.
Qed.

Lemma effective_quality_unknown (quality : string) :
  quality ∉ preset_names -> effective_quality quality = "1080p"%string.
Proof.
  intros Hq. unfold effective_quality, dict_mem.
  rewrite bool_decide_eq_false_2; done.
Qed.

(** C8: a quality argument that is not one of the five preset names is
    replaced by ["1080p"]: the target resolution is 1920x1080, and the
    whole run is the run with ["1080p"], so it fails no more than that
    one does. *)
Theorem unknown_quality_falls_back_to_1080p (quality : string) :
  quality ∉ preset_names ->
  effective_quality quality = "1080p"%string
  /\ target_size_of (effective_quality quality) = Ok (1920, 1080)
  /\ forall input_dir output_dir motion_types video_duration fps progress_callback w,
       create_video_per_image_with_motion input_dir output_dir motion_types
         video_duration fps quality progress_callback w
       = create_video_per_image_with_motion input_dir output_dir motion_types
           video_duration fps "1080p" progress_callback w.
Proof.
  intros Hq. pose proof (effective_quality_unknown quality Hq) as Heq.
  split; [done|]. split; [by rewrite Heq|].
  intros. unfold create_video_per_image_with_motion. by rewrite Heq.
Qed.

End Plan.

(** ** Weakest preconditions *)

Section WP.
Context {A B : Type}.

Lemma wp_bind (m : M A) (f : A -> M B) w post :
  wp m w (fun w' r => match r with
                      | Ok a => wp (f a) w' post
                      | Raise e => post w' (Raise e)
                      end) ->
  wp (m ≫= f) w post.
Proof.
  unfold wp. rewrite M_bind_eq. by destruct (m w) as [w' [a|e]].
Qed.

Lemma wp_mono (m : M A) w (post post' : world -> exc A -> Prop) :
  wp m w post -> (forall w' r, post w' r -> post' w' r) -> wp m w post'.
Proof. unfold wp. auto. Qed.

Lemma wp_ret (a : A) w post : post w (Ok a) -> wp (mret a) w post.
Proof. done. Qed.

Lemma wp_lift (r : exc A) w post : post w r -> wp (lift r) w post.
Proof. done. Qed.

End WP.

Lemma wp_load l a w post :
  heap w !! l = Some a -> post w (Ok a) -> wp (load l) w post.
Proof. unfold wp, load. simpl. by intros ->. Qed.

Lemma wp_alloc a w post :
  post {| heap := heap w ++ [a]; trace := trace w; clock := clock w |} (Ok (length (heap w))) ->
  wp (alloc a) w post.
Proof. done. Qed.

Lemma wp_emit e w post :
  post {| heap := heap w; trace := trace w ++ [e]; clock := clock w |} (Ok tt) ->
  wp (emit e) w post.
Proof. done. Qed.

Lemma wp_tick w post :
  post {| heap := heap w; trace := trace w; clock := S (clock w) |} (Ok (clock w)) ->
  wp tick w post.
Proof. done. Qed.

Lemma wp_raise_if o w post :
  post w (match o with Some e => Raise e | None => Ok tt end) -> wp (raise_if o) w post.
Proof. done. Qed.

(** ** Effect Library: frame dimensions *)

Lemma broadcast_color_with_plane h w m w' :
  w ≠ 1%nat -> w ≠ 3%nat -> w' = w -> broadcast [h; w; 3%nat] [m; w'] = None.
Proof.
  intros H1 H3 ->. unfold broadcast. cbn.
  unfold broadcast_dim. repeat case_decide; try done; lia.
Qed.

Section TiltShift.
Context {K : Kernels}.

Lemma cv2_warpAffine_shape a Mx (h w : nat) c r :
  shape a = [h; w; c] -> c ≠ 1%nat ->
  cv2_warpAffine a Mx (Z.of_nat w, Z.of_nat h) = Ok r -> shape r = [h; w; c].
Proof.
  intros Hs Hc. unfold cv2_warpAffine, cv2_channels. rewrite Hs.
  repeat case_decide; try done. intros [= <-]. simpl.
  unfold cv2_shape. rewrite decide_False by done. by rewrite !Nat2Z.id.
Qed.

(** C6 (stated for every effect, every input frame and every local index
    in range: the output frame has the input's width and height).  The
    tilt-shift effect does not return a frame at all on a colour frame:
    it multiplies the warped [(h, w, 3)] image by a [(h, w)] mask, which
    NumPy refuses to broadcast unless [w] is 1 or 3.  Every preset
    resolution is rejected. *)
Theorem tilt_shift_rejects_colour_frames (h w : nat) img frame_idx total_frames wd a :
  heap wd !! img = Some a -> shape a = [h; w; 3%nat] -> w ≠ 1%nat -> w ≠ 3%nat ->
  is_ok (apply_tilt_shift_effect img frame_idx total_frames wd).2 = false.
Proof.
  intros Ha Hs H1 H3.
  change (wp (apply_tilt_shift_effect img frame_idx total_frames) wd
             (fun _ r => is_ok r = false)).
  unfold apply_tilt_shift_effect.
  apply wp_bind. eapply wp_load; [done|].
  apply wp_bind. apply wp_lift. unfold shape2. rewrite Hs.
  apply wp_bind. apply wp_lift. destruct (effect_progress _ _) as [progress|]; [|done].
  apply wp_bind. unfold warp.
  apply wp_bind. eapply wp_load; [done|].
  apply wp_bind. apply wp_lift.
  destruct (cv2_warpAffine _ _ _) as [t|] eqn:Hwarp; [|done].
  apply cv2_warpAffine_shape with (h := h) (w := w) (c := 3%nat) in Hwarp; [|done..].
  apply wp_alloc.
  apply wp_bind. eapply wp_load; [by apply list_lookup_middle|].
  apply wp_bind. apply wp_lift. destruct (cv2_GaussianBlur t) as [blurred|]; [|done].
  apply wp_bind. apply wp_lift. destruct (tilt_shift_mask _) as [mask|]; [|done].
  apply wp_bind. apply wp_lift. unfold np_mul, np_binop, np_tile_columns.
  cbn [shape]. rewrite Hwarp.
  rewrite broadcast_color_with_plane; [done..|]. by rewrite Nat2Z.id.
Qed.

End TiltShift.

(** ** Frame Synthesizer *)

Lemma new_events_app w w' evs : trace w' = trace w ++ evs -> new_events w w' = evs.
Proof. intros He. unfold new_events. by rewrite He, drop_app_length. Qed.

Lemma keeps_new_events n P w w' :
  keeps n P w w' -> trace w' = trace w ++ new_events w w' /\ Forall P (new_events w w').
Proof.
  intros (_ & _ & evs & He & Hp). by rewrite (new_events_app _ _ _ He).
Qed.

Section FrameSynthesizer.
Context {K : Kernels} {H : Host}.
Implicit Types (img frame : loc) (motion_types : list string).

Lemma dict_get_Forall {V} (Q : string * V -> Prop) (d : list (string * V)) key v :
  Forall Q d -> dict_get d key = Some v -> exists k, Q (k, v).
Proof.
  induction 1 as [|[k v'] d HQ _ IH]; [done|]. simpl.
  case_decide; [intros [= <-]; eauto|done].
Qed.

Lemma motion_functions_safe mt f :
  dict_get motion_functions mt = Some (Some f) -> effect_safe f.
Proof.
  intros Hget.
  eapply (dict_get_Forall (fun kv => match kv.2 with Some f => effect_safe f | None => True end))
    in Hget as [k Hk]; [exact Hk|].
  unfold motion_functions, effect_safe.
  repeat (apply List.Forall_cons; [cbn [snd]; intros|]); [..|done|apply List.Forall_nil].
  - apply safe_apply_subtle_motion.
  - apply safe_apply_ken_burns_effect.
  - apply safe_apply_360_pan_effect.
  - apply safe_apply_tilt_shift_effect.
  - apply safe_apply_zoom_in_effect.
  - apply safe_apply_zoom_out_effect.
  - apply safe_apply_dolly_zoom_effect.
  - apply safe_apply_wave_effect.
  - apply safe_apply_radial_blur_effect.
  - apply safe_apply_rotation_effect.
  - apply safe_apply_flip_effect.
Qed.

Lemma motion_functions_same mt f :
  dict_get motion_functions mt = Some (Some f) -> effect_same f.
Proof.
  intros Hget.
  eapply (dict_get_Forall (fun kv => match kv.2 with Some f => effect_same f | None => True end))
    in Hget as [k Hk]; [exact Hk|].
  unfold motion_functions, effect_same.
  repeat (apply List.Forall_cons; [cbn [snd]; intros|]); [..|done|apply List.Forall_nil].
  - by apply apply_subtle_motion_same.
  - by apply apply_ken_burns_effect_same.
  - by apply apply_360_pan_effect_same.
  - by apply apply_tilt_shift_effect_same.
  - by apply apply_zoom_in_effect_same.
  - by apply apply_zoom_out_effect_same.
  - by apply apply_dolly_zoom_effect_same.
  - by apply apply_wave_effect_same.
  - by apply apply_radial_blur_effect_same.
  - by apply apply_rotation_effect_same.
  - by apply apply_flip_effect_same.
Qed.

Lemma safe_ensure_bgr n P frame :
  safe n P (ensure_bgr frame) (fun _ => True).
Proof.
  unfold ensure_bgr. eapply safe_bind; [apply safe_load|]. intros a _.
  destruct (shape a) as [|? [|? [|? ?]]]; repeat safe_step.
Qed.

Lemma ensure_bgr_same frame1 frame2 w1 w2 :
  same_at w1 w2 frame1 frame2 ->
  same_outcome (ensure_bgr frame1) (ensure_bgr frame2) w1 w2.
Proof.
  intros Hat. unfold same_outcome, ensure_bgr.
  apply rel_bind_load; [done|]. intros a H1 H2.
  destruct (shape a) as [|? [|? [|? ?]]]; try done; repeat rel_step.
Qed.

Lemma safe_synthesize_frame n P img motion_types total_frames frame_idx :
  safe n P (synthesize_frame img motion_types total_frames frame_idx) (fun _ => True).
Proof.
  unfold synthesize_frame.
  eapply safe_bind; [apply safe_ndarray_copy|]. intros frame Hframe.
  eapply safe_bind; [apply safe_lift|]. intros s _.
  eapply safe_bind; [apply safe_lift|]. intros mt _.
  eapply safe_bind with (Q := fun _ => True); [|intros; apply safe_ensure_bgr].
  destruct (dict_get motion_functions mt) as [[f|]|] eqn:Hf.
  - eapply safe_bind; [apply safe_lift|]. intros a _.
    eapply safe_bind; [apply safe_lift|]. intros b _.
    eapply safe_weaken; [by eapply (motion_functions_safe mt f Hf)|done].
  - eapply safe_weaken; [apply safe_ret|done].
  - eapply safe_weaken; [apply safe_ret|done].
Qed.

Lemma synthesize_frame_same img1 img2 motion_types total_frames frame_idx w1 w2 :
  same_at w1 w2 img1 img2 ->
  same_outcome (synthesize_frame img1 motion_types total_frames frame_idx)
               (synthesize_frame img2 motion_types total_frames frame_idx) w1 w2.
Proof.
  intros Hat. unfold same_outcome, synthesize_frame.
  eapply rel_bind; [by apply ndarray_copy_same|]. intros w1' w2' frame1 frame2 Hf.
  apply rel_bind_lift. intros s _.
  apply rel_bind_lift. intros mt _.
  eapply (rel_bind same_cell); [|intros; by apply ensure_bgr_same].
  destruct (dict_get motion_functions mt) as [[f|]|] eqn:Hmt.
  - apply rel_bind_lift. intros a _. apply rel_bind_lift. intros b _.
    by eapply (motion_functions_same mt f Hmt).
  - by apply rel_ret.
  - by apply rel_ret.
Qed.

Lemma safe_write_frame n output_path img motion_types total_frames frame_idx :
  safe n (is_write output_path)
       (write_frame output_path img motion_types total_frames frame_idx) (fun _ => True).
Proof.
  unfold write_frame.
  eapply safe_bind; [apply safe_synthesize_frame|]. intros frame _.
  eapply safe_bind; [apply safe_load|]. intros a _.
  eapply safe_bind; [apply safe_raise_if|]. intros _ _.
  apply safe_emit. by eexists.
Qed.

Lemma safe_frame_loop n output_path img motion_types total_frames idxs :
  safe n (is_write output_path)
       (for_each idxs (write_frame output_path img motion_types total_frames))
       (fun _ => True).
Proof. apply safe_for_each. intros i _. apply safe_write_frame. Qed.

(** Two runs of one iteration on sources holding the same array raise
    the same exception or write the same frame. *)
Lemma write_frame_same output_path img1 img2 motion_types total_frames frame_idx w1 w2 :
  same_at w1 w2 img1 img2 ->
  (write_frame output_path img1 motion_types total_frames frame_idx w1).2
  = (write_frame output_path img2 motion_types total_frames frame_idx w2).2
  /\ new_events w1 (write_frame output_path img1 motion_types total_frames frame_idx w1).1
     = new_events w2 (write_frame output_path img2 motion_types total_frames frame_idx w2).1.
Proof.
  intros Hat.
  pose proof (synthesize_frame_same _ _ motion_types total_frames frame_idx _ _ Hat) as Hrel.
  pose proof (safe_synthesize_frame 0 no_event img1 motion_types total_frames frame_idx w1
                ltac:(lia)) as [Hk1 _].
  pose proof (safe_synthesize_frame 0 no_event img2 motion_types total_frames frame_idx w2
                ltac:(lia)) as [Hk2 _].
  apply keeps_no_event in Hk1, Hk2.
  unfold write_frame. rewrite !M_bind_eq.
  unfold same_outcome, rel, same_cell in Hrel.
  destruct (synthesize_frame img1 _ _ _ w1) as [w1' [l1|e1]],
           (synthesize_frame img2 _ _ _ w2) as [w2' [l2|e2]];
    simpl in Hrel, Hk1, Hk2; try done.
  - destruct Hrel as (a & Ha1 & Ha2).
    rewrite !M_bind_eq. unfold load. rewrite Ha1, Ha2.
    rewrite !M_bind_eq. unfold raise_if.
    destruct (VideoWriter_write output_path frame_idx) as [e|]; simpl.
    + split; [done|]. unfold new_events. by rewrite Hk1, Hk2, !drop_all.
    + split; [done|]. unfold new_events. simpl.
      by rewrite Hk1, Hk2, !drop_app_length.
  - subst e2. simpl. split; [done|]. unfold new_events. by rewrite Hk1, Hk2, !drop_all.
Qed.

End FrameSynthesizer.

Section FrameLoop.
Context {K : Kernels} {H : Host}.
Implicit Types (img : loc) (motion_types : list string).

Lemma frame_loop_keeps_cells output_path img motion_types total_frames idxs w l a :
  heap w !! l = Some a ->
  heap (for_each idxs (write_frame output_path img motion_types total_frames) w).1 !! l
  = Some a.
Proof.
  intros Hl.
  destruct (safe_frame_loop (S l) output_path img motion_types total_frames idxs w) as [Hk _].
  { apply lookup_lt_Some in Hl. lia. }
  eapply keeps_lookup; [exact Hk|lia|done].
Qed.

Lemma frame_loop_events output_path img motion_types total_frames src w0 idxs w :
  heap w0 !! img = Some src -> heap w !! img = Some src ->
  is_ok (for_each idxs (write_frame output_path img motion_types total_frames) w).2 = true ->
  new_events w (for_each idxs (write_frame output_path img motion_types total_frames) w).1
  = idxs ≫= fun i =>
      new_events w0 (write_frame output_path img motion_types total_frames i w0).1.
Proof.
  intros H0. revert w. induction idxs as [|i idxs IH]; intros w Hw Hok.
  - simpl. unfold new_events. by rewrite drop_all.
  - cbn [for_each] in *. rewrite M_bind_eq in *. rewrite bind_cons.
    destruct (write_frame_same output_path img img motion_types total_frames i w w0)
      as [_ Hev]; [by exists src|].
    destruct (safe_write_frame (S img) output_path img motion_types total_frames i w)
      as [Hk _]; [apply lookup_lt_Some in Hw; lia|].
    destruct (write_frame output_path img motion_types total_frames i w) as [w1 [[]|e]];
      cbn [fst snd] in *; [|done].
    assert (Hw1 : heap w1 !! img = Some src) by (eapply keeps_lookup; [exact Hk|lia|done]).
    specialize (IH w1 Hw1 Hok).
    destruct (safe_frame_loop 0 output_path img motion_types total_frames idxs w1)
      as [Hk' _]; [lia|].
    apply keeps_new_events in Hk as [Ht1 _]. apply keeps_new_events in Hk' as [Ht2 _].
    rewrite <- Hev, <- IH. apply new_events_app. by rewrite Ht2, Ht1 at 1; rewrite app_assoc.
Qed.

Lemma safe_ensure_bgr_fresh n m P frame :
  (m <= frame)%nat -> (m <= n)%nat ->
  safe n P (ensure_bgr frame) (fun l' => (m <= l')%nat).
Proof.
  intros Hm Hn. unfold ensure_bgr. eapply safe_bind; [apply safe_load|]. intros a _.
  destruct (shape a) as [|? [|? [|? ?]]]; repeat safe_step; cbv beta in *; lia.
Qed.

(** An iteration first copies the source into a new cell, which it never
    changes afterwards, and the frame it makes lives in a new cell. *)
Lemma synthesize_frame_copies img motion_types total_frames frame_idx w src :
  heap w !! img = Some src ->
  heap (synthesize_frame img motion_types total_frames frame_idx w).1 !! length (heap w)
  = Some src
  /\ forall frame,
       (synthesize_frame img motion_types total_frames frame_idx w).2 = Ok frame ->
       (length (heap w) <= frame)%nat.
Proof.
  intros Hsrc.
  set (w1 := {| heap := heap w ++ [src]; trace := trace w; clock := clock w |}).
  assert (Hcopy : ndarray_copy img w = (w1, Ok (length (heap w)))).
  { unfold ndarray_copy. rewrite M_bind_eq. unfold load. by rewrite Hsrc. }
  unfold synthesize_frame. rewrite M_bind_eq, Hcopy.
  match goal with
  | |- heap (?m w1).1 !! _ = _ /\ _ =>
      assert (Hs : forall n m0, (m0 <= n)%nat -> (m0 <= length (heap w))%nat ->
                     safe n no_event m (fun l' => (m0 <= l')%nat))
  end.
  { intros n m0 Hn Hm.
    eapply safe_bind; [apply safe_lift|]. intros s _.
    eapply safe_bind; [apply safe_lift|]. intros mt _.
    eapply safe_bind with (Q := fun l' => (m0 <= l')%nat);
      [|intros frame Hframe; by apply safe_ensure_bgr_fresh].
    destruct (dict_get motion_functions mt) as [[f|]|] eqn:Hf.
    - eapply safe_bind; [apply safe_lift|]. intros a _.
      eapply safe_bind; [apply safe_lift|]. intros b _.
      eapply safe_weaken; [by eapply (motion_functions_safe mt f Hf)|].
      intros l' Hl'. simpl in Hl'. lia.
    - eapply safe_weaken; [apply safe_ret|]. intros l' <-. lia.
    - eapply safe_weaken; [apply safe_ret|]. intros l' <-. lia. }
  assert (Hlen : length (heap w1) = S (length (heap w)))
    by (cbn [heap w1]; rewrite length_app; simpl; lia).
  split.
  - destruct (Hs (S (length (heap w))) 0%nat ltac:(lia) ltac:(lia) w1 ltac:(lia)) as [Hk _].
    eapply keeps_lookup; [exact Hk|lia|]. by apply list_lookup_middle.
  - intros frame Hframe.
    destruct (Hs (length (heap w)) (length (heap w)) ltac:(lia) ltac:(lia) w1 ltac:(lia))
      as [_ HQ].
    by apply HQ.
Qed.

(** The frame an iteration hands to the encoder is the content of the
    cell its synthesis returned. *)
Lemma write_frame_writes_synthesized output_path img motion_types total_frames frame_idx
    w f :
  EvWrite output_path f
  ∈ new_events w (write_frame output_path img motion_types total_frames frame_idx w).1 ->
  exists frame a,
    (synthesize_frame img motion_types total_frames frame_idx w).2 = Ok frame
    /\ heap (synthesize_frame img motion_types total_frames frame_idx w).1 !! frame = Some a
    /\ f = astype_uint8 a.
Proof.
  pose proof (safe_synthesize_frame 0 no_event img motion_types total_frames frame_idx w
                ltac:(lia)) as [Hk _].
  apply keeps_no_event in Hk.
  unfold write_frame. rewrite M_bind_eq.
  destruct (synthesize_frame _ _ _ _ w) as [w1 [frame|e]]; cbn [fst snd] in *.
  2:{ unfold new_events. rewrite Hk, drop_all. by intros ?%elem_of_nil. }
  rewrite M_bind_eq. unfold load. destruct (heap w1 !! frame) as [a|] eqn:Ha.
  2:{ unfold new_events. cbn [fst]. rewrite Hk, drop_all. by intros ?%elem_of_nil. }
  rewrite M_bind_eq. unfold raise_if.
  destruct (VideoWriter_write output_path frame_idx).
  - unfold new_events. cbn [fst]. rewrite Hk, drop_all. by intros ?%elem_of_nil.
  - unfold new_events. cbn [fst emit trace]. rewrite Hk, drop_app_length.
    intros Hin%list_elem_of_singleton. injection Hin as ->. by exists frame, a.
Qed.

(** C9: the per-frame loop never changes the resized source buffer (nor
    any cell that existed before it).  Each iteration, in whatever world
    it runs, copies the source into a new cell that it leaves as it is,
    changes no cell that existed before, and makes its frame in a new
    cell, never in the cell of the source; the frame it hands to the
    encoder is the content of that new cell.  An iteration's outcome and
    the frame it writes depend on the content of the source only; so the
    frames of a completed loop are those its iterations write when run
    alone, each from the initial world. *)
Theorem frame_loop_leaves_source_untouched output_path img motion_types total_frames
    idxs w src :
  heap w !! img = Some src ->
  (forall l a, heap w !! l = Some a ->
     heap (for_each idxs (write_frame output_path img motion_types total_frames) w).1 !! l
     = Some a)
  /\ (forall frame_idx w2 img2, heap w2 !! img2 = Some src ->
        heap (synthesize_frame img2 motion_types total_frames frame_idx w2).1
          !! length (heap w2) = Some src
        /\ (forall l a, heap w2 !! l = Some a ->
              heap (synthesize_frame img2 motion_types total_frames frame_idx w2).1 !! l
              = Some a)
        /\ (forall frame,
              (synthesize_frame img2 motion_types total_frames frame_idx w2).2 = Ok frame ->
              (length (heap w2) <= frame)%nat /\ frame ≠ img2)
        /\ (forall f,
              EvWrite output_path f
              ∈ new_events w2
                  (write_frame output_path img2 motion_types total_frames frame_idx w2).1 ->
              exists frame a,
                (synthesize_frame img2 motion_types total_frames frame_idx w2).2 = Ok frame
                /\ heap (synthesize_frame img2 motion_types total_frames frame_idx w2).1
                     !! frame = Some a
                /\ f = astype_uint8 a))
  /\ (forall frame_idx w2 img2, heap w2 !! img2 = Some src ->
        (write_frame output_path img2 motion_types total_frames frame_idx w2).2
        = (write_frame output_path img motion_types total_frames frame_idx w).2
        /\ new_events w2 (write_frame output_path img2 motion_types total_frames frame_idx w2).1
           = new_events w (write_frame output_path img motion_types total_frames frame_idx w).1)
  /\ (is_ok (for_each idxs (write_frame output_path img motion_types total_frames) w).2 = true ->
      new_events w (for_each idxs (write_frame output_path img motion_types total_frames) w).1
      = idxs ≫= fun i =>
          new_events w (write_frame output_path img motion_types total_frames i w).1).
Proof.
  intros Hsrc. split; [|split; [|split]].
  - intros l a Hl. by apply frame_loop_keeps_cells.
  - intros frame_idx w2 img2 H2.
    destruct (synthesize_frame_copies img2 motion_types total_frames frame_idx w2 src H2)
      as [Hcopy Hfresh].
    split; [done|]. split; [|split].
    + intros l a Hl.
      destruct (safe_synthesize_frame (S l) no_event img2 motion_types total_frames
                  frame_idx w2) as [Hk _]; [apply lookup_lt_Some in Hl; lia|].
      eapply keeps_lookup; [exact Hk|lia|done].
    + intros frame Hframe. specialize (Hfresh frame Hframe).
      apply lookup_lt_Some in H2. split; [done|lia].
    + apply write_frame_writes_synthesized.
  - intros frame_idx w2 img2 H2. apply write_frame_same. by exists src.
  - intros Hok. by eapply frame_loop_events.
Qed.

End FrameLoop.

(** ** Video Assembly Driver and Batch Coordinator *)

Lemma progress_calls_app evs1 evs2 :
  progress_calls (evs1 ++ evs2) = progress_calls evs1 ++ progress_calls evs2.
Proof. apply omap_app. Qed.

Lemma progress_calls_writes path evs :
  Forall (is_write path) evs -> progress_calls evs = [].
Proof.
  induction 1 as [|e evs [f ->] _ IH]; [done|]. exact IH.
Qed.

Lemma is_bgr8_normal a : is_bgr8 a -> to_bgr a = Ok a /\ astype_uint8 a = a.
Proof.
  intros [(h & w & Hs) (l & Hd & Hl)]. split.
  - unfold to_bgr. rewrite Hs. by rewrite decide_False.
  - destruct a as [s d]. simpl in *. subst. unfold astype_uint8. simpl. f_equal. f_equal.
    induction Hl as [|z l Hz _ IH]; [done|].
    rewrite fmap_cons, IH. f_equal. by apply Z.mod_small.
Qed.

Section Batch.
Context {K : Kernels} {H : Host}.
Implicit Types (img : loc) (motion_types : list string) (w : world).

Lemma decode_image_spec img_path w :
  match decoded img_path with
  | Ok (Some a) =>
      decode_image img_path w
      = ({| heap := heap w ++ [a]; trace := trace w; clock := clock w |},
         Ok (Some (length (heap w))))
  | Ok None =>
      exists msg,
        decode_image img_path w
        = ({| heap := heap w; trace := trace w ++ [EvPrint msg]; clock := clock w |}, Ok None)
  | Raise e => decode_image img_path w = (w, Raise e)
  end.
Proof.
  unfold decoded, decode_image, read_image_with_fallback.
  destruct (cv2_imread img_path) as [img|].
  - destruct (is_bgra img).
    + rewrite !M_bind_eq. unfold lift.
      destruct (cvtColor_BGRA2BGR img) as [a|e]; [|done]. rewrite !M_bind_eq. done.
    + rewrite !M_bind_eq. done.
  - destruct PIL_AVAILABLE eqn:Hpil.
    + unfold read_with_pillow.
      destruct (arr ← PIL_open_RGB img_path; cvtColor_RGB2BGR arr) as [a|e] eqn:Hp.
      * rewrite !M_bind_eq. done.
      * rewrite !M_bind_eq. cbn. eexists. rewrite !M_bind_eq. done.
    + rewrite !M_bind_eq. cbn. eexists. rewrite !M_bind_eq. done.
Qed.

(** A failed write makes its iteration, hence the loop, raise. *)
Lemma write_frame_fails output_path img motion_types total_frames j w :
  VideoWriter_write output_path j ≠ None ->
  is_ok (write_frame output_path img motion_types total_frames j w).2 = false.
Proof.
  intros Hj. unfold write_frame. rewrite M_bind_eq.
  destruct (synthesize_frame _ _ _ _ w) as [w1 [frame|e]]; [|done].
  rewrite M_bind_eq. destruct (load frame w1) as [w2 [a|e]]; [|done].
  rewrite M_bind_eq. unfold raise_if.
  by destruct (VideoWriter_write output_path j).
Qed.

Lemma frame_loop_ok output_path img motion_types total_frames idxs w :
  is_ok (for_each idxs (write_frame output_path img motion_types total_frames) w).2 = true ->
  Forall (fun j => VideoWriter_write output_path j = None) idxs.
Proof.
  revert w. induction idxs as [|j idxs IH]; intros w Hok; [done|].
  cbn [for_each] in Hok. rewrite M_bind_eq in Hok.
  destruct (VideoWriter_write output_path j) as [e|] eqn:Hj.
  - pose proof (write_frame_fails output_path img motion_types total_frames j w) as Hf.
    rewrite Hj in Hf. specialize (Hf ltac:(done)).
    by destruct (write_frame _ _ _ _ j w) as [w1 [[]|e']].
  - constructor; [done|].
    destruct (write_frame _ _ _ _ j w) as [w1 [[]|e']]; [by eapply IH|done].
Qed.

End Batch.

Ltac events_done :=
  unfold new_events; cbn [trace]; rewrite ?drop_all, ?drop_app_length; auto.

Section Driver.
Context {K : Kernels} {H : Host}.
Implicit Types (img : loc) (motion_types : list string) (w : world).

Lemma list_index_elem {A} (l : list A) i x : list_index l i = Ok x -> x ∈ l.
Proof.
  unfold list_index. case_match; [|done].
  destruct (l !! _) eqn:Hl; [|done]. intros [= <-]. by eapply list_elem_of_lookup_2.
Qed.

Lemma ensure_bgr_spec frame a w :
  heap w !! frame = Some a ->
  match to_bgr a with
  | Ok v => exists w' l, ensure_bgr frame w = (w', Ok l) /\ heap w' !! l = Some v
                         /\ trace w' = trace w
  | Raise e => ensure_bgr frame w = (w, Raise e)
  end.
Proof.
  intros Ha. unfold ensure_bgr, to_bgr. rewrite M_bind_eq. unfold load. rewrite Ha.
  destruct (shape a) as [|h [|wd [|c rest]]]; try done.
  - rewrite M_bind_eq. unfold lift. destruct (cvtColor_GRAY2BGR a) as [v|e]; [|done].
    eexists _, _. split; [reflexivity|]. split; [by apply list_lookup_middle|done].
  - destruct (decide (c = 4%nat)) as [Hc|Hc].
    + rewrite M_bind_eq. unfold lift. destruct (cvtColor_BGRA2BGR a) as [v|e]; [|done].
      eexists _, _. split; [reflexivity|]. split; [by apply list_lookup_middle|done].
    + by eexists _, _.
Qed.

(** With the plan [["none"]] an iteration writes the normalised source
    or nothing. *)
Lemma write_frame_none output_path img total_frames frame_idx r w :
  heap w !! img = Some r ->
  Forall (fun e => exists v, to_bgr r = Ok v /\ e = EvWrite output_path (astype_uint8 v))
    (new_events w (write_frame output_path img ["none"%string] total_frames frame_idx w).1).
Proof.
  intros Hr. unfold write_frame, synthesize_frame, ndarray_copy.
  rewrite !M_bind_eq. unfold load at 1. rewrite Hr. cbn [alloc fst snd].
  rewrite !M_bind_eq. unfold lift at 1.
  destruct (current_segment _ _ _) as [s|e]; [|events_done].
  rewrite !M_bind_eq. unfold lift at 1.
  destruct (list_index _ s) as [mt|e] eqn:Hmt; [|events_done].
  apply list_index_elem, list_elem_of_singleton in Hmt as ->.
  change (dict_get motion_functions "none") with (Some (@None (loc -> Z -> Z -> M loc))).
  rewrite !M_bind_eq. cbn [mret M_ret].
  set (w1 := {| heap := heap w ++ [r]; trace := trace w; clock := clock w |}).
  pose proof (ensure_bgr_spec (length (heap w)) r w1) as Hspec.
  specialize (Hspec ltac:(by apply list_lookup_middle)).
  destruct (to_bgr r) as [v|e].
  - destruct Hspec as (w2 & l & -> & Hl & Ht). rewrite M_bind_eq. unfold load. rewrite Hl.
    rewrite !M_bind_eq. unfold raise_if.
    destruct (VideoWriter_write output_path frame_idx).
    + unfold new_events. cbn [fst]. rewrite Ht. cbn [trace w1]. by rewrite drop_all.
    + unfold new_events. cbn [fst emit trace]. rewrite Ht. cbn [trace w1].
      rewrite drop_app_length. constructor; [by eexists|done].
  - rewrite Hspec. events_done.
Qed.

Lemma frame_loop_writes (Pw : event -> Prop) output_path img motion_types total_frames r :
  (forall i w, heap w !! img = Some r ->
     Forall Pw (new_events w (write_frame output_path img motion_types total_frames i w).1)) ->
  forall idxs w, heap w !! img = Some r ->
    Forall Pw (new_events w
      (for_each idxs (write_frame output_path img motion_types total_frames) w).1).
Proof.
  intros Hbody. induction idxs as [|i idxs IH]; intros w Hr.
  - events_done.
  - cbn [for_each]. rewrite M_bind_eq.
    specialize (Hbody i w Hr).
    destruct (safe_write_frame (S img) output_path img motion_types total_frames i w)
      as [Hk _]; [apply lookup_lt_Some in Hr; lia|].
    destruct (write_frame output_path img motion_types total_frames i w) as [w1 [[]|e]];
      cbn [fst snd] in *; [|done].
    assert (Hr1 : heap w1 !! img = Some r) by (eapply keeps_lookup; [exact Hk|lia|done]).
    specialize (IH w1 Hr1).
    destruct (safe_frame_loop 0 output_path img motion_types total_frames idxs w1)
      as [Hk' _]; [lia|].
    apply keeps_new_events in Hk as [Ht1 _]. apply keeps_new_events in Hk' as [Ht2 _].
    rewrite (new_events_app w _ (new_events w w1 ++ new_events w1
      (for_each idxs (write_frame output_path img motion_types total_frames) w1).1)).
    + by apply Forall_app.
    + by rewrite Ht2, Ht1 at 1; rewrite app_assoc.
Qed.

End Driver.

Section ProcessImage.
Context {K : Kernels} {H : Host}.
Implicit Types (img : loc) (motion_types : list string) (w : world).

Lemma frame_loop_wp (Pw : event -> Prop) output_path img motion_types total_frames r idxs w :
  heap w !! img = Some r ->
  (forall i w, heap w !! img = Some r ->
     Forall Pw (new_events w (write_frame output_path img motion_types total_frames i w).1)) ->
  wp (for_each idxs (write_frame output_path img motion_types total_frames)) w
     (fun w' res =>
        exists writes, trace w' = trace w ++ writes
          /\ Forall (is_write output_path) writes /\ Forall Pw writes
          /\ (is_ok res = true ->
              Forall (fun j => VideoWriter_write output_path j = None) idxs)).
Proof.
  intros Hr HPw. unfold wp.
  destruct (safe_frame_loop 0 output_path img motion_types total_frames idxs w) as [Hk _];
    [lia|].
  apply keeps_new_events in Hk as [Ht Hw].
  eexists. split; [exact Ht|]. split; [done|]. split.
  - by eapply frame_loop_writes.
  - apply frame_loop_ok.
Qed.

Lemma written_by_other path a target_size Pw e :
  (forall p f, e ≠ EvWrite p f) -> written_by path a target_size Pw e.
Proof. intros Hne p f ->. by destruct (Hne p f). Qed.

Lemma written_by_writes path a target_size (Pw : ndarray -> event -> Prop) r writes :
  cv2_resize a target_size = Ok r ->
  Forall (is_write path) writes -> Forall (Pw r) writes ->
  Forall (written_by path a target_size Pw) writes.
Proof.
  intros Hr Hw HP. induction Hw as [|e writes [f ->] _ IH]; [done|].
  inversion_clear HP as [|?? He Hrest]. constructor; [|by apply IH].
  intros p f' [= <- <-]. split; [done|]. by exists r.
Qed.

Ltac trace_split :=
  cbn [trace];
  repeat match goal with Ht : trace _ = _ |- _ => rewrite Ht; clear Ht end;
  cbn [trace]; rewrite <- ?app_assoc;
  first [ reflexivity | by rewrite app_nil_r ].

Ltac written_events :=
  repeat first
    [ apply Forall_nil_2
    | apply Forall_app; split
    | apply Forall_cons; split
    | by apply written_by_other
    | by eapply written_by_writes ].

Lemma process_image_decoded (Pw : ndarray -> event -> Prop) output_dir motion_types
    video_duration fps quality target_size total_images total_frames progress_callback
    img_idx img_path a w :
  let path := output_path_of output_dir img_path motion_types quality in
  decoded img_path = Ok (Some a) ->
  (forall r img i w', cv2_resize a target_size = Ok r -> heap w' !! img = Some r ->
     Forall (Pw r) (new_events w' (write_frame path img motion_types total_frames i w').1)) ->
  wp (process_image output_dir motion_types video_duration fps quality target_size
        total_images total_frames progress_callback img_idx img_path) w
     (fun w' res =>
        exists evs, trace w' = trace w ++ evs
          /\ Forall (written_by path a target_size Pw) evs
          /\ match res with
             | Ok None => False
             | Ok (Some v) =>
                 VideoWriter_open path = None
                 /\ Forall (fun j => VideoWriter_write path j = None) (range total_frames)
                 /\ VideoWriter_release path = None
                 /\ is_ok (os_path_getsize path) = true
                 /\ progress_calls evs
                    = match progress_callback with
                      | Some _ => [(img_idx + 1, total_images)]
                      | None => []
                      end
             | Raise _ => True
             end).
Proof.
  intros path Hdec HPw. unfold process_image. fold path.
  apply wp_bind. unfold wp at 1.
  pose proof (decode_image_spec img_path w) as Hd. rewrite Hdec in Hd. rewrite Hd.
  cbn [fst snd].
  apply wp_bind. eapply wp_load; [by apply list_lookup_middle|].
  apply wp_bind. apply wp_lift.
  destruct (cv2_resize a target_size) as [r|e] eqn:Hr;
    [|exists []; split; [trace_split|split; [written_events|done]]].
  apply wp_bind. apply wp_alloc.
  apply wp_bind. apply wp_raise_if.
  destruct (VideoWriter_open path) as [e|] eqn:Hopen;
    [exists []; split; [trace_split|split; [written_events|done]]|].
  apply wp_bind. apply wp_emit.
  apply wp_bind. eapply wp_mono.
  { eapply (frame_loop_wp (Pw r)); [by apply list_lookup_middle|].
    intros i w' Hw'. by eapply HPw. }
  intros w4 res (writes & Ht4 & Hw & HP & Hok). cbn [trace] in Ht4.
  destruct res as [[]|e];
    [|eexists; split; [trace_split|split; [written_events|done]]].
  specialize (Hok eq_refl).
  apply wp_bind. apply wp_raise_if.
  destruct (VideoWriter_release path) as [e|] eqn:Hrel;
    [eexists; split; [trace_split|split; [written_events|done]]|].
  apply wp_bind. apply wp_emit.
  apply wp_bind. apply wp_lift.
  destruct (os_path_getsize path) as [size|e] eqn:Hsize;
    [|eexists; split; [trace_split|split; [written_events|done]]].
  apply wp_bind. apply wp_lift.
  destruct (int_truediv size _) as [file_size|e];
    [|eexists; split; [trace_split|split; [written_events|done]]].
  apply wp_bind. apply wp_tick.
  apply wp_bind.
  destruct progress_callback as [cb|].
  - apply wp_bind. apply wp_emit. apply wp_raise_if.
    destruct (cb _ _) as [e|];
      [eexists; split; [trace_split|split; [written_events|done]]|].
    apply wp_ret.
    eexists; split; [trace_split|split; [written_events|]].
    split; [done|]. split; [done|]. split; [done|]. split; [done|].
    rewrite !progress_calls_app. by rewrite (progress_calls_writes path writes).
  - apply wp_ret. apply wp_ret.
    eexists; split; [trace_split|split; [written_events|]].
    split; [done|]. split; [done|]. split; [done|]. split; [done|].
    rewrite !progress_calls_app. by rewrite (progress_calls_writes path writes).
Qed.

Lemma process_image_skipped output_dir motion_types video_duration fps quality target_size
    total_images total_frames progress_callback img_idx img_path w :
  decoded img_path = Ok None ->
  exists msg,
    process_image output_dir motion_types video_duration fps quality target_size
      total_images total_frames progress_callback img_idx img_path w
    = ({| heap := heap w; trace := trace w ++ [EvPrint msg]; clock := clock w |}, Ok None).
Proof.
  intros Hdec. unfold process_image. rewrite M_bind_eq.
  pose proof (decode_image_spec img_path w) as Hd. rewrite Hdec in Hd.
  destruct Hd as [msg ->]. by exists msg.
Qed.

Lemma process_image_undecodable output_dir motion_types video_duration fps quality
    target_size total_images total_frames progress_callback img_idx img_path w e :
  decoded img_path = Raise e ->
  process_image output_dir motion_types video_duration fps quality target_size
    total_images total_frames progress_callback img_idx img_path w
  = (w, Raise e).
Proof.
  intros Hdec. unfold process_image. rewrite M_bind_eq.
  pose proof (decode_image_spec img_path w) as Hd. rewrite Hdec in Hd. by rewrite Hd.
Qed.

End ProcessImage.

Section BatchLoop.
Context {K : Kernels} {H : Host}.
Implicit Types (motion_types : list string) (w : world) (items : list (Z * string)).

Lemma batch_written_mono output_dir motion_types quality target_size Pw paths paths' e :
  paths ⊆ paths' ->
  batch_written output_dir motion_types quality target_size Pw paths e ->
  batch_written output_dir motion_types quality target_size Pw paths' e.
Proof.
  intros Hsub Hb p f He. destruct (Hb p f He) as (ip & a & Hin & Hrest).
  exists ip, a. split; [by apply Hsub|done].
Qed.

Lemma batch_written_other output_dir motion_types quality target_size Pw paths e :
  (forall p f, e ≠ EvWrite p f) ->
  batch_written output_dir motion_types quality target_size Pw paths e.
Proof. intros Hne p f ->. by destruct (Hne p f). Qed.

Lemma images_loop_spec (Pw : ndarray -> event -> Prop) output_dir motion_types
    video_duration fps quality target_size total_images total_frames progress_callback :
  (forall img_path a r img i w', decoded img_path = Ok (Some a) ->
     cv2_resize a target_size = Ok r -> heap w' !! img = Some r ->
     Forall (Pw r)
       (new_events w'
          (write_frame (output_path_of output_dir img_path motion_types quality)
             img motion_types total_frames i w').1)) ->
  forall items created_videos w,
  wp (images_loop (process_image output_dir motion_types video_duration fps quality
                     target_size total_images total_frames progress_callback)
                  items created_videos) w
     (fun w' res =>
        exists evs, trace w' = trace w ++ evs
          /\ Forall (batch_written output_dir motion_types quality target_size Pw items.*2) evs
          /\ match res with
             | Ok videos =>
                 progress_calls evs
                 = match progress_callback with
                   | Some _ => expected_calls total_images items
                   | None => []
                   end
                 /\ length videos
                    = (length created_videos + length (expected_calls total_images items))%nat
                 /\ Forall (encoded_ok output_dir motion_types quality total_frames) items.*2
             | Raise _ => True
             end).
Proof.
  intros HPw. induction items as [|[img_idx img_path] items IH]; intros created_videos w.
  - apply wp_ret. exists []. split; [by rewrite app_nil_r|]. split; [done|].
    split; [by destruct progress_callback|]. split; [simpl; lia|done].
  - cbn [images_loop]. apply wp_bind.
    destruct (decoded img_path) as [[a|]|e] eqn:Hdec.
    + eapply wp_mono.
      { eapply (process_image_decoded Pw); [done|]. intros. by eapply HPw. }
      intros w1 res (evs1 & Ht1 & Hw1 & Hres).
      assert (Hb1 : Forall (batch_written output_dir motion_types quality target_size Pw
                              ((img_idx, img_path) :: items).*2) evs1).
      { eapply Forall_impl; [exact Hw1|]. intros e He p f Hpf.
        exists img_path, a. split; [by left|done]. }
      destruct res as [[v|]|e]; [|done|by exists evs1].
      destruct Hres as (Hopen & Hwrite & Hrel & Hsize & Hcalls).
      eapply wp_mono; [apply IH|].
      intros w2 res2 (evs2 & Ht2 & Hw2 & Hres2).
      exists (evs1 ++ evs2). split; [by rewrite Ht2, Ht1, app_assoc|]. split.
      { apply Forall_app. split; [done|].
        eapply Forall_impl; [exact Hw2|]. intros e.
        apply batch_written_mono. intros x Hx. cbn. by right. }
      destruct res2 as [videos|e]; [|done].
      destruct Hres2 as (Hcalls2 & Hlen & Henc).
      unfold expected_calls. cbn [omap list_omap]. fold (expected_calls total_images items).
      unfold decodes at 1 2. rewrite Hdec.
      split; [|split].
      * rewrite progress_calls_app, Hcalls, Hcalls2. by destruct progress_callback.
      * rewrite Hlen, length_app. simpl. lia.
      * cbn. constructor; [|exact Henc]. intros _. by repeat (split; [assumption|]).
    + destruct (process_image_skipped output_dir motion_types video_duration fps quality
                  target_size total_images total_frames progress_callback img_idx img_path
                  w Hdec) as [msg Hskip].
      unfold wp at 1. rewrite Hskip. cbn [fst snd].
      eapply wp_mono; [apply IH|].
      intros w2 res2 (evs2 & Ht2 & Hw2 & Hres2). cbn [trace] in Ht2.
      exists ([EvPrint msg] ++ evs2). split; [by rewrite Ht2, app_assoc|]. split.
      { apply Forall_app. split.
        - constructor; [by apply batch_written_other|done].
        - eapply Forall_impl; [exact Hw2|]. intros e.
          apply batch_written_mono. intros x Hx. cbn. by right. }
      destruct res2 as [videos|e]; [|done].
      destruct Hres2 as (Hcalls2 & Hlen & Henc).
      unfold expected_calls. cbn [omap list_omap]. fold (expected_calls total_images items).
      unfold decodes at 1 2. rewrite Hdec.
      split; [|split].
      * by rewrite progress_calls_app.
      * done.
      * cbn. constructor; [|exact Henc]. unfold encoded_ok, decodes. by rewrite Hdec.
    + unfold wp at 1.
      rewrite (process_image_undecodable _ _ _ _ _ _ _ _ _ _ _ _ _ Hdec). cbn [fst snd].
      exists []. split; [by rewrite app_nil_r|]. split; [done|done].
Qed.

End BatchLoop.

(** ** The enumeration of the images *)

Lemma enumerate_from_cons {A} k (x : A) l :
  enumerate_from k (x :: l) = (Z.of_nat k, x) :: enumerate_from (S k) l.
Proof.
  unfold enumerate_from. rewrite imap_cons. f_equal; [by rewrite Nat.add_0_r|].
  apply imap_ext. intros i y _. simpl. do 2 f_equal. lia.
Qed.

Lemma enumerate_from_0 {A} (l : list A) : enumerate l = enumerate_from 0 l.
Proof. reflexivity. Qed.

Lemma enumerate_from_snd {A} k (l : list A) : (enumerate_from k l).*2 = l.
Proof.
  revert k. induction l as [|x l IH]; intros k; [done|].
  rewrite enumerate_from_cons. cbn. by rewrite IH.
Qed.

Section Calls.
Context {K : Kernels} {H : Host}.


End Calls.

Section Coordinator.
Context {K : Kernels} {H : Host}.

Lemma create_video_spec (Pw : ndarray -> event -> Prop) input_dir output_dir motion_types
    video_duration fps quality progress_callback w :
  (forall target_size total_frames img_path a r img i w',
     target_size_of (effective_quality quality) = Ok target_size ->
     total_frames_of video_duration fps = Ok total_frames ->
     decoded img_path = Ok (Some a) ->
     cv2_resize a target_size = Ok r -> heap w' !! img = Some r ->
     Forall (Pw r)
       (new_events w'
          (write_frame
             (output_path_of output_dir img_path (effective_motion_types motion_types)
                (effective_quality quality))
             img (effective_motion_types motion_types) total_frames i w').1)) ->
  wp (create_video_per_image_with_motion input_dir output_dir motion_types video_duration
        fps quality progress_callback) w
     (fun w' res =>
        exists evs, trace w' = trace w ++ evs
          /\ (forall target_size,
                target_size_of (effective_quality quality) = Ok target_size ->
                Forall (batch_written output_dir (effective_motion_types motion_types)
                          (effective_quality quality) target_size Pw
                          (collect_images input_dir)) evs)
          /\ match res with
             | Ok (RList videos) =>
                 collect_images input_dir = [] /\ videos = [] /\ progress_calls evs = []
             | Ok (RTuple videos meta) =>
                 collect_images input_dir ≠ []
                 /\ progress_calls evs
                    = match progress_callback with
                      | Some _ =>
                          expected_calls (Z.of_nat (length (collect_images input_dir)))
                            (enumerate (collect_images input_dir))
                      | None => []
                      end
                 /\ length videos
                    = length (expected_calls (Z.of_nat (length (collect_images input_dir)))
                                (enumerate (collect_images input_dir)))
                 /\ md_videos_created meta = Z.of_nat (length videos)
                 /\ exists total_frames,
                      total_frames_of video_duration fps = Ok total_frames
                      /\ Forall (encoded_ok output_dir (effective_motion_types motion_types)
                                   (effective_quality quality) total_frames)
                                (collect_images input_dir)
             | Raise _ => True
             end).
Proof.
  intros HPw. unfold create_video_per_image_with_motion. cbv zeta.
  apply wp_bind. apply wp_raise_if.
  destruct (os_makedirs output_dir) as [e|];
    [exists []; split; [by rewrite app_nil_r|]; split; [by intros|done]|].
  apply wp_bind. apply wp_emit.
  apply wp_bind. apply wp_lift.
  destruct (target_size_of (effective_quality quality)) as [target_size|e] eqn:Htarget;
    [|exists [EvMakedirs output_dir]; split; [done|]; split; [by intros|done]].
  destruct (collect_images input_dir) as [|img_path0 images] eqn:Himages.
  - apply wp_ret. exists [EvMakedirs output_dir]. split; [done|]. split; [|done].
    intros ? _. constructor; [by apply batch_written_other|done].
  - rewrite <- Himages.
    apply wp_bind. apply wp_lift.
    destruct (total_frames_of video_duration fps) as [total_frames|e] eqn:Hframes.
    2:{ exists [EvMakedirs output_dir]. split; [done|]. split; [|done].
        intros ? _. constructor; [by apply batch_written_other|done]. }
    apply wp_bind. apply wp_tick.
    apply wp_bind. eapply wp_mono.
    { eapply (images_loop_spec Pw). intros. by eapply HPw. }
    intros w1 res (evs & Ht & Hw & Hres). cbn [trace] in Ht.
    rewrite enumerate_from_0, enumerate_from_snd in Hw.
    assert (Hall : forall ts, Ok target_size = Ok ts ->
              Forall (batch_written output_dir (effective_motion_types motion_types)
                        (effective_quality quality) ts Pw (collect_images input_dir))
                     ([EvMakedirs output_dir] ++ evs)).
    { intros ts [= <-]. apply Forall_app. split; [|done].
      constructor; [by apply batch_written_other|done]. }
    destruct res as [videos|e];
      [|exists ([EvMakedirs output_dir] ++ evs); split; [by rewrite Ht, <- app_assoc|done]].
    destruct Hres as (Hcalls & Hlen & Henc).
    apply wp_bind. apply wp_tick.
    apply wp_bind. apply wp_lift.
    destruct (int_truediv _ _) as [processing_time|e];
      [|exists ([EvMakedirs output_dir] ++ evs); split; [cbn [trace]; by rewrite Ht, <- app_assoc|done]].
    apply wp_ret.
    exists ([EvMakedirs output_dir] ++ evs). split; [cbn [trace]; by rewrite Ht, <- app_assoc|].
    split; [done|].
    split; [by rewrite Himages|]. split; [by rewrite progress_calls_app|].
    split; [done|]. split; [done|].
    exists total_frames. split; [done|].
    by rewrite enumerate_from_0, enumerate_from_snd in Henc.
Qed.

End Coordinator.

(** ** The batch: claims *)

Section BatchClaims.
Context {K : Kernels} {H : Host}.

Lemma target_size_of_effective (quality : string) :
  exists target_size, target_size_of (effective_quality quality) = Ok target_size.
Proof.
  unfold effective_quality. destruct (dict_mem QUALITY_PRESETS quality) eqn:Hm.
  - apply bool_decide_eq_true in Hm. cbn in Hm.
    repeat (apply elem_of_cons in Hm as [->|Hm]); try (eexists; reflexivity).
    by apply elem_of_nil in Hm.
  - eexists. reflexivity.
Qed.

(** An exception raised by a call on the encoder of a decodable image
    (opening the stream, writing one of its frames, closing it) or by the
    size probe of its file is caught nowhere: the whole batch raises.  A
    decode failure, in contrast, only logs a line and moves on to the
    next image. *)
Lemma encoder_exception_is_fatal :
  (forall input_dir output_dir motion_types video_duration fps quality progress_callback w
          img_path a,
     img_path ∈ collect_images input_dir ->
     decoded img_path = Ok (Some a) ->
     (VideoWriter_open
        (output_path_of output_dir img_path (effective_motion_types motion_types)
           (effective_quality quality)) ≠ None
      \/ (exists total_frames j,
            total_frames_of video_duration fps = Ok total_frames
            /\ 0 <= j < total_frames
            /\ VideoWriter_write
                 (output_path_of output_dir img_path (effective_motion_types motion_types)
                    (effective_quality quality)) j ≠ None)
      \/ VideoWriter_release
           (output_path_of output_dir img_path (effective_motion_types motion_types)
              (effective_quality quality)) ≠ None
      \/ is_ok (os_path_getsize
                  (output_path_of output_dir img_path (effective_motion_types motion_types)
                     (effective_quality quality))) = false) ->
     is_ok (create_video_per_image_with_motion input_dir output_dir motion_types
              video_duration fps quality progress_callback w).2 = false)
  /\ (forall output_dir motion_types video_duration fps quality target_size total_images
             total_frames progress_callback img_idx img_path rest created_videos w,
        decoded img_path = Ok None ->
        exists msg,
          images_loop (process_image output_dir motion_types video_duration fps quality
                         target_size total_images total_frames progress_callback)
                      ((img_idx, img_path) :: rest) created_videos w
          = images_loop (process_image output_dir motion_types video_duration fps quality
                           target_size total_images total_frames progress_callback)
                        rest created_videos
                        {| heap := heap w; trace := trace w ++ [EvPrint msg];
                           clock := clock w |}).
Proof.
  split.
  - intros input_dir output_dir motion_types video_duration fps quality progress_callback w
      img_path a Hin Hdec Hfail.
    pose proof (create_video_spec (fun _ _ => True) input_dir output_dir motion_types
                  video_duration fps quality progress_callback w) as Hspec.
    unfold wp in Hspec.
    destruct Hspec as (evs & _ & _ & Hres); [intros; by apply Forall_true|].
    destruct (create_video_per_image_with_motion _ _ _ _ _ _ _ w) as [w' [[vids|vids meta]|e]];
      cbn [fst snd] in *; [| |done].
    + destruct Hres as (Hnil & _). rewrite Hnil in Hin. by apply elem_of_nil in Hin.
    + destruct Hres as (_ & _ & _ & _ & total_frames & Hframes & Henc).
      rewrite Forall_forall in Henc. specialize (Henc img_path Hin).
      unfold encoded_ok, decodes in Henc. rewrite Hdec in Henc.
      destruct (Henc eq_refl) as (Hopen & Hwrites & Hrel & Hsize).
      destruct Hfail as [Hfail|[(total_frames' & j & Hframes' & Hj & Hfail)|[Hfail|Hfail]]];
        [done| |done|congruence].
      rewrite Hframes in Hframes'. injection Hframes' as <-.
      rewrite Forall_forall in Hwrites. destruct Hfail. apply Hwrites.
      apply elem_of_seqZ. lia.
  - intros output_dir motion_types video_duration fps quality target_size total_images
      total_frames progress_callback img_idx img_path rest created_videos w Hdec.
    destruct (process_image_skipped output_dir motion_types video_duration fps quality
                target_size total_images total_frames progress_callback img_idx img_path
                w Hdec) as [msg Hskip].
    exists msg. cbn [images_loop]. rewrite M_bind_eq. by rewrite Hskip.
Qed.

(** C3 (stated as: an empty input directory gives an empty artifact list
    together with run metadata reporting [videos_created = 0], of the
    same shape as a non-empty run).  The early return hands back the bare
    list [[]], not the pair. *)
Theorem empty_input_returns_bare_list input_dir output_dir motion_types video_duration fps
    quality progress_callback w :
  collect_images input_dir = [] -> os_makedirs output_dir = None ->
  (create_video_per_image_with_motion input_dir output_dir motion_types video_duration
     fps quality progress_callback w).2 = Ok (RList []).
Proof.
  intros Himages Hmk. unfold create_video_per_image_with_motion. cbv zeta.
  rewrite Himages. destruct (target_size_of_effective quality) as [target_size Ht].
  rewrite !M_bind_eq. unfold raise_if. rewrite Hmk. cbn [fst snd emit].
  rewrite !M_bind_eq. cbn [fst snd emit]. rewrite !M_bind_eq. unfold lift. by rewrite Ht.
Qed.

(** C7, as the code has it: with the effective plan [["none"]], every
    frame written to an output stream is the resized source of one of the
    batch's images after the 3-channel, 8-bit normalisation; it is the
    resized source itself, pixel for pixel, when that is a 3-channel
    8-bit frame. *)
Theorem none_plan_writes_the_source input_dir output_dir motion_types video_duration fps
    quality progress_callback w p f :
  effective_motion_types motion_types = ["none"%string] ->
  EvWrite p f ∈ new_events w
    (create_video_per_image_with_motion input_dir output_dir motion_types video_duration
       fps quality progress_callback w).1 ->
  exists img_path a target_size r v,
    img_path ∈ collect_images input_dir
    /\ decoded img_path = Ok (Some a)
    /\ target_size_of (effective_quality quality) = Ok target_size
    /\ cv2_resize a target_size = Ok r
    /\ p = output_path_of output_dir img_path ["none"%string] (effective_quality quality)
    /\ to_bgr r = Ok v
    /\ f = astype_uint8 v
    /\ (is_bgr8 r -> f = r).
Proof.
  intros Hplan Hin.
  pose proof (create_video_spec
                (fun r e => exists v p, to_bgr r = Ok v /\ e = EvWrite p (astype_uint8 v))
                input_dir output_dir motion_types video_duration fps quality
                progress_callback w) as Hspec.
  unfold wp in Hspec. rewrite Hplan in Hspec.
  destruct Hspec as (evs & Ht & Hw & _).
  { intros target_size total_frames img_path a r img i w' _ _ _ _ Hr.
    eapply Forall_impl; [by apply write_frame_none|].
    intros e (v & Hv & ->). eexists v, _. split; [done|reflexivity]. }
  rewrite (new_events_app _ _ _ Ht) in Hin.
  destruct (target_size_of_effective quality) as [target_size Htarget].
  specialize (Hw target_size Htarget). rewrite Forall_forall in Hw.
  destruct (Hw _ Hin p f eq_refl) as (img_path & a & Hpath & Hdec & Hby).
  destruct (Hby p f eq_refl) as (-> & r & Hr & v & p' & Hv & [= _ ->]).
  exists img_path, a, target_size, r, v. repeat (split; [done|]).
  intros Hbgr. destruct (is_bgr8_normal r Hbgr) as [Hn Hu].
  rewrite Hn in Hv. injection Hv as <-. done.
Qed.

End BatchClaims.

(** ** Image collection and decoding *)

Lemma ascii_compare_trans c (a b d : ascii) :
  Ascii.compare a b = c -> Ascii.compare b d = c -> Ascii.compare a d = c.
Proof.
  unfold Ascii.compare. destruct c.
  - rewrite !N.compare_eq_iff. congruence.
  - rewrite !N.compare_lt_iff. lia.
  - rewrite !N.compare_gt_iff. lia.
Qed.

Lemma string_compare_lt_trans (x y z : string) :
  String.compare x y = Lt -> String.compare y z = Lt -> String.compare x z = Lt.
Proof.
  revert y z. induction x as [|a x IH]; intros [|b y] [|d z]; simpl; try done.
  destruct (Ascii.compare a b) eqn:Hab; try done.
  - apply Ascii.compare_eq_iff in Hab as ->.
    destruct (Ascii.compare b d) eqn:Hbd; try done. apply IH.
  - intros _. destruct (Ascii.compare b d) eqn:Hbd; try done.
    + apply Ascii.compare_eq_iff in Hbd as <-. by rewrite Hab.
    + by rewrite (ascii_compare_trans Lt a b d).
Qed.

Lemma str_le_trans (x y z : string) : str_le x y -> str_le y z -> str_le x z.
Proof.
  unfold str_le, String.leb.
  destruct (String.compare x y) eqn:Hxy; try done;
    destruct (String.compare y z) eqn:Hyz; try done; intros _ _.
  - apply String.compare_eq_iff in Hxy as ->. by rewrite Hyz.
  - apply String.compare_eq_iff in Hxy as ->. by rewrite Hyz.
  - apply String.compare_eq_iff in Hyz as <-. by rewrite Hxy.
  - by rewrite (string_compare_lt_trans x y z).
Qed.

Lemma insert_sorted_perm x l : insert_sorted x l ≡ₚ x :: l.
Proof.
  induction l as [|y l IH]; simpl; [done|].
  destruct (String.leb x y); [done|]. rewrite IH. apply Permutation_swap.
Qed.

Lemma sorted_perm l : sorted l ≡ₚ l.
Proof.
  induction l as [|x l IH]; simpl; [done|].
  unfold sorted in *. simpl. by rewrite insert_sorted_perm, IH.
Qed.

Lemma insert_sorted_sorted x l :
  StronglySorted str_le l -> StronglySorted str_le (insert_sorted x l).
Proof.
  induction 1 as [|y l Hl IH Hy]; simpl.
  - repeat constructor.
  - destruct (String.leb x y) eqn:Hxy.
    + constructor; [by constructor|]. constructor; [done|].
      eapply Forall_impl; [exact Hy|]. intros z Hz. by eapply str_le_trans.
    + constructor; [done|].
      rewrite insert_sorted_perm. constructor; [|done].
      destruct (String.leb_total x y) as [H1|H1]; [congruence|done].
Qed.

Lemma sorted_sorted l : StronglySorted str_le (sorted l).
Proof.
  induction l as [|x l IH]; [constructor|]. by apply insert_sorted_sorted.
Qed.

Section Collect.
Context {K : Kernels} {H : Host}.

(** X2: The image list is the sorted rearrangement of what the six patterns
    match (a file matched twice is listed twice); a missing directory
    gives the empty list without consulting [glob]. *)
Theorem collect_images_sorted (input_dir : string) :
  StronglySorted str_le (collect_images input_dir)
  /\ collect_images input_dir ≡ₚ (if os_path_exists input_dir then globbed input_dir else [])
  /\ (forall p, p ∈ collect_images input_dir <->
        os_path_exists input_dir = true
        /\ exists pattern, pattern ∈ image_patterns
             /\ p ∈ glob_glob (os_path_join input_dir pattern)).
Proof.
  unfold collect_images, globbed.
  destruct (os_path_exists input_dir); simpl negb; cbv iota.
  - split; [apply sorted_sorted|]. split; [apply sorted_perm|].
    intros p. rewrite sorted_perm, list_elem_of_bind. split.
    + intros (pattern & Hp & Hpat). split; [done|]. by exists pattern.
    + intros [_ (pattern & Hpat & Hp)]. by exists pattern.
  - split; [constructor|]. split; [done|].
    intros p. split; [by intros ?%elem_of_nil|by intros [? _]].
Qed.

(** X3: The loader tries OpenCV, then Pillow when it is installed; it never
    prints and never changes an existing array; an image it returns is a
    new array that has no alpha channel; it swallows every failure of
    Pillow, and raises only when OpenCV itself rejects the 4-channel array
    it has just decoded. *)
Theorem read_image_with_fallback_outcome (path : string) (w : world) :
  match read_image_with_fallback path w with
  | (w', Ok (Some l)) =>
      exists a,
        w' = {| heap := heap w ++ [a]; trace := trace w; clock := clock w |}
        /\ l = length (heap w)
        /\ is_bgra a = false
        /\ match cv2_imread path with
           | Some img => a = img \/ (is_bgra img = true /\ cvtColor_BGRA2BGR img = Ok a)
           | None => PIL_AVAILABLE = true
                     /\ (exists arr, PIL_open_RGB path = Ok arr /\ cvtColor_RGB2BGR arr = Ok a)
                     /\ exists h wd, shape a = [h; wd; 3%nat]
           end
  | (w', Ok None) =>
      w' = w /\ cv2_imread path = None
      /\ (PIL_AVAILABLE = true ->
          is_ok (arr ← PIL_open_RGB path; cvtColor_RGB2BGR arr) = false)
  | (w', Raise e) =>
      w' = w /\ exists img, cv2_imread path = Some img /\ is_bgra img = true
                            /\ cvtColor_BGRA2BGR img = Raise e
  end.
Proof.
  unfold read_image_with_fallback.
  destruct (cv2_imread path) as [img|].
  - destruct (is_bgra img) eqn:Hb.
    + rewrite !M_bind_eq. unfold lift.
      destruct (cvtColor_BGRA2BGR img) as [a|e] eqn:Hc.
      * rewrite !M_bind_eq. cbn. exists a. repeat (split; [done|]). split; [|by right].
        unfold cvtColor_BGRA2BGR in Hc.
        destruct (cv2_channels img) as [[|[|[|[|[|]]]]]|]; try done.
        destruct (shape img) as [|h [|wd ?]]; try done. by injection Hc as <-.
      * split; [done|]. by exists img.
    + rewrite !M_bind_eq. cbn. exists img. repeat (split; [done|]). by left.
  - destruct PIL_AVAILABLE.
    + unfold read_with_pillow.
      destruct (PIL_open_RGB path) as [arr|e] eqn:Hp; cbn [mbind exc_bind].
      * destruct (cvtColor_RGB2BGR arr) as [a|e] eqn:Hc.
        -- rewrite !M_bind_eq. cbn. exists a. repeat (split; [done|]).
           assert (Hs : is_bgra a = false /\ exists h wd, shape a = [h; wd; 3%nat]).
           { unfold cvtColor_RGB2BGR in Hc.
             destruct (cv2_channels arr) as [[|[|[|[|]]]]|]; try done.
             destruct (shape arr) as [|h [|wd ?]]; try done. injection Hc as <-.
             split; [done|by exists h, wd]. }
           destruct Hs as [Hb Hs].
           split; [done|]. split; [done|]. split; [by exists arr|done].
        -- done.
      * done.
    + done.
Qed.

End Collect.

(** ** Validation of the plan and of the quality *)

Section Normalisation.
Context {K : Kernels} {H : Host}.

(** X22: Validation is stable: the effective plan is its own effective plan
    (so the cut to three entries made again for the file name changes
    nothing), the effective quality is its own effective quality, and its
    preset is always found, so the lookup of the resolution never raises. *)
Theorem validation_is_idempotent (arg : motion_arg) (quality : string) :
  effective_motion_types (MSeq (effective_motion_types arg)) = effective_motion_types arg
  /\ take 3 (effective_motion_types arg) = effective_motion_types arg
  /\ effective_motion_types arg ≠ []
  /\ effective_quality (effective_quality quality) = effective_quality quality
  /\ is_ok (target_size_of (effective_quality quality)) = true.
Proof.
  assert (Hlen : (length (effective_motion_types arg) <= 3)%nat).
  { destruct (effective_motion_types_filter arg) as [->|[_ ->]]; [|simpl; lia].
    etrans; [apply length_filter|apply normalize_motion_types_length]. }
  assert (Hrec : Forall recognized (effective_motion_types arg)).
  { destruct (effective_motion_types_filter arg) as [->|[_ ->]].
    - apply Forall_forall. intros mt Hmt. by apply list_elem_of_filter in Hmt as [? _].
    - repeat constructor. }
  assert (Hne : effective_motion_types arg ≠ []).
  { rewrite effective_motion_types_eq. by destruct (filter _ _). }
  assert (Htake : take 3 (effective_motion_types arg) = effective_motion_types arg)
    by (by apply take_ge).
  split; [|split; [done|split; [done|split]]].
  - rewrite effective_motion_types_eq. cbn [normalize_motion_types]. rewrite Htake.
    assert (Hf : filter recognized (effective_motion_types arg) = effective_motion_types arg).
    { revert Hrec. generalize (effective_motion_types arg).
      induction 1 as [|x l Hx _ IH]; [done|].
      rewrite filter_cons_True by done. by rewrite IH. }
    rewrite Hf. by destruct (effective_motion_types arg).
  - unfold effective_quality at 1. destruct (dict_mem _ (effective_quality quality)) eqn:Hm;
      [done|].
    unfold effective_quality in *. destruct (dict_mem QUALITY_PRESETS quality) eqn:Hq.
    + congruence.
    + vm_compute in Hm. discriminate.
  - by destruct (target_size_of_effective quality) as [ts ->].
Qed.

End Normalisation.

(** ** Effect Library: what an effect returns *)

Lemma dict_get_Forall_key {V} (Q : string * V -> Prop) (d : list (string * V)) key v :
  Forall Q d -> dict_get d key = Some v -> Q (key, v).
Proof.
  induction 1 as [|[k v'] d HQ _ IH]; [done|]. simpl.
  case_decide; [intros [= <-]; by subst|done].
Qed.

Lemma returns_frame_mono (Q Q' : ndarray -> Prop) w r :
  (forall a, Q a -> Q' a) -> returns_frame Q w r -> returns_frame Q' w r.
Proof. intros HQ. destruct r as [l|e]; [|done]. intros (a & ? & ?). exists a. auto. Qed.

Lemma same_shape_size a a' : shape a' = shape a -> same_frame_size a a'.
Proof. intros Hs. unfold same_frame_size, frame_dims, cv2_channels. by rewrite Hs. Qed.

Lemma same_frame_size_trans a b c :
  same_frame_size a b -> same_frame_size b c -> same_frame_size a c.
Proof. intros [? ?] [? ?]. split; congruence. Qed.

Lemma same_frame_size_shape2 a a' :
  same_frame_size a a' -> shape2 a' = shape2 a.
Proof.
  intros [Hd _]. unfold frame_dims, shape2 in *.
  destruct (shape a) as [|h [|w ?]], (shape a') as [|h' [|w' ?]]; try done.
  by injection Hd as -> ->.
Qed.

Lemma shape2_nat a height width :
  shape2 a = Ok (height, width) -> exists h w : nat, height = Z.of_nat h /\ width = Z.of_nat w.
Proof.
  unfold shape2. destruct (shape a) as [|h [|w ?]]; try done. intros [= <- <-]. eauto.
Qed.

Lemma astype_uint8_is_uint8 a : is_uint8 (astype_uint8 a).
Proof.
  unfold is_uint8, astype_uint8. cbn [data]. destruct (data a) as [l|l].
  - eexists. split; [done|]. apply Forall_fmap, Forall_true. intros z. simpl.
    apply Z.mod_pos_bound. lia.
  - eexists. split; [done|]. apply Forall_fmap, Forall_true. intros x. simpl.
    unfold u8_of_float. destruct (to_int x); [apply Z.mod_pos_bound|]; lia.
Qed.

Lemma to_bgr_dims a v : to_bgr a = Ok v -> frame_dims v = frame_dims a.
Proof.
  unfold to_bgr, cvtColor_GRAY2BGR, cvtColor_BGRA2BGR, frame_dims.
  destruct (shape a) as [|h [|w [|c rest]]] eqn:Hs; try done.
  - destruct (cv2_channels a) as [[|[|]]|]; try done. by intros [= <-].
  - case_decide.
    + destruct (cv2_channels a) as [[|[|[|[|[|]]]]]|]; try done. by intros [= <-].
    + intros [= <-]. by rewrite Hs.
Qed.

Lemma np_iadd_shape r z r' : np_iadd r z = Ok r' -> shape r' = shape r.
Proof.
  unfold np_iadd. destruct (np_add r z) as [x|]; [|done]. simpl.
  case_decide; [|done]. by intros [= <-].
Qed.

Lemma pan_width_le width start_x : (pan_width width start_x <= width)%nat.
Proof. unfold pan_width, slice_range, slice_bound. cbn [snd]. repeat case_match; lia. Qed.

Lemma pan_width_inside width start_x :
  0 <= start_x <= 2 * Z.of_nat width -> pan_width width start_x = width.
Proof. unfold pan_width, slice_range, slice_bound. cbn [snd]. repeat case_match; lia. Qed.

Lemma pan_width_beyond width start_x :
  2 * Z.of_nat width < start_x ->
  Z.of_nat (pan_width width start_x) = Z.max (3 * Z.of_nat width - start_x) 0.
Proof. unfold pan_width, slice_range, slice_bound. cbn [snd]. repeat case_match; lia. Qed.

Section Sizes.
Context {K : Kernels}.

Lemma cv2_shape_size (h w c : nat) b a :
  cv2_channels a = Some c -> shape2 a = Ok (Z.of_nat h, Z.of_nat w) ->
  0 < Z.of_nat w -> 0 < Z.of_nat h ->
  same_frame_size a {| shape := cv2_shape (Z.of_nat h) (Z.of_nat w) c; data := b |}.
Proof.
  intros Hc Hs Hw Hh. split.
  - unfold shape2, frame_dims, cv2_shape in *. cbn [shape]. rewrite !Nat2Z.id.
    destruct (shape a) as [|h' [|w' ?]]; try done.
    injection Hs as Hh' Hw'. apply Nat2Z.inj in Hh', Hw'. subst h' w'.
    by case_decide.
  - rewrite Hc. unfold cv2_channels in *. unfold cv2_shape. cbn [shape].
    rewrite !Nat2Z.id.
    destruct (shape a) as [|h' [|w' [|c' [|]]]]; try done;
      repeat case_decide; simplify_eq; try done; cbn;
      repeat case_decide; try done; lia.
Qed.

Lemma cv2_warpAffine_size a Mx (h w : nat) r :
  shape2 a = Ok (Z.of_nat h, Z.of_nat w) ->
  cv2_warpAffine a Mx (Z.of_nat w, Z.of_nat h) = Ok r -> same_frame_size a r.
Proof.
  intros Hs. unfold cv2_warpAffine.
  destruct (cv2_channels a) as [c|] eqn:Hc; [|done].
  case_decide as Hd; [|done]. intros [= <-]. cbn [fst snd] in *.
  apply cv2_shape_size; [done|done|lia|lia].
Qed.

Lemma cv2_flip_horizontal_size a r :
  cv2_flip_horizontal a = Ok r -> same_frame_size a r.
Proof.
  unfold cv2_flip_horizontal.
  destruct (cv2_channels a) as [c|] eqn:Hc; [|done].
  destruct (shape a) as [|h [|w rest]] eqn:Hs; try done. intros [= <-].
  apply cv2_shape_size; [done|by unfold shape2; rewrite Hs|..];
    unfold cv2_channels in Hc; rewrite Hs in Hc;
    destruct rest as [|? [|? ?]]; try done; case_decide; try done; lia.
Qed.

Lemma cv2_resize_dims a target_size r :
  cv2_resize a target_size = Ok r ->
  frame_dims r = Some (Z.to_nat target_size.1, Z.to_nat target_size.2).
Proof.
  unfold cv2_resize. destruct (cv2_channels a) as [c|]; [|done].
  case_decide; [|done]. intros [= <-]. unfold frame_dims, cv2_shape. cbn [shape].
  by case_decide.
Qed.

Lemma warp_size img Mx width height w a :
  heap w !! img = Some a -> shape2 a = Ok (height, width) ->
  wp (warp img Mx width height) w
     (fun w' r => (forall l x, heap w !! l = Some x -> heap w' !! l = Some x)
                  /\ returns_frame (same_frame_size a) w' r).
Proof.
  intros Ha Hs. destruct (shape2_nat _ _ _ Hs) as (h & wd & -> & ->).
  unfold warp. apply wp_bind. eapply wp_load; [done|].
  apply wp_bind. apply wp_lift.
  destruct (cv2_warpAffine _ _ _) as [r|e] eqn:Hr; [|done].
  apply wp_alloc. split.
  - intros l x Hl. cbn. by apply lookup_app_l_Some.
  - exists r. split; [by apply list_lookup_middle|]. by eapply cv2_warpAffine_size.
Qed.

End Sizes.

(** Symbolic execution of the straight-line part of an effect. *)
Ltac wp_lift_ok :=
  apply wp_lift;
  lazymatch goal with
  | |- match ?r with Ok _ => _ | Raise _ => _ end =>
      let H := fresh "Hlift" in destruct r as [?|?] eqn:H; [|exact I]
  end.

Ltac wp_head a Ha Hs :=
  apply wp_bind; eapply wp_load; [exact Ha|];
  apply wp_bind; apply wp_lift;
  destruct (shape2 a) as [[? ?]|?] eqn:Hs; [|exact I];
  apply wp_bind; wp_lift_ok.

Ltac wp_warp_last :=
  eapply wp_mono; [eapply warp_size; eassumption|];
  let Hr := fresh in intros ? ? [_ Hr]; exact Hr.

Section EffectSizes.
Context {K : Kernels}.
Implicit Types (img : loc) (frame_idx total_frames : Z).

Lemma apply_zoom_in_effect_size img frame_idx total_frames w a :
  heap w !! img = Some a ->
  wp (apply_zoom_in_effect img frame_idx total_frames) w (returns_frame (same_frame_size a)).
Proof. intros Ha. unfold apply_zoom_in_effect. wp_head a Ha Hs. wp_warp_last. Qed.

Lemma apply_zoom_out_effect_size img frame_idx total_frames w a :
  heap w !! img = Some a ->
  wp (apply_zoom_out_effect img frame_idx total_frames) w (returns_frame (same_frame_size a)).
Proof. intros Ha. unfold apply_zoom_out_effect. wp_head a Ha Hs. wp_warp_last. Qed.

Lemma apply_rotation_effect_size img frame_idx total_frames w a :
  heap w !! img = Some a ->
  wp (apply_rotation_effect img frame_idx total_frames) w (returns_frame (same_frame_size a)).
Proof. intros Ha. unfold apply_rotation_effect. wp_head a Ha Hs. wp_warp_last. Qed.

Lemma apply_subtle_motion_size img frame_idx total_frames w a :
  heap w !! img = Some a ->
  wp (apply_subtle_motion img frame_idx total_frames) w (returns_frame (same_frame_size a)).
Proof.
  intros Ha. unfold apply_subtle_motion. wp_head a Ha Hs.
  do 4 (apply wp_bind; wp_lift_ok). wp_warp_last.
Qed.

Lemma apply_ken_burns_effect_size img frame_idx total_frames w a :
  heap w !! img = Some a ->
  wp (apply_ken_burns_effect img frame_idx total_frames) w (returns_frame (same_frame_size a)).
Proof.
  intros Ha. unfold apply_ken_burns_effect. wp_head a Ha Hs.
  do 4 (apply wp_bind; wp_lift_ok). wp_warp_last.
Qed.

Lemma apply_dolly_zoom_effect_size img frame_idx total_frames w a :
  heap w !! img = Some a ->
  wp (apply_dolly_zoom_effect img frame_idx total_frames) w (returns_frame (same_frame_size a)).
Proof.
  intros Ha. unfold apply_dolly_zoom_effect. wp_head a Ha Hs.
  apply wp_bind. eapply wp_mono; [by eapply warp_size|].
  intros w1 [l1|e] [Hkeep Hr]; [|exact I].
  destruct Hr as (a1 & Ha1 & Hsize).
  eapply wp_mono.
  { eapply warp_size; [exact Ha1|]. by rewrite (same_frame_size_shape2 a a1). }
  intros w2 [l2|e] [_ Hr2]; [|exact I].
  destruct Hr2 as (a2 & Ha2 & Hsize2). exists a2. split; [done|].
  by eapply same_frame_size_trans.
Qed.

Lemma apply_flip_effect_size img frame_idx total_frames w a :
  heap w !! img = Some a ->
  wp (apply_flip_effect img frame_idx total_frames) w (returns_frame (same_frame_size a)).
Proof.
  intros Ha. unfold apply_flip_effect. wp_head a Ha Hs.
  apply wp_bind. wp_lift_ok.
  apply wp_bind. unfold ndarray_copy. apply wp_bind. eapply wp_load; [exact Ha|].
  apply wp_alloc.
  set (w1 := {| heap := heap w ++ [a]; trace := trace w; clock := clock w |}).
  assert (H1 : heap w1 !! length (heap w) = Some a) by (by apply list_lookup_middle).
  apply wp_bind. case_decide.
  - apply wp_bind. eapply wp_load; [exact H1|].
    apply wp_bind. apply wp_lift.
    destruct (cv2_flip_horizontal a) as [f|e] eqn:Hf; [|exact I].
    apply wp_alloc.
    eapply wp_mono.
    { eapply warp_size; [by apply list_lookup_middle|].
      by rewrite (same_frame_size_shape2 a f (cv2_flip_horizontal_size a f Hf)). }
    intros w2 [l2|e] [_ Hr2]; [|exact I].
    destruct Hr2 as (a2 & Ha2 & Hsize2). exists a2. split; [done|].
    eapply same_frame_size_trans; [|exact Hsize2]. by apply cv2_flip_horizontal_size.
  - apply wp_ret. wp_warp_last.
Qed.

Lemma apply_wave_effect_size img frame_idx total_frames w a :
  heap w !! img = Some a ->
  wp (apply_wave_effect img frame_idx total_frames) w (returns_frame (same_frame_size a)).
Proof.
  intros Ha. unfold apply_wave_effect. wp_head a Ha Hs.
  destruct (shape2_nat _ _ _ Hs) as (h & wd & -> & ->).
  apply wp_bind. apply wp_lift. rewrite !Nat2Z.id.
  unfold cv2_remap.
  destruct (cv2_channels a) as [c|] eqn:Hc; [|exact I].
  case_decide as Hd; [exact I|].
  apply wp_alloc. eexists. split; [by apply list_lookup_middle|].
  apply cv2_shape_size; [done|done|lia|lia].
Qed.

Lemma apply_radial_blur_effect_size img frame_idx total_frames w a :
  heap w !! img = Some a ->
  wp (apply_radial_blur_effect img frame_idx total_frames) w
     (returns_frame (fun a' => shape a' = shape a)).
Proof.
  intros Ha. unfold apply_radial_blur_effect. wp_head a Ha Hs.
  apply wp_bind. apply wp_alloc.
  set (result := length (heap w)).
  set (w1 := {| heap := heap w ++ [astype_float32 a]; trace := trace w; clock := clock w |}).
  assert (H1 : exists r, heap w1 !! result = Some r /\ shape r = shape a).
  { exists (astype_float32 a). split; [by apply list_lookup_middle|done]. }
  apply wp_bind. wp_lift_ok.
  apply wp_bind.
  match goal with |- wp (for_each ?l ?body) _ _ => generalize l; intros idxs end.
  clearbody w1. revert w1 H1.
  induction idxs as [|i idxs IH]; intros w1 (r & Hr1 & Hshape).
  - apply wp_ret. apply wp_bind. eapply wp_load; [exact Hr1|].
    apply wp_alloc. eexists. split; [by apply list_lookup_middle|done].
  - cbn [for_each]. apply wp_bind. apply wp_bind. wp_lift_ok.
    apply wp_bind. eapply wp_load; [exact Hr1|].
    apply wp_bind. apply wp_lift.
    destruct (np_iadd r _) as [r'|] eqn:Hadd; [|exact I].
    unfold wp at 1. cbn [store fst snd].
    apply IH. exists r'. cbn [heap]. split.
    + apply list_lookup_insert_eq. by eapply lookup_lt_Some.
    + rewrite (np_iadd_shape _ _ _ Hadd). done.
Qed.

Lemma apply_360_pan_effect_run img frame_idx total_frames w a h wd rest :
  heap w !! img = Some a -> shape a = h :: wd :: rest ->
  wp (apply_360_pan_effect img frame_idx total_frames) w
     (fun w' r =>
        match pan_start wd frame_idx total_frames with
        | Ok start_x =>
            exists a',
              w' = {| heap := heap w ++ [a']; trace := trace w; clock := clock w |}
              /\ r = Ok (length (heap w))
              /\ shape a' = h :: pan_width wd start_x :: rest
        | Raise e => w' = w /\ r = Raise e
        end).
Proof.
  intros Ha Hs. unfold apply_360_pan_effect, pan_start.
  apply wp_bind. eapply wp_load; [exact Ha|].
  apply wp_bind. apply wp_lift. unfold shape2. rewrite Hs.
  apply wp_bind. apply wp_lift.
  destruct (effect_progress frame_idx total_frames) as [progress|e]; [|done].
  cbn [mbind exc_bind].
  apply wp_bind. apply wp_lift. unfold np_hstack3. rewrite Hs.
  apply wp_bind. apply wp_lift. cbn [shape].
  apply wp_bind. apply wp_lift.
  destruct (int_mul _ progress) as [x|e]; [|done]. cbn [mbind exc_bind].
  destruct (to_int x) as [start_x|e]; [|done].
  apply wp_bind. apply wp_lift. unfold slice_columns. cbn [shape].
  unfold pan_width.
  destruct (slice_range _ start_x _) as [start len]. cbn [snd].
  apply wp_alloc. eexists. split; [reflexivity|done].
Qed.

Lemma motion_functions_size mt f img i t w a :
  dict_get motion_functions mt = Some (Some f) ->
  mt ≠ "tilt-shift"%string -> mt ≠ "360-pan"%string ->
  heap w !! img = Some a ->
  wp (f img i t) w (returns_frame (same_frame_size a)).
Proof.
  intros Hget.
  pose proof (dict_get_Forall_key
    (fun kv => match kv.2 with
               | Some f => kv.1 ≠ "tilt-shift"%string -> kv.1 ≠ "360-pan"%string ->
                           forall img i t w a, heap w !! img = Some a ->
                             wp (f img i t) w (returns_frame (same_frame_size a))
               | None => True
               end) motion_functions mt (Some f)) as Hall.
  cbn [fst snd] in Hall. intros H1 H2 Ha. apply Hall; try done. clear.
  unfold motion_functions.
  repeat (apply List.Forall_cons; [cbn [fst snd]; try done; intros _ _ img i t w a Ha|]);
    [..|apply List.Forall_nil].
  - by apply apply_subtle_motion_size.
  - by apply apply_ken_burns_effect_size.
  - by apply apply_zoom_in_effect_size.
  - by apply apply_zoom_out_effect_size.
  - by apply apply_dolly_zoom_effect_size.
  - by apply apply_wave_effect_size.
  - eapply wp_mono; [by apply apply_radial_blur_effect_size|].
    intros w' r. apply returns_frame_mono. apply same_shape_size.
  - by apply apply_rotation_effect_size.
  - by apply apply_flip_effect_size.
Qed.

(** X4: No effect changes an array that exists when it is called, its
    argument included; none prints, writes or reports anything; the frame
    it returns is a new array. *)
Theorem effects_leave_arrays_untouched mt f img frame_idx total_frames w :
  dict_get motion_functions mt = Some (Some f) ->
  (forall l a, heap w !! l = Some a -> heap (f img frame_idx total_frames w).1 !! l = Some a)
  /\ trace (f img frame_idx total_frames w).1 = trace w
  /\ (forall l', (f img frame_idx total_frames w).2 = Ok l' -> (length (heap w) <= l')%nat).
Proof.
  intros Hf.
  destruct (motion_functions_safe mt f Hf (length (heap w)) no_event img frame_idx
              total_frames w ltac:(lia)) as [Hk Hfresh].
  split; [|split; [by apply keeps_no_event in Hk|exact Hfresh]].
  intros l a Hl. eapply keeps_lookup; [exact Hk| |done]. by eapply lookup_lt_Some.
Qed.

(** X5: Every effect but the 360-degree pan and the tilt-shift, when it
    returns, returns a frame of the width, height and channel count of
    the frame it was given. *)
Theorem effects_keep_frame_size mt f img frame_idx total_frames w a l' :
  dict_get motion_functions mt = Some (Some f) ->
  mt ≠ "tilt-shift"%string -> mt ≠ "360-pan"%string ->
  heap w !! img = Some a ->
  (f img frame_idx total_frames w).2 = Ok l' ->
  exists a', heap (f img frame_idx total_frames w).1 !! l' = Some a'
             /\ frame_dims a' = frame_dims a /\ cv2_channels a' = cv2_channels a.
Proof.
  intros Hf H1 H2 Ha Hok.
  pose proof (motion_functions_size mt f img frame_idx total_frames w a Hf H1 H2 Ha) as Hs.
  unfold wp in Hs. rewrite Hok in Hs. exact Hs.
Qed.

(** X6: The 360-degree pan returns the window [tiled[:, start_x:start_x + width]]
    of the image tiled three times: a frame of the same height and channels,
    never wider than its argument, as wide when [0 <= start_x <= 2 * width],
    and narrower as soon as [start_x] passes [2 * width]. *)
Theorem pan_360_window img frame_idx total_frames w a h wd rest :
  heap w !! img = Some a -> shape a = h :: wd :: rest ->
  match pan_start wd frame_idx total_frames with
  | Ok start_x =>
      exists a',
        apply_360_pan_effect img frame_idx total_frames w
        = ({| heap := heap w ++ [a']; trace := trace w; clock := clock w |},
           Ok (length (heap w)))
        /\ shape a' = h :: pan_width wd start_x :: rest
        /\ (pan_width wd start_x <= wd)%nat
        /\ (0 <= start_x <= 2 * Z.of_nat wd -> pan_width wd start_x = wd)
        /\ (2 * Z.of_nat wd < start_x ->
            Z.of_nat (pan_width wd start_x) = Z.max (3 * Z.of_nat wd - start_x) 0)
  | Raise e => apply_360_pan_effect img frame_idx total_frames w = (w, Raise e)
  end.
Proof.
  intros Ha Hs.
  pose proof (apply_360_pan_effect_run img frame_idx total_frames w a h wd rest Ha Hs) as Hrun.
  unfold wp in Hrun.
  destruct (apply_360_pan_effect img frame_idx total_frames w) as [w' r].
  cbn [fst snd] in Hrun.
  destruct (pan_start wd frame_idx total_frames) as [start_x|e].
  - destruct Hrun as (a' & -> & -> & Hshape). exists a'.
    split; [done|]. split; [done|]. split; [apply pan_width_le|].
    split; [apply pan_width_inside|apply pan_width_beyond].
  - by destruct Hrun as [-> ->].
Qed.

End EffectSizes.

(** ** Segment Composer: sign and range of the segment index *)

Lemma binary_round_aux_sign s m e l : sign_is s (binary_round_aux prec emax s m e l).
Proof.
  unfold binary_round_aux.
  destruct (shr_fexp prec emax m e l) as [mrs e'].
  destruct (shr_fexp prec emax _ e' loc_Exact) as [mrs' e''].
  destruct (shr_m mrs'); [done| |done]. by case_match.
Qed.

Lemma SFdiv_sign sx sy x y :
  sign_is sx x -> sign_is sy y -> sign_is (xorb sx sy) (SFdiv prec emax x y).
Proof.
  destruct x as [?|?| |? mx ex], y as [?|?| |? my ey]; cbn; try done;
    try (by intros -> ->).
  intros -> ->.
  destruct (SFdiv_core_binary prec emax (Z.pos mx) ex (Z.pos my) ey) as [[mz ez] lz].
  apply binary_round_aux_sign.
Qed.

Lemma to_int_sign x z : sign_is false x -> to_int x = Ok z -> 0 <= z.
Proof.
  destruct x as [s|s| |s m e]; try done.
  - by intros _ [= <-].
  - cbn. intros -> [= <-]. cbn [cond_Zopp]. apply Z.shiftl_nonneg. lia.
Qed.

Lemma of_int_sign z x : 0 <= z -> of_int z = Ok x -> sign_is false x.
Proof.
  intros Hz. unfold of_int, binary_normalize. destruct z as [|p|p]; [|..|lia].
  - by intros [= <-].
  - unfold binary_round. destruct (shl_align p 0 _) as [mz ez].
    pose proof (binary_round_aux_sign false (Z.pos mz) ez loc_Exact) as Hs.
    destruct (binary_round_aux prec emax false (Z.pos mz) ez loc_Exact); try done;
      by intros [= <-].
Qed.

Lemma int_truediv_sign a b x : 0 <= a -> 0 < b -> int_truediv a b = Ok x -> sign_is false x.
Proof.
  intros Ha Hb. unfold int_truediv.
  destruct (b =? 0) eqn:Hb0; [done|]. destruct (a =? 0) eqn:Ha0.
  - intros [= <-]. cbn. lia.
  - destruct a as [|pa|pa]; [done| |lia]. destruct b as [|pb|pb]; [done| |lia].
    pose proof (SFdiv_sign false false (raw (Z.pos pa)) (raw (Z.pos pb)) eq_refl eq_refl)
      as Hs.
    destruct (SFdiv prec emax (raw (Z.pos pa)) (raw (Z.pos pb))); try done;
      by intros [= <-].
Qed.

(** X7: The segment index, once computed, is a position of the plan: the
    clamp keeps it below the plan's length, and it is never negative, so
    the lookup [motion_types[current_segment]] cannot fail and never reads
    the plan from its end. *)
Theorem segment_lookup_in_bounds (motion_types : list string) total_frames frame_idx s :
  0 <= frame_idx -> 0 < total_frames -> motion_types ≠ [] ->
  current_segment total_frames (Z.of_nat (length motion_types)) frame_idx = Ok s ->
  0 <= s < Z.of_nat (length motion_types)
  /\ exists mt, list_index motion_types s = Ok mt
                /\ motion_types !! Z.to_nat s = Some mt.
Proof.
  intros Hf Ht Hne. assert (Hn : 0 < Z.of_nat (length motion_types)).
  { destruct motion_types; [done|]. cbn [length]. lia. }
  unfold current_segment, segment_duration.
  destruct (int_truediv total_frames _) as [sd|] eqn:Hsd; [|done]. cbn [mbind exc_bind].
  apply int_truediv_sign in Hsd; [|lia|done].
  unfold int_div. destruct (of_int frame_idx) as [fz|] eqn:Hfz; [|done].
  cbn [mbind exc_bind].
  apply of_int_sign in Hfz; [|done].
  unfold truediv. destruct (is_zero sd); [done|]. cbn [mbind exc_bind].
  destruct (to_int (SFdiv prec emax fz sd)) as [s0|] eqn:Hs0; [|done].
  cbn [mbind exc_bind]. intros [= <-].
  apply to_int_sign in Hs0; [|by apply (SFdiv_sign false false)].
  assert (Hs : 0 <= Z.min s0 (Z.of_nat (length motion_types) - 1)
                 < Z.of_nat (length motion_types)) by lia.
  split; [done|]. unfold list_index.
  replace (_ <? 0) with false by lia.
  replace ((0 <=? _) && (_ <? _)) with true by lia.
  destruct (motion_types !! Z.to_nat _) as [mt|] eqn:Hmt; [by exists mt|].
  apply lookup_ge_None in Hmt. lia.
Qed.

(** X8: For every frame count up to 120 and plans of one to three effects:
    every frame is assigned to a segment of the plan, its local index is
    never negative and never passes the segment's frame count (it can
    equal it, one past the last index), and it stays below the count when
    the plan length divides the frame count. *)
Theorem local_index_overshoots_by_one_at_most total_frames n frame_idx :
  1 <= n <= 3 -> 1 <= total_frames <= 120 -> 0 <= frame_idx < total_frames ->
  exists a,
    assign_segment total_frames n frame_idx = Ok a
    /\ 0 <= seg_index a < n
    /\ 0 <= frame_in_segment a <= frames_in_segment a
    /\ (total_frames mod n = 0 -> frame_in_segment a < frames_in_segment a).
Proof.
  intros Hn Ht Hi.
  set (ok := fun n t i =>
    match assign_segment t n i with
    | Ok a => (0 <=? seg_index a) && (seg_index a <? n)
              && (0 <=? frame_in_segment a) && (frame_in_segment a <=? frames_in_segment a)
              && ((negb (t mod n =? 0)) || (frame_in_segment a <? frames_in_segment a))
    | Raise _ => false
    end).
  assert (Hall : forallb (fun n => forallb (fun t => forallb (ok n t) (seqZ 0 t))
                                           (seqZ 1 120)) (seqZ 1 3) = true)
    by (vm_compute; reflexivity).
  rewrite forallb_forall in Hall. specialize (Hall n).
  rewrite forallb_forall in Hall.
  assert (Hn' : In n (seqZ 1 3)) by (apply list_elem_of_In, elem_of_seqZ; lia).
  specialize (Hall Hn' total_frames). rewrite forallb_forall in Hall.
  assert (Ht' : In total_frames (seqZ 1 120)) by (apply list_elem_of_In, elem_of_seqZ; lia).
  assert (Hi' : In frame_idx (seqZ 0 total_frames))
    by (apply list_elem_of_In, elem_of_seqZ; lia).
  specialize (Hall Ht' frame_idx Hi'). unfold ok in Hall.
  destruct (assign_segment total_frames n frame_idx) as [a|]; [|done].
  exists a. split; [done|]. lia.
Qed.

(** X9: For every frame count up to 120 and plans of one to three effects,
    the effects play in plan order, each over one run of consecutive
    frames: frame 0 is in segment 0, the segment of the next frame is the
    same or the next one, and the last frame is in the last segment (the
    last that has a frame, when there are fewer frames than effects). *)
Theorem effects_play_in_plan_order total_frames n :
  1 <= n <= 3 -> 1 <= total_frames <= 120 ->
  current_segment total_frames n 0 = Ok 0
  /\ current_segment total_frames n (total_frames - 1)
     = Ok (Z.min (n - 1) (total_frames - 1))
  /\ forall frame_idx, 0 <= frame_idx < total_frames - 1 ->
       exists s s', current_segment total_frames n frame_idx = Ok s
                    /\ current_segment total_frames n (frame_idx + 1) = Ok s'
                    /\ s <= s' <= s + 1.
Proof.
  intros Hn Ht.
  set (step := fun n t i =>
    match current_segment t n i, current_segment t n (i + 1) with
    | Ok s, Ok s' => (s <=? s') && (s' <=? s + 1)
    | _, _ => false
    end).
  set (ok := fun n t =>
    bool_decide (current_segment t n 0 = Ok 0)
    && bool_decide (current_segment t n (t - 1) = Ok (Z.min (n - 1) (t - 1)))
    && forallb (step n t) (seqZ 0 (t - 1))).
  assert (Hall : forallb (fun n => forallb (ok n) (seqZ 1 120)) (seqZ 1 3) = true)
    by (vm_compute; reflexivity).
  rewrite forallb_forall in Hall. specialize (Hall n).
  rewrite forallb_forall in Hall.
  assert (Hn' : In n (seqZ 1 3)) by (apply list_elem_of_In, elem_of_seqZ; lia).
  assert (Ht' : In total_frames (seqZ 1 120)) by (apply list_elem_of_In, elem_of_seqZ; lia).
  specialize (Hall Hn' total_frames Ht'). unfold ok in Hall.
  apply andb_prop in Hall as [Hall Hsteps]. apply andb_prop in Hall as [H0 Hlast].
  apply bool_decide_eq_true in H0, Hlast. split; [done|]. split; [done|].
  intros frame_idx Hi. rewrite forallb_forall in Hsteps.
  assert (Hi' : In frame_idx (seqZ 0 (total_frames - 1)))
    by (apply list_elem_of_In, elem_of_seqZ; lia).
  specialize (Hsteps frame_idx Hi'). unfold step in Hsteps.
  destruct (current_segment total_frames n frame_idx) as [s|]; [|done].
  destruct (current_segment total_frames n (frame_idx + 1)) as [s'|]; [|done].
  exists s, s'. split; [done|]. split; [done|]. lia.
Qed.

(** ** Frames handed to the encoder *)

Section WrittenFrames.
Context {K : Kernels} {H : Host}.
Implicit Types (img : loc) (motion_types : list string).

Lemma ensure_bgr_dims frame a w (Q : option (nat * nat) -> Prop) :
  heap w !! frame = Some a -> Q (frame_dims a) ->
  wp (ensure_bgr frame) w
     (fun w' res => trace w' = trace w
                    /\ returns_frame (fun v => Q (frame_dims v)) w' res).
Proof.
  intros Ha HQ. unfold wp. pose proof (ensure_bgr_spec frame a w Ha) as Hspec.
  destruct (to_bgr a) as [v|e] eqn:Hv.
  - destruct Hspec as (w' & l & -> & Hl & Ht). cbn [fst snd]. split; [done|].
    exists v. split; [done|]. by rewrite (to_bgr_dims a v Hv).
  - by rewrite Hspec.
Qed.

Lemma synthesize_frame_size img motion_types total_frames frame_idx w r :
  heap w !! img = Some r ->
  "360-pan"%string ∉ motion_types -> "tilt-shift"%string ∉ motion_types ->
  wp (synthesize_frame img motion_types total_frames frame_idx) w
     (fun w' res => trace w' = trace w
                    /\ returns_frame (fun v => frame_dims v = frame_dims r) w' res).
Proof.
  intros Hr Hpan Htilt. unfold synthesize_frame.
  apply wp_bind. unfold ndarray_copy. apply wp_bind. eapply wp_load; [exact Hr|].
  apply wp_alloc.
  set (w1 := {| heap := heap w ++ [r]; trace := trace w; clock := clock w |}).
  assert (H1 : heap w1 !! length (heap w) = Some r) by (by apply list_lookup_middle).
  apply wp_bind. apply wp_lift.
  destruct (current_segment _ _ _) as [s|e]; [|done].
  apply wp_bind. apply wp_lift.
  destruct (list_index motion_types s) as [mt|e] eqn:Hmt; [|done].
  apply list_index_elem in Hmt.
  apply wp_bind.
  destruct (dict_get motion_functions mt) as [[f|]|] eqn:Hf.
  - apply wp_bind. apply wp_lift. destruct (segment_start _ _ _) as [a0|e]; [|done].
    apply wp_bind. apply wp_lift. destruct (segment_end _ _ _) as [b0|e]; [|done].
    pose proof (motion_functions_size mt f (length (heap w)) (frame_idx - a0) (b0 - a0)
                  w1 r Hf) as Hsize.
    pose proof (motion_functions_safe mt f Hf 0%nat no_event (length (heap w))
                  (frame_idx - a0) (b0 - a0) w1 ltac:(lia)) as [Hk _].
    apply keeps_no_event in Hk. unfold wp in *.
    destruct (f _ _ _ w1) as [w2 [l2|e]]; cbn [fst snd] in *; [|by rewrite Hk].
    destruct Hsize as (a2 & Ha2 & Hd & _); [by intros ->|by intros ->|done|].
    pose proof (ensure_bgr_dims l2 a2 w2 (fun d => d = frame_dims r) Ha2 Hd) as He.
    unfold wp in He. destruct He as [Ht Hres]. split; [by rewrite Ht, Hk|done].
  - apply wp_ret. by apply (ensure_bgr_dims _ r w1 (fun d => d = frame_dims r)).
  - apply wp_ret. by apply (ensure_bgr_dims _ r w1 (fun d => d = frame_dims r)).
Qed.

Lemma write_frame_size output_path img motion_types total_frames frame_idx w r :
  heap w !! img = Some r ->
  "360-pan"%string ∉ motion_types -> "tilt-shift"%string ∉ motion_types ->
  Forall (sized_as r)
    (new_events w (write_frame output_path img motion_types total_frames frame_idx w).1).
Proof.
  intros Hr Hpan Htilt.
  pose proof (synthesize_frame_size img motion_types total_frames frame_idx w r
                Hr Hpan Htilt) as Hs.
  unfold wp in Hs. unfold write_frame. rewrite M_bind_eq.
  destruct (synthesize_frame _ _ _ _ w) as [w1 [frame|e]]; cbn [fst snd] in *.
  - destruct Hs as (Ht & v & Hv & Hd).
    rewrite M_bind_eq. unfold load. rewrite Hv. rewrite M_bind_eq. unfold raise_if.
    destruct (VideoWriter_write output_path frame_idx).
    + unfold new_events. cbn [fst]. by rewrite Ht, drop_all.
    + unfold new_events. cbn [fst emit trace]. rewrite Ht, drop_app_length.
      constructor; [|done]. intros p f [= <- <-]. split; [done|].
      apply astype_uint8_is_uint8.
  - destruct Hs as [Ht _]. unfold new_events. by rewrite Ht, drop_all.
Qed.

(** X10: Every frame handed to the encoder is an 8-bit frame of the preset's
    width and height, when the plan uses neither the 360-degree pan nor
    the tilt-shift. *)
Theorem written_frames_have_preset_size input_dir output_dir (motion_types : motion_arg)
    video_duration fps quality progress_callback w p f width height :
  "360-pan"%string ∉ effective_motion_types motion_types ->
  "tilt-shift"%string ∉ effective_motion_types motion_types ->
  target_size_of (effective_quality quality) = Ok (width, height) ->
  EvWrite p f ∈ new_events w
    (create_video_per_image_with_motion input_dir output_dir motion_types video_duration
       fps quality progress_callback w).1 ->
  frame_dims f = Some (Z.to_nat width, Z.to_nat height) /\ is_uint8 f.
Proof.
  intros Hpan Htilt Htarget Hin.
  pose proof (create_video_spec sized_as input_dir output_dir motion_types video_duration
                fps quality progress_callback w) as Hspec.
  unfold wp in Hspec. destruct Hspec as (evs & Ht & Hw & _).
  { intros target_size total_frames img_path a r img i w' _ _ _ _ Hr.
    by apply write_frame_size. }
  rewrite (new_events_app _ _ _ Ht) in Hin.
  specialize (Hw _ Htarget). rewrite Forall_forall in Hw.
  destruct (Hw _ Hin p f eq_refl) as (img_path & a & _ & _ & Hby).
  destruct (Hby p f eq_refl) as (_ & r & Hr & Hsized).
  destruct (Hsized p f eq_refl) as [Hd Hu]. split; [|done].
  rewrite Hd. by rewrite (cv2_resize_dims _ _ _ Hr).
Qed.

End WrittenFrames.

(** ** The events of a batch *)

Lemma length_range n : length (range n) = Z.to_nat n.
Proof. unfold range. apply length_seqZ. Qed.

Lemma release_in_video_events p path fps target_size img_idx total_images frames
    released reported :
  EvRelease p ∈ video_events path fps target_size img_idx total_images frames
                  released reported ->
  p = path /\ released = true.
Proof.
  unfold video_events. rewrite elem_of_cons, !elem_of_app, list_elem_of_fmap.
  intros [?|[(f & ? & _)|[Hr|Hp]]]; try done.
  - destruct released; [|by apply elem_of_nil in Hr].
    apply list_elem_of_singleton in Hr. by injection Hr as ->.
  - destruct reported; [|by apply elem_of_nil in Hp].
    by apply list_elem_of_singleton in Hp.
Qed.

Lemma progress_calls_video_events path fps target_size img_idx total_images frames
    released reported :
  progress_calls (video_events path fps target_size img_idx total_images frames
                    released reported)
  = if reported then [(img_idx + 1, total_images)] else [].
Proof.
  unfold video_events. cbn [progress_calls omap list_omap].
  fold (progress_calls ((EvWrite path <$> frames)
          ++ (if released then [EvRelease path] else [])
          ++ (if reported then [EvProgress (img_idx + 1) total_images] else []))).
  rewrite !progress_calls_app.
  rewrite (progress_calls_writes path).
  2:{ apply Forall_fmap, Forall_true. intros f. by exists f. }
  by destruct released, reported.
Qed.

Ltac video_eq :=
  unfold video_events; cbn [app]; rewrite <- ?app_assoc; cbn [app];
  rewrite ?app_nil_r; reflexivity.

Section BatchRun.
Context {K : Kernels} {H : Host}.
Implicit Types (img : loc) (motion_types : list string) (w : world) (items : list (Z * string)).

Lemma write_frame_run output_path img motion_types total_frames frame_idx w :
  wp (write_frame output_path img motion_types total_frames frame_idx) w
     (fun w' res =>
        match res with
        | Ok _ => VideoWriter_write output_path frame_idx = None
                  /\ exists f, trace w' = trace w ++ [EvWrite output_path f]
        | Raise _ => trace w' = trace w
        end).
Proof.
  unfold wp, write_frame. rewrite M_bind_eq.
  pose proof (safe_synthesize_frame 0 no_event img motion_types total_frames frame_idx w
                ltac:(lia)) as [Hk _].
  apply keeps_no_event in Hk.
  destruct (synthesize_frame _ _ _ _ w) as [w1 [frame|e]]; cbn [fst snd] in *; [|done].
  rewrite M_bind_eq. unfold load. destruct (heap w1 !! frame) as [a|]; [|done].
  rewrite M_bind_eq. unfold raise_if.
  destruct (VideoWriter_write output_path frame_idx); [done|].
  cbn [fst snd emit trace]. split; [done|]. exists (astype_uint8 a). by rewrite Hk.
Qed.

Lemma frame_loop_trace output_path img motion_types total_frames idxs w :
  wp (for_each idxs (write_frame output_path img motion_types total_frames)) w
     (fun w' res =>
        exists frames, trace w' = trace w ++ (EvWrite output_path <$> frames)
          /\ match res with
             | Ok _ => length frames = length idxs
                       /\ Forall (fun j => VideoWriter_write output_path j = None) idxs
             | Raise _ => (length frames < length idxs)%nat
             end).
Proof.
  revert w. induction idxs as [|i idxs IH]; intros w.
  - apply wp_ret. exists []. by rewrite app_nil_r.
  - cbn [for_each]. apply wp_bind. eapply wp_mono; [apply write_frame_run|].
    intros w1 [[]|e] Hrun.
    + destruct Hrun as (Hi & f & Ht). eapply wp_mono; [apply IH|].
      intros w2 res (frames & Ht2 & Hres). exists (f :: frames).
      split; [by rewrite Ht2, Ht, <- app_assoc|].
      destruct res as [[]|e]; cbn [length].
      * destruct Hres as [Hl Hall]. split; [lia|by constructor].
      * lia.
    + exists []. split; [by rewrite app_nil_r|]. cbn [length]. lia.
Qed.

Lemma decode_image_skip img_path w :
  decoded img_path = Ok None ->
  exists rest,
    decode_image img_path w
    = ({| heap := heap w;
          trace := trace w ++ [EvPrint ("Skipping '" +:+ img_path +:+ rest)];
          clock := clock w |}, Ok None).
Proof.
  unfold decoded, decode_image, read_image_with_fallback.
  destruct (cv2_imread img_path) as [img|].
  - destruct (is_bgra img); [|done]. by destruct (cvtColor_BGRA2BGR img).
  - destruct PIL_AVAILABLE.
    + unfold read_with_pillow.
      destruct (arr ← PIL_open_RGB img_path; cvtColor_RGB2BGR arr) as [a|e]; [done|].
      intros _. rewrite !M_bind_eq. cbn. eexists. rewrite !M_bind_eq. reflexivity.
    + intros _. rewrite !M_bind_eq. cbn. eexists. rewrite !M_bind_eq. reflexivity.
Qed.

Lemma process_image_run output_dir motion_types video_duration fps quality target_size
    total_images total_frames progress_callback img_idx img_path a w :
  decoded img_path = Ok (Some a) ->
  wp (process_image output_dir motion_types video_duration fps quality target_size
        total_images total_frames progress_callback img_idx img_path) w
     (fun w' res =>
        exists evs, trace w' = trace w ++ evs
          /\ match res with
             | Ok None => False
             | Ok (Some v) =>
                 image_block output_dir motion_types fps quality target_size total_images
                   total_frames progress_callback (img_idx, img_path) evs
                 /\ describes output_dir motion_types video_duration fps quality
                      target_size img_path v
             | Raise e =>
                 failed_block output_dir motion_types fps quality target_size total_images
                   total_frames progress_callback (img_idx, img_path) e evs
             end).
Proof.
  intros Hdec. unfold process_image, image_block, failed_block, decodes. cbn [fst snd].
  rewrite Hdec.
  set (path := output_path_of output_dir img_path motion_types quality).
  apply wp_bind. unfold wp at 1.
  pose proof (decode_image_spec img_path w) as Hd. rewrite Hdec in Hd. rewrite Hd.
  cbn [fst snd].
  apply wp_bind. eapply wp_load; [by apply list_lookup_middle|].
  apply wp_bind. apply wp_lift.
  destruct (cv2_resize a target_size) as [r|e] eqn:Hr;
    [|exists []; split; [by rewrite app_nil_r|by left]].
  apply wp_bind. apply wp_alloc.
  apply wp_bind. apply wp_raise_if.
  destruct (VideoWriter_open path) as [e|] eqn:Hopen;
    [exists []; split; [by rewrite app_nil_r|by left]|].
  apply wp_bind. apply wp_emit.
  apply wp_bind. eapply wp_mono; [apply frame_loop_trace|].
  intros w4 res (frames & Ht4 & Hres). cbn [trace] in Ht4.
  destruct res as [[]|e].
  2:{ eexists. split; [rewrite Ht4, <- app_assoc; reflexivity|].
      right. exists frames, false, false. split; [done|]. split; [video_eq|].
      rewrite length_range in Hres. split; [lia|]. split; done. }
  destruct Hres as [Hlen Hwrites]. rewrite length_range in Hlen.
  apply wp_bind. apply wp_raise_if.
  destruct (VideoWriter_release path) as [e|] eqn:Hrel.
  { eexists. split; [rewrite Ht4, <- app_assoc; reflexivity|].
    right. exists frames, false, false. split; [done|]. split; [video_eq|].
    split; [lia|]. split; done. }
  assert (Hacc : accepted path total_frames) by done.
  apply wp_bind. apply wp_emit.
  apply wp_bind. apply wp_lift.
  destruct (os_path_getsize path) as [size|e] eqn:Hsize.
  2:{ eexists. split; [cbn [trace]; rewrite Ht4, <- !app_assoc; reflexivity|].
      right. exists frames, true, false. split; [done|]. split; [video_eq|].
      split; [lia|]. split; done. }
  apply wp_bind. apply wp_lift.
  destruct (int_truediv size _) as [file_size|e] eqn:Hmb.
  2:{ eexists. split; [cbn [trace]; rewrite Ht4, <- !app_assoc; reflexivity|].
      right. exists frames, true, false. split; [done|]. split; [video_eq|].
      split; [lia|]. split; done. }
  apply wp_bind. apply wp_tick.
  apply wp_bind.
  destruct progress_callback as [cb|].
  - apply wp_bind. apply wp_emit. apply wp_raise_if.
    destruct (cb _ _) as [e|] eqn:Hcb.
    + eexists. split; [cbn [trace]; rewrite Ht4, <- !app_assoc; reflexivity|].
      right. exists frames, true, true. split; [done|]. split; [video_eq|].
      split; [lia|]. split; [done|]. intros _. split; [done|]. by exists cb.
    + apply wp_ret.
      eexists. split; [cbn [trace]; rewrite Ht4, <- !app_assoc; reflexivity|].
      split.
      * split; [done|]. split; [by intros ? [= <-]|].
        exists frames. split; [done|].
        rewrite bool_decide_eq_true_2 by done. video_eq.
      * repeat (split; [done|]). split; [by exists size, file_size|]. done.
  - apply wp_ret. apply wp_ret.
    eexists. split; [cbn [trace]; rewrite Ht4, <- !app_assoc; reflexivity|].
    split.
    + split; [done|]. split; [done|].
      exists frames. split; [done|].
      rewrite bool_decide_eq_false_2 by (by intros [? ?]). video_eq.
    + repeat (split; [done|]). split; [by exists size, file_size|]. done.
Qed.

Lemma images_loop_run output_dir motion_types video_duration fps quality target_size
    total_images total_frames progress_callback items created_videos w :
  wp (images_loop (process_image output_dir motion_types video_duration fps quality
                     target_size total_images total_frames progress_callback)
                  items created_videos) w
     (fun w' res =>
        exists evs, trace w' = trace w ++ evs
          /\ match res with
             | Ok videos =>
                 exists news, videos = created_videos ++ news
                   /\ batch_outcome output_dir motion_types video_duration fps quality
                        target_size total_images total_frames progress_callback items evs
                        (Ok news)
             | Raise e =>
                 batch_outcome output_dir motion_types video_duration fps quality
                   target_size total_images total_frames progress_callback items evs
                   (Raise e)
             end).
Proof.
  revert created_videos w.
  induction items as [|[img_idx img_path] items IH]; intros created_videos w.
  - apply wp_ret. exists []. split; [by rewrite app_nil_r|].
    exists []. split; [by rewrite app_nil_r|]. exists []. by repeat split.
  - cbn [images_loop]. apply wp_bind.
    destruct (decoded img_path) as [[a|]|e] eqn:Hdec.
    + eapply wp_mono; [by eapply process_image_run|].
      intros w1 res (evs1 & Ht1 & Hres).
      destruct res as [[v|]|e]; [|done|].
      * destruct Hres as [Hblock Hdesc].
        eapply wp_mono; [apply IH|].
        intros w2 res2 (evs2 & Ht2 & Hout).
        exists (evs1 ++ evs2). split; [by rewrite Ht2, Ht1, app_assoc|].
        destruct res2 as [videos|e]; cbn [batch_outcome] in *.
        -- destruct Hout as (news & -> & blocks & -> & Hblocks & Hdescs).
           exists (v :: news). split; [by rewrite <- app_assoc|].
           exists (evs1 :: blocks). split; [done|]. split; [by constructor|].
           cbn [fmap list_fmap snd]. rewrite filter_cons.
           rewrite decide_True by (by unfold decodes; rewrite Hdec). by constructor.
        -- destruct Hout as (completed & item & rest & blocks & partial & -> & -> & Hb & Hf).
           exists ((img_idx, img_path) :: completed), item, rest, (evs1 :: blocks), partial.
           split; [done|]. split; [cbn [concat]; by rewrite app_assoc|]. split; [by constructor|done].
      * exists evs1. split; [done|].
        exists [], (img_idx, img_path), items, [], evs1. by repeat split.
    + destruct (decode_image_skip img_path w Hdec) as [rest Hskip].
      unfold wp at 1. unfold process_image. rewrite M_bind_eq, Hskip. cbn [fst snd].
      eapply wp_mono; [apply IH|].
      intros w2 res2 (evs2 & Ht2 & Hout). unfold mret, M_ret in Ht2. cbn [fst trace] in Ht2.
      exists (EvPrint ("Skipping '" +:+ img_path +:+ rest) :: evs2).
      split; [by rewrite Ht2, <- app_assoc|].
      assert (Hblock : image_block output_dir motion_types fps quality target_size
                         total_images total_frames progress_callback (img_idx, img_path)
                         [EvPrint ("Skipping '" +:+ img_path +:+ rest)]).
      { unfold image_block, decodes. cbn [snd]. rewrite Hdec. split; [done|by exists rest]. }
      destruct res2 as [videos|e]; cbn [batch_outcome] in *.
      * destruct Hout as (news & -> & blocks & -> & Hblocks & Hdescs).
        exists news. split; [done|].
        exists ([EvPrint ("Skipping '" +:+ img_path +:+ rest)] :: blocks).
        split; [done|]. split; [by constructor|].
        cbn [fmap list_fmap snd]. rewrite filter_cons.
        by rewrite decide_False by (by unfold decodes; rewrite Hdec).
      * destruct Hout as (completed & item & rest' & blocks & partial & -> & -> & Hb & Hf).
        exists ((img_idx, img_path) :: completed), item, rest',
          ([EvPrint ("Skipping '" +:+ img_path +:+ rest)] :: blocks), partial.
        split; [done|]. split; [done|]. split; [by constructor|done].
    + unfold wp at 1.
      rewrite (process_image_undecodable _ _ _ _ _ _ _ _ _ _ _ _ _ Hdec). cbn [fst snd].
      exists []. split; [by rewrite app_nil_r|].
      exists [], (img_idx, img_path), items, [], []. repeat split; try done. by left.
Qed.

End BatchRun.

Section CoordinatorRun.
Context {K : Kernels} {H : Host}.

Lemma create_video_run input_dir output_dir motion_types video_duration fps quality
    progress_callback w :
  wp (create_video_per_image_with_motion input_dir output_dir motion_types video_duration
        fps quality progress_callback) w
     (fun w' res =>
        exists evs, trace w' = trace w ++ evs
          /\ run_outcome input_dir output_dir motion_types video_duration fps quality
               progress_callback evs res).
Proof.
  unfold create_video_per_image_with_motion, run_outcome. cbv zeta.
  apply wp_bind. apply wp_raise_if.
  destruct (os_makedirs output_dir) as [e|];
    [exists []; split; [by rewrite app_nil_r|by left]|].
  apply wp_bind. apply wp_emit.
  apply wp_bind. apply wp_lift.
  destruct (target_size_of (effective_quality quality)) as [target_size|e] eqn:Htarget;
    [|exists [EvMakedirs output_dir]; split; [done|by right; left]].
  destruct (collect_images input_dir) as [|img_path0 images] eqn:Himages.
  { apply wp_ret. by exists [EvMakedirs output_dir]. }
  apply wp_bind. apply wp_lift.
  destruct (total_frames_of video_duration fps) as [total_frames|e] eqn:Hframes;
    [|exists [EvMakedirs output_dir]; split; [done|by right; left]].
  apply wp_bind. apply wp_tick.
  apply wp_bind. eapply wp_mono; [apply images_loop_run|].
  intros w1 res (evs & Ht & Hres). cbn [trace] in Ht.
  destruct res as [videos|e].
  - destruct Hres as (news & -> & Hout). rewrite app_nil_l.
    apply wp_bind. apply wp_tick.
    apply wp_bind. apply wp_lift.
    destruct (int_truediv _ _) as [processing_time|e].
    + apply wp_ret. exists (EvMakedirs output_dir :: evs).
      split; [cbn [trace]; by rewrite Ht, <- app_assoc|].
      split; [done|]. repeat (split; [done|]).
      by exists target_size, total_frames, evs.
    + exists (EvMakedirs output_dir :: evs).
      split; [cbn [trace]; by rewrite Ht, <- app_assoc|].
      right. right. exists target_size, total_frames, evs.
      repeat (split; [done|]). right. by exists news.
  - exists (EvMakedirs output_dir :: evs). split; [by rewrite Ht, <- app_assoc|].
    right. right. exists target_size, total_frames, evs.
    repeat (split; [done|]). by left.
Qed.

Lemma empty_input_run_eq input_dir output_dir motion_types video_duration fps quality
    progress_callback w :
  collect_images input_dir = [] -> os_makedirs output_dir = None ->
  create_video_per_image_with_motion input_dir output_dir motion_types video_duration
    fps quality progress_callback w
  = ({| heap := heap w; trace := trace w ++ [EvMakedirs output_dir]; clock := clock w |},
     Ok (RList [])).
Proof.
  intros Himages Hmk. unfold create_video_per_image_with_motion. cbv zeta.
  rewrite Himages. destruct (target_size_of_effective quality) as [target_size Ht].
  rewrite !M_bind_eq. unfold raise_if. rewrite Hmk. cbn [fst snd emit].
  rewrite !M_bind_eq. cbn [fst snd emit]. rewrite !M_bind_eq. unfold lift. by rewrite Ht.
Qed.

Lemma released_in_blocks output_dir plan fps quality target_size total_images total_frames
    progress_callback items blocks p :
  Forall2 (image_block output_dir plan fps quality target_size total_images total_frames
             progress_callback) items blocks ->
  EvRelease p ∈ concat blocks -> accepted p total_frames.
Proof.
  induction 1 as [|item evs items blocks Hb _ IH]; cbn [concat].
  - by intros ?%elem_of_nil.
  - rewrite elem_of_app. intros [Hin|Hin]; [|by apply IH].
    unfold image_block in Hb. destruct (decodes item.2).
    + destruct Hb as (Hacc & _ & frames & _ & ->).
      by apply release_in_video_events in Hin as [-> _].
    + destruct Hb as (_ & rest & ->). by apply list_elem_of_singleton in Hin.
Qed.

Lemma calls_in_blocks output_dir plan fps quality target_size total_images total_frames
    (cb : callback) items blocks :
  Forall2 (image_block output_dir plan fps quality target_size total_images total_frames
             (Some cb)) items blocks ->
  Forall (fun c => cb c.1 c.2 = None) (progress_calls (concat blocks)).
Proof.
  induction 1 as [|item evs items blocks Hb _ IH]; cbn [concat]; [done|].
  rewrite progress_calls_app. apply Forall_app. split; [|done].
  unfold image_block in Hb. destruct (decodes item.2).
  - destruct Hb as (_ & Hcb & frames & _ & ->).
    rewrite progress_calls_video_events. rewrite bool_decide_eq_true_2 by done.
    constructor; [|done]. cbn [fst snd]. by apply Hcb.
  - by destruct Hb as (_ & rest & ->).
Qed.

(** X11: A batch that returns its pair has done this, and nothing else: it
    made the output directory, then for each image in sorted order either
    printed one line naming the image (no decoder read it), or opened the
    stream of the image, wrote [total_frames] frames to it, released it and
    called the callback, if one was given, with the image's 1-based
    position. *)
Theorem completed_batch_events input_dir output_dir motion_types video_duration fps
    quality progress_callback w videos meta :
  (create_video_per_image_with_motion input_dir output_dir motion_types video_duration
     fps quality progress_callback w).2 = Ok (RTuple videos meta) ->
  exists target_size total_frames blocks,
    target_size_of (effective_quality quality) = Ok target_size
    /\ total_frames_of video_duration fps = Ok total_frames
    /\ new_events w
         (create_video_per_image_with_motion input_dir output_dir motion_types
            video_duration fps quality progress_callback w).1
       = EvMakedirs output_dir :: concat blocks
    /\ Forall2 (image_block output_dir (effective_motion_types motion_types) fps
                  (effective_quality quality) target_size
                  (Z.of_nat (length (collect_images input_dir))) total_frames
                  progress_callback)
               (enumerate (collect_images input_dir)) blocks.
Proof.
  intros Hres.
  pose proof (create_video_run input_dir output_dir motion_types video_duration fps quality
                progress_callback w) as Hrun.
  unfold wp in Hrun. rewrite Hres in Hrun.
  destruct Hrun as (evs & Ht & _ & _ & _ & _ & target_size & total_frames & batch_evs
                    & Htarget & Hframes & -> & blocks & -> & Hblocks & _).
  exists target_size, total_frames, blocks.
  by rewrite (new_events_app _ _ _ Ht).
Qed.

(** X12: The list a batch returns holds one record per image a decoder read,
    in sorted order of the images, each naming the video of its image, the
    effective plan and quality, the preset's resolution and the frame
    rate; the metadata counts these records and reports the effective
    plan and quality. *)
Theorem batch_records input_dir output_dir motion_types video_duration fps quality
    progress_callback w videos meta :
  (create_video_per_image_with_motion input_dir output_dir motion_types video_duration
     fps quality progress_callback w).2 = Ok (RTuple videos meta) ->
  (exists target_size,
     target_size_of (effective_quality quality) = Ok target_size
     /\ Forall2 (describes output_dir (effective_motion_types motion_types) video_duration
                   fps (effective_quality quality) target_size)
                (filter (fun p => decodes p = true) (collect_images input_dir)) videos)
  /\ (length videos <= length (collect_images input_dir))%nat
  /\ md_videos_created meta = Z.of_nat (length videos)
  /\ md_quality meta = effective_quality quality
  /\ md_motion_effects meta = effective_motion_types motion_types.
Proof.
  intros Hres.
  pose proof (create_video_run input_dir output_dir motion_types video_duration fps quality
                progress_callback w) as Hrun.
  unfold wp in Hrun. rewrite Hres in Hrun.
  destruct Hrun as (evs & Ht & _ & Hcount & Hq & Hplan & target_size & total_frames
                    & batch_evs & Htarget & Hframes & -> & blocks & -> & Hblocks & Hdesc).
  rewrite enumerate_from_0, enumerate_from_snd in Hdesc.
  split; [by exists target_size|]. split; [|done].
  rewrite <- (Forall2_length _ _ _ Hdesc). apply length_filter.
Qed.

(** X13: The release of a stream is reached only after every [write] call
    of the stream has returned: when the call of [write] for one of its
    frames raises, the stream is never released (no handler closes it),
    whatever the batch does before it raises. *)
Theorem failed_stream_is_never_released input_dir output_dir motion_types video_duration
    fps quality progress_callback w total_frames p j :
  total_frames_of video_duration fps = Ok total_frames ->
  0 <= j < total_frames ->
  VideoWriter_write p j ≠ None ->
  EvRelease p ∉ new_events w
    (create_video_per_image_with_motion input_dir output_dir motion_types video_duration
       fps quality progress_callback w).1.
Proof.
  intros Hframes Hj Hfail Hin.
  assert (Hno : ~ accepted p total_frames).
  { intros (_ & Hall & _). rewrite Forall_forall in Hall. apply Hfail, Hall.
    apply elem_of_seqZ. lia. }
  pose proof (create_video_run input_dir output_dir motion_types video_duration fps quality
                progress_callback w) as Hrun.
  unfold wp in Hrun. destruct Hrun as (evs & Ht & Hout).
  rewrite (new_events_app _ _ _ Ht) in Hin. unfold run_outcome in Hout.
  destruct (create_video_per_image_with_motion _ _ _ _ _ _ _ w).2 as [[videos|videos meta]|e].
  - destruct Hout as (_ & _ & ->). by apply list_elem_of_singleton in Hin.
  - destruct Hout as (_ & _ & _ & _ & target_size & tf & batch_evs & _ & Htf & ->
                      & blocks & -> & Hblocks & _).
    rewrite Hframes in Htf. injection Htf as <-.
    apply elem_of_cons in Hin as [?|Hin]; [done|].
    by eapply Hno, released_in_blocks.
  - destruct Hout as [->|[->|(target_size & tf & batch_evs & _ & Htf & -> & Hb)]].
    + by apply elem_of_nil in Hin.
    + by apply list_elem_of_singleton in Hin.
    + rewrite Hframes in Htf. injection Htf as <-.
      apply elem_of_cons in Hin as [?|Hin]; [done|].
      destruct Hb as [(completed & item & rest & blocks & partial & _ & -> & Hblocks & Hf)
                     |(videos & blocks & -> & Hblocks & _)].
      * apply elem_of_app in Hin as [Hin|Hin]; [by eapply Hno, released_in_blocks|].
        destruct Hf as [->|(frames & released & reported & _ & -> & _ & Hrel & _)];
          [by apply elem_of_nil in Hin|].
        apply release_in_video_events in Hin as [-> Hr].
        by destruct (Hrel Hr) as [_ Hacc].
      * by eapply Hno, released_in_blocks.
Qed.

(** X14: A batch returns only if every call of the progress callback
    returned: a callback that raises makes the batch raise. *)
Theorem batch_returns_only_if_callbacks_return input_dir output_dir motion_types
    video_duration fps quality (cb : callback) w res :
  (create_video_per_image_with_motion input_dir output_dir motion_types video_duration
     fps quality (Some cb) w).2 = Ok res ->
  Forall (fun c => cb c.1 c.2 = None)
    (progress_calls
       (new_events w
          (create_video_per_image_with_motion input_dir output_dir motion_types
             video_duration fps quality (Some cb) w).1)).
Proof.
  intros Hres.
  pose proof (create_video_run input_dir output_dir motion_types video_duration fps quality
                (Some cb) w) as Hrun.
  unfold wp in Hrun. rewrite Hres in Hrun. destruct Hrun as (evs & Ht & Hout).
  rewrite (new_events_app _ _ _ Ht). unfold run_outcome in Hout.
  destruct res as [videos|videos meta].
  - by destruct Hout as (_ & _ & ->).
  - destruct Hout as (_ & _ & _ & _ & target_size & tf & batch_evs & _ & _ & ->
                      & blocks & -> & Hblocks & _).
    cbn [progress_calls omap list_omap]. by eapply calls_in_blocks.
Qed.

End CoordinatorRun.

(** ** The batch: claims on every run *)

Section RunClaims.
Context {K : Kernels} {H : Host}.
Implicit Types (motion_types : list string) (items : list (Z * string)).







Lemma record_of_decoded output_dir motion_types video_duration fps quality target_size
    (paths : list string) videos img_path :
  Forall2 (describes output_dir motion_types video_duration fps quality target_size)
    (filter (fun p => decodes p = true) paths) videos ->
  img_path ∈ paths -> decodes img_path = true ->
  exists v, v ∈ videos /\ vi_path v = output_path_of output_dir img_path motion_types quality.
Proof.
  intros Hdesc Hin Hdec.
  assert (Hf : img_path ∈ filter (fun p => decodes p = true) paths)
    by (by apply list_elem_of_filter).
  apply list_elem_of_lookup in Hf as [i Hi].
  destruct (Forall2_lookup_l _ _ _ _ _ Hdesc Hi) as (v & Hv & Hd).
  exists v. split; [by eapply list_elem_of_lookup_2|]. by destruct Hd as [? _].
Qed.

Lemma release_of_decoded output_dir motion_types fps quality target_size total_images
    total_frames progress_callback items blocks i img_path :
  Forall2 (image_block output_dir motion_types fps quality target_size total_images
             total_frames progress_callback) items blocks ->
  (i, img_path) ∈ items -> decodes img_path = true ->
  EvRelease (output_path_of output_dir img_path motion_types quality) ∈ concat blocks.
Proof.
  induction 1 as [|item evs items blocks Hb _ IH]; [by intros ?%elem_of_nil|].
  intros Hin Hdec. cbn [concat]. apply elem_of_app.
  apply elem_of_cons in Hin as [<-|Hin]; [left|right; by apply IH].
  unfold image_block in Hb. cbn [fst snd] in Hb. rewrite Hdec in Hb.
  destruct Hb as (_ & _ & frames & _ & ->).
  unfold video_events. rewrite elem_of_cons, !elem_of_app.
  right. right. left. by apply list_elem_of_singleton.
Qed.

(** C2 (stated as: a stream that cannot be opened, or a frame write that
    fails, is fatal for the batch and propagates to the caller).  The
    code never asks the writer whether its stream is open and [write]
    hands back nothing: no run depends on the encoder's silent state, and
    a batch that returns hands back the record of a video whose encoding
    failed, having released its stream, as for a video that was written. *)
Theorem encoding_failure_is_not_reported :
  (forall opened stored input_dir output_dir (motion_types : motion_arg) video_duration fps
          quality progress_callback w,
     create_video_per_image_with_motion (H := with_encoder H opened stored) input_dir
       output_dir motion_types video_duration fps quality progress_callback w
     = create_video_per_image_with_motion input_dir output_dir motion_types video_duration
         fps quality progress_callback w)
  /\ (forall input_dir output_dir (motion_types : motion_arg) video_duration fps quality
             progress_callback w videos meta total_frames img_path,
        let path := output_path_of output_dir img_path (effective_motion_types motion_types)
                      (effective_quality quality) in
        (create_video_per_image_with_motion input_dir output_dir motion_types
           video_duration fps quality progress_callback w).2 = Ok (RTuple videos meta) ->
        total_frames_of video_duration fps = Ok total_frames ->
        img_path ∈ collect_images input_dir ->
        decodes img_path = true ->
        encoding_failed path total_frames ->
        (exists v, v ∈ videos /\ vi_path v = path)
        /\ EvRelease path
           ∈ new_events w
               (create_video_per_image_with_motion input_dir output_dir motion_types
                  video_duration fps quality progress_callback w).1).
Proof.
  split; [reflexivity|].
  intros input_dir output_dir motion_types video_duration fps quality progress_callback w
    videos meta total_frames img_path path Hres _ Hin Hdec _.
  pose proof (create_video_run input_dir output_dir motion_types video_duration fps quality
                progress_callback w) as Hrun.
  unfold wp in Hrun. rewrite Hres in Hrun.
  destruct Hrun as (evs & Ht & _ & _ & _ & _ & target_size & tf & batch_evs & _ & _ & ->
                    & blocks & -> & Hblocks & Hdesc).
  rewrite enumerate_from_0, enumerate_from_snd in Hdesc.
  split; [by eapply record_of_decoded|].
  rewrite (new_events_app _ _ _ Ht). right.
  apply list_elem_of_lookup in Hin as [i Hi].
  eapply (release_of_decoded _ _ _ _ _ _ _ _ _ _ (Z.of_nat i)); [exact Hblocks| |done].
  apply elem_of_lookup_imap. by exists i, img_path.
Qed.


End RunClaims.

(** ** The web front end *)

Section AppLogic.
Context {A B : Type}.

Lemma App_bind_eq (m : App A) (f : A -> App B) s :
  (m ≫= f) s = match m s with (s', Ok a) => f a s' | (s', Raise e) => (s', Raise e) end.
Proof. reflexivity. Qed.

Lemma awp_bind (m : App A) (f : A -> App B) s post :
  awp m s (fun s' r => match r with
                       | Ok a => awp (f a) s' post
                       | Raise e => post s' (Raise e)
                       end) ->
  awp (m ≫= f) s post.
Proof. unfold awp. rewrite App_bind_eq. by destruct (m s) as [s' [a|e]]. Qed.

Lemma awp_mono (m : App A) s (post post' : jobs * world -> exc A -> Prop) :
  awp m s post -> (forall s' r, post s' r -> post' s' r) -> awp m s post'.
Proof. unfold awp. auto. Qed.

Lemma awp_lift (r : exc A) s post : post s r -> awp (app_lift r) s post.
Proof. done. Qed.

End AppLogic.

Lemma awp_set_item job_id key v s j post :
  s.1 !! job_id = Some j ->
  post (<[job_id := <[key := v]> j]> s.1, s.2) (Ok tt) ->
  awp (set_item job_id key v) s post.
Proof. intros Hj Hp. unfold awp, set_item. by rewrite Hj. Qed.

Lemma awp_try_except (body : App unit) (handler : exn -> App unit) s post :
  awp body s (fun s' r => match r with
                          | Ok a => post s' (Ok a)
                          | Raise e => awp (handler e) s' post
                          end) ->
  awp (try_except body handler) s post.
Proof. unfold awp, try_except. by destruct (body s) as [s' [[]|e]]. Qed.

Lemma tracks_refl job_id j J : J !! job_id = Some j -> tracks job_id j J J.
Proof. intros Hj. split; [done|]. by exists j. Qed.

Lemma tracks_set job_id key v j j1 J J1 :
  key ∈ worker_keys -> tracks job_id j J J1 -> J1 !! job_id = Some j1 ->
  tracks job_id j J (<[job_id := <[key := v]> j1]> J1).
Proof.
  intros Hkey [Hother (j' & Hj' & Hkeep & Hsome)] Hj1.
  rewrite Hj1 in Hj'. injection Hj' as <-. split.
  - intros id Hid. rewrite lookup_insert_ne by done. by apply Hother.
  - exists (<[key := v]> j1). split; [by rewrite lookup_insert_eq|]. split.
    + intros k Hk. rewrite lookup_insert_ne; [by apply Hkeep|]. by intros ->.
    + intros k Hk. destruct (decide (key = k)) as [->|Hne].
      * rewrite lookup_insert_eq. by eexists.
      * rewrite lookup_insert_ne by done. by apply Hsome.
Qed.

Lemma tracks_update job_id j J J2 j2 j3 :
  tracks job_id j J J2 -> J2 !! job_id = Some j2 ->
  (forall k, k ∉ worker_keys -> j3 !! k = j2 !! k) ->
  (forall k, is_Some (j2 !! k) -> is_Some (j3 !! k)) ->
  tracks job_id j J (<[job_id := j3]> J2).
Proof.
  intros [Hother (j' & Hj' & Hkeep & Hsome)] Hj2 Hk Hs.
  rewrite Hj2 in Hj'. injection Hj' as <-. split.
  - intros id Hid. rewrite lookup_insert_ne by done. by apply Hother.
  - exists j3. split; [by rewrite lookup_insert_eq|]. split.
    + intros k Hk'. rewrite Hk by done. by apply Hkeep.
    + intros k Hk'. by apply Hs, Hsome.
Qed.

Ltac worker_keys_kept :=
  let k := fresh "k" in let Hk := fresh "Hk" in
  intros k Hk; unfold worker_keys in Hk;
  rewrite ?lookup_insert_ne; [done|intros <-; apply Hk, list_elem_of_In; simpl; tauto..].

Ltac worker_keys_some :=
  let k := fresh "k" in let Hk := fresh "Hk" in
  intros k Hk;
  repeat (rewrite lookup_insert; case_decide; [by eexists|]); done.

Section Worker.
Context {K : Kernels} {H : Host} {S : Server}.

Lemma stores_tracks job_id j J calls J1 :
  tracks job_id j J J1 ->
  tracks job_id j J (foldl (job_progress_stores job_id) J1 calls).
Proof.
  revert J1. induction calls as [|c calls IH]; intros J1 Ht; [done|].
  cbn [foldl]. apply IH. unfold job_progress_stores.
  destruct (progress_percent c.1 c.2) as [p|e]; [|done].
  destruct (J1 !! job_id) as [j1|] eqn:Hj1; [|done].
  apply tracks_set; [|done..]. apply list_elem_of_In. simpl. tauto.
Qed.

Lemma stores_job job_id J1 j1 calls :
  J1 !! job_id = Some j1 ->
  exists j2,
    foldl (job_progress_stores job_id) J1 calls !! job_id = Some j2
    /\ j2 !! "progress"%string = reported_progress calls (j1 !! "progress"%string)
    /\ forall k, k ≠ "progress"%string -> j2 !! k = j1 !! k.
Proof.
  revert J1 j1. induction calls as [|c calls IH]; intros J1 j1 Hj1.
  - by exists j1.
  - cbn [foldl]. unfold reported_progress. cbn [foldl]. unfold job_progress_stores at 2.
    destruct (progress_percent c.1 c.2) as [p|e].
    + rewrite Hj1.
      destruct (IH (<[job_id := <["progress"%string := VInt p]> j1]> J1)
                   (<["progress"%string := VInt p]> j1)) as (j2 & Hj2 & Hp & Hk);
        [by rewrite lookup_insert_eq|].
      exists j2. split; [done|]. split.
      * rewrite Hp. by rewrite lookup_insert_eq.
      * intros k Hne. rewrite (Hk k Hne). by rewrite lookup_insert_ne.
    + by apply IH.
Qed.

Lemma error_handler_run job_id e J2 j2 w2 :
  J2 !! job_id = Some j2 ->
  (set_item job_id "status" (VStr "error");;
   set_item job_id "message" (VStr (str_of_exn e))) (J2, w2)
  = ((<[job_id := <["message"%string := VStr (str_of_exn e)]>
                    (<["status"%string := VStr "error"]> j2)]> J2, w2), Ok tt).
Proof.
  intros Hj2. rewrite App_bind_eq. unfold set_item. cbn [fst snd]. rewrite Hj2.
  cbn [fst snd]. rewrite lookup_insert_eq. by rewrite insert_insert_eq.
Qed.

Lemma batch_worker_run job_id input_dir motion_types quality fps duration J j w :
  J !! job_id = Some j ->
  awp (batch_worker job_id input_dir motion_types quality fps duration) (J, w)
    (fun s' r =>
       r = Ok tt
       /\ s'.2 = (worker_attempt input_dir motion_types quality fps duration w).1
       /\ tracks job_id j J s'.1
       /\ exists j',
            s'.1 !! job_id = Some j'
            /\ match (worker_attempt input_dir motion_types quality fps duration w).2 with
               | Ok (VVideos videos, VMeta meta) =>
                   j' !! "status"%string = Some (VStr "done")
                   /\ j' !! "progress"%string = Some (VInt 100)
                   /\ j' !! "output"%string = Some (VVideos videos)
                   /\ j' !! "metadata"%string = Some (VMeta meta)
                   /\ j' !! "message"%string
                      = Some (VStr ("Successfully created "
                                    +:+ pretty (Z.of_nat (length videos))
                                    +:+ " videos in "
                                    +:+ str_of_float (md_total_processing_time meta)
                                    +:+ "s"))
               | Ok _ => j' !! "status"%string = Some (VStr "error")
               | Raise e =>
                   j' !! "status"%string = Some (VStr "error")
                   /\ j' !! "message"%string = Some (VStr (str_of_exn e))
                   /\ j' !! "output"%string = j !! "output"%string
                   /\ j' !! "metadata"%string = j !! "metadata"%string
                   /\ j' !! "progress"%string
                      = reported_progress
                          (progress_calls
                             (new_events w
                                (worker_attempt input_dir motion_types quality fps
                                   duration w).1))
                          (j !! "progress"%string)
               end).
Proof.
  intros Hj. unfold batch_worker, worker_attempt. cbv zeta.
  fold (worker_input_path input_dir).
  assert (Hh : forall e J2 j2 w2 post,
            J2 !! job_id = Some j2 ->
            post (<[job_id := <["message"%string := VStr (str_of_exn e)]>
                                (<["status"%string := VStr "error"]> j2)]> J2, w2) (Ok tt) ->
            awp (set_item job_id "status" (VStr "error");;
                 set_item job_id "message" (VStr (str_of_exn e))) (J2, w2) post).
  { intros e J2 j2 w2 post Hj2 Hpost. unfold awp.
    by rewrite (error_handler_run job_id e J2 j2 w2 Hj2). }
  apply awp_try_except.
  apply awp_bind. eapply awp_set_item; [exact Hj|]. cbn [fst snd].
  set (j1 := <["status"%string := VStr "running"]> j).
  set (J1 := <[job_id := j1]> J).
  assert (Hj1 : J1 !! job_id = Some j1) by (by unfold J1; rewrite lookup_insert_eq).
  assert (Ht1 : tracks job_id j J J1).
  { apply (tracks_update job_id j J J j j1); [by apply tracks_refl|done|..];
      unfold j1; [worker_keys_kept|worker_keys_some]. }
  apply awp_bind. apply awp_lift.
  destruct (py_float duration) as [video_duration|e].
  2:{ apply (Hh e J1 j1 w _ Hj1). cbn [fst snd].
      split; [done|]. split; [done|]. split.
      - apply (tracks_update job_id j J J1 j1); [done|done|worker_keys_kept|worker_keys_some].
      - eexists. split; [by rewrite lookup_insert_eq|]. unfold j1.
        simplify_map_eq. unfold new_events. by rewrite drop_all. }
  apply awp_bind. apply awp_lift.
  destruct (py_int fps) as [fps'|e].
  2:{ apply (Hh e J1 j1 w _ Hj1). cbn [fst snd].
      split; [done|]. split; [done|]. split.
      - apply (tracks_update job_id j J J1 j1); [done|done|worker_keys_kept|worker_keys_some].
      - eexists. split; [by rewrite lookup_insert_eq|]. unfold j1.
        simplify_map_eq. unfold new_events. by rewrite drop_all. }
  apply awp_bind. unfold awp at 1, convert. cbn [fst snd].
  rewrite Hj1. rewrite bool_decide_eq_true_2 by (by eexists).
  destruct (create_video_per_image_with_motion _ _ _ _ _ _ _ w) as [w' r] eqn:Hrun.
  cbn [fst snd].
  set (calls := progress_calls (new_events w w')).
  destruct (stores_job job_id J1 j1 calls Hj1) as (j2 & Hj2 & Hp2 & Hk2).
  pose proof (stores_tracks job_id j J calls J1 Ht1) as Ht2.
  set (J2 := foldl (job_progress_stores job_id) J1 calls) in *.
  assert (Herr : forall e,
    tracks job_id j J
      (<[job_id := <["message"%string := VStr (str_of_exn e)]>
                     (<["status"%string := VStr "error"]> j2)]> J2)
    /\ exists j',
         <[job_id := <["message"%string := VStr (str_of_exn e)]>
                       (<["status"%string := VStr "error"]> j2)]> J2 !! job_id = Some j'
         /\ j' !! "status"%string = Some (VStr "error")
         /\ j' !! "message"%string = Some (VStr (str_of_exn e))
         /\ j' !! "output"%string = j !! "output"%string
         /\ j' !! "metadata"%string = j !! "metadata"%string
         /\ j' !! "progress"%string = reported_progress calls (j !! "progress"%string)).
  { intros e. split.
    - apply (tracks_update job_id j J J2 j2); [done|done|worker_keys_kept|worker_keys_some].
    - eexists. split; [by rewrite lookup_insert_eq|]. simplify_map_eq.
      rewrite !Hk2 by done. rewrite Hp2. unfold j1. by simplify_map_eq. }
  destruct r as [result|e]; cbn [mbind exc_bind].
  2:{ apply (Hh e J2 j2 w' _ Hj2). cbn [fst snd].
      split; [done|]. split; [done|]. apply Herr. }
  apply awp_bind. apply awp_lift.
  destruct (unpack_pair result) as [[videos metadata]|e] eqn:Hun.
  2:{ apply (Hh e J2 j2 w' _ Hj2). cbn [fst snd].
      split; [done|]. split; [done|]. apply Herr. }
  apply awp_bind. eapply awp_set_item; [exact Hj2|]. cbn [fst snd].
  apply awp_bind. eapply awp_set_item; [cbn [fst]; by rewrite lookup_insert_eq|]. cbn [fst snd].
  apply awp_bind. eapply awp_set_item; [cbn [fst]; by rewrite lookup_insert_eq|]. cbn [fst snd].
  apply awp_bind. eapply awp_set_item; [cbn [fst]; by rewrite lookup_insert_eq|]. cbn [fst snd].
  rewrite !insert_insert_eq.
  set (j3 := <["metadata"%string := metadata]>
               (<["output"%string := videos]>
                  (<["progress"%string := VInt 100]>
                     (<["status"%string := VStr "done"]> j2)))).
  set (J3 := <[job_id := j3]> J2).
  assert (Hj3 : J3 !! job_id = Some j3) by (by unfold J3; rewrite lookup_insert_eq).
  assert (Ht3 : tracks job_id j J J3).
  { apply (tracks_update job_id j J J2 j2); [done|done|..];
      unfold j3; [worker_keys_kept|worker_keys_some]. }
  apply awp_bind. apply awp_lift.
  destruct (py_len videos) as [n|e] eqn:Hlen.
  2:{ apply (Hh e J3 j3 w' _ Hj3). cbn [fst snd].
      split; [done|]. split; [done|]. split.
      - apply (tracks_update job_id j J J3 j3); [done|done|worker_keys_kept|worker_keys_some].
      - eexists. split; [by rewrite lookup_insert_eq|].
        destruct result as [[|v1 [|v2 [|]]]|vs meta]; try done;
          injection Hun as <- <-; try done; by simplify_map_eq. }
  apply awp_bind. apply awp_lift.
  destruct (total_processing_time_of metadata) as [t|e] eqn:Htime.
  2:{ apply (Hh e J3 j3 w' _ Hj3). cbn [fst snd].
      split; [done|]. split; [done|]. split.
      - apply (tracks_update job_id j J J3 j3); [done|done|worker_keys_kept|worker_keys_some].
      - eexists. split; [by rewrite lookup_insert_eq|].
        destruct result as [[|v1 [|v2 [|]]]|vs meta]; try done;
          injection Hun as <- <-; try done; by simplify_map_eq. }
  eapply awp_set_item; [exact Hj3|]. cbn [fst snd].
  split; [done|]. split; [done|]. split.
  { apply (tracks_update job_id j J J3 j3); [done|done|worker_keys_kept|worker_keys_some]. }
  eexists. split; [by rewrite lookup_insert_eq|].
  destruct result as [[|v1 [|v2 [|]]]|vs meta]; try done; injection Hun as <- <-;
    [done|].
  cbn in Hlen, Htime. injection Hlen as <-. injection Htime as <-.
  unfold j3. by simplify_map_eq.
Qed.

(** X15: Every effect the page offers is one the converter recognizes, and
    every effect the converter recognizes is offered; every quality the
    page offers is a preset, and the resolution shown for it is the
    resolution the converter records for that preset. *)
Theorem page_options_match_converter :
  (forall mt, dict_mem MOTION_EFFECTS mt = true <-> recognized mt)
  /\ (forall q, dict_get QUALITY_OPTIONS q
                = match dict_get QUALITY_PRESETS q with
                  | Some (width, height, _) => Some (pretty width +:+ "x" +:+ pretty height)
                  | None => None
                  end).
Proof.
  split.
  - intros mt. unfold recognized, dict_mem. by rewrite !bool_decide_eq_true.
  - intros q. unfold QUALITY_OPTIONS, QUALITY_PRESETS, dict_get.
    repeat case_decide; try done; vm_compute; reflexivity.
Qed.

(** X16: [/batch-start] stores a fresh record under the job id made from the
    clock, replacing any record under that id and touching no other; the
    record is queued with progress 0 and no output, a bare effect name is
    kept as a one-element list, absent fields take their defaults; the
    worker, started with the same values, finds its job, and [/status]
    reports it; an id that is not in [JOBS] gets a 404. *)
Theorem batch_start_queues_job (data : request) (J : jobs) w :
  let job_id := strftime_id (datetime_now (clock w)) in
  let names := match default (MSeq ["subtle"%string]) (req_motion_types data) with
               | MStr s => [s]
               | MSeq l => l
               end in
  exists args J',
    (batch_start data (J, w)).2 = Ok args
    /\ (batch_start data (J, w)).1.1 = J'
    /\ heap (batch_start data (J, w)).1.2 = heap w
    /\ Forall (fun e => exists msg, e = EvPrint msg)
         (new_events w (batch_start data (J, w)).1.2)
    /\ wa_job_id args = job_id
    /\ wa_input_dir args = default "Input"%string (req_input_dir data)
    /\ wa_motion_types args = MSeq names
    /\ wa_quality args = default "1080p"%string (req_quality data)
    /\ wa_fps args = default (NInt 10) (req_fps data)
    /\ wa_duration args = default (NInt 5) (req_duration data)
    /\ (forall id, id ≠ job_id -> J' !! id = J !! id)
    /\ is_Some (J' !! job_id)
    /\ status job_id J'
       = Ok (200,
             {[ "status" := VStr "queued";
                "progress" := VInt 0;
                "message" := VStr "Job queued";
                "motion_types" := VNames names;
                "quality" := VStr (wa_quality args);
                "fps" := VNum (wa_fps args);
                "duration" := VNum (wa_duration args);
                "output_count" := VInt 0;
                "start_time" := VStr (strftime (datetime_now (Datatypes.S (clock w)))) ]}%string)
    /\ (forall id, J' !! id = None ->
          status id J' = Ok (404, {[ "error"%string := VStr "Job not found" ]})).
Proof.
  intros job_id names.
  exists {| wa_job_id := job_id;
            wa_input_dir := default "Input"%string (req_input_dir data);
            wa_motion_types := MSeq names;
            wa_quality := default "1080p"%string (req_quality data);
            wa_fps := default (NInt 10) (req_fps data);
            wa_duration := default (NInt 5) (req_duration data) |},
         (<[job_id :=
              {[ "status" := VStr "queued";
                 "progress" := VInt 0;
                 "output" := VVideos [];
                 "message" := VStr "Job queued";
                 "motion_types" := VNames names;
                 "quality" := VStr (default "1080p"%string (req_quality data));
                 "fps" := VNum (default (NInt 10) (req_fps data));
                 "duration" := VNum (default (NInt 5) (req_duration data));
                 "start_time" := VStr (strftime (datetime_now (Datatypes.S (clock w))))
              ]}%string]> J).
  split; [reflexivity|]. split; [reflexivity|]. split; [reflexivity|].
  split.
  { eassert (Ht : trace (batch_start data (J, w)).1.2
                   = trace w ++ [EvPrint _; EvPrint _; EvPrint _]).
    { unfold batch_start. cbv zeta. rewrite !App_bind_eq. cbn [app_run emit fst snd trace].
      rewrite !App_bind_eq. cbn [app_run emit fst snd trace].
      rewrite !App_bind_eq. cbn [app_run emit tick put_job fst snd trace].
      rewrite <- !app_assoc. reflexivity. }
    rewrite (new_events_app _ _ _ Ht). repeat (constructor; [by eexists|]). constructor. }
  cbn [wa_job_id wa_input_dir wa_motion_types wa_quality wa_fps wa_duration fst snd].
  repeat (split; [done|]). split; [|split; [|split]].
  - intros id Hid. by rewrite lookup_insert_ne.
  - rewrite lookup_insert_eq. by eexists.
  - unfold status. rewrite lookup_insert_eq. unfold get_item.
    by simplify_map_eq.
  - intros id Hid. unfold status. by rewrite Hid.
Qed.

(** X17: The worker never lets an exception escape when its job is tracked:
    it returns, the job ends in state [done] or [error], no other job is
    touched, and no key of the job record is lost or changed but the five
    the worker writes. *)
Theorem batch_worker_contains_failures job_id input_dir motion_types quality fps duration
    (J : jobs) (j : job) w :
  J !! job_id = Some j ->
  (batch_worker job_id input_dir motion_types quality fps duration (J, w)).2 = Ok tt
  /\ tracks job_id j J
       (batch_worker job_id input_dir motion_types quality fps duration (J, w)).1.1
  /\ exists j',
       (batch_worker job_id input_dir motion_types quality fps duration (J, w)).1.1 !! job_id
       = Some j'
       /\ (j' !! "status"%string = Some (VStr "done")
           \/ j' !! "status"%string = Some (VStr "error")).
Proof.
  intros Hj.
  pose proof (batch_worker_run job_id input_dir motion_types quality fps duration J j w Hj)
    as Hrun.
  unfold awp in Hrun. destruct Hrun as (Hr & _ & Ht & j' & Hj' & Hout).
  split; [done|]. split; [done|]. exists j'. split; [done|].
  destruct (worker_attempt _ _ _ _ _ w).2 as [[videos metadata]|e].
  - destruct videos, metadata; try (by right). left. by destruct Hout.
  - right. by destruct Hout.
Qed.

(** X18: When the conversion returns its pair, the job ends in state [done]
    with progress 100, whatever the callback last reported; its record
    holds the list of video records and the metadata, and the message
    counts the records. *)
Theorem batch_worker_done job_id input_dir motion_types quality fps duration
    (J : jobs) (j : job) w videos meta :
  J !! job_id = Some j ->
  (worker_attempt input_dir motion_types quality fps duration w).2
  = Ok (VVideos videos, VMeta meta) ->
  exists j',
    (batch_worker job_id input_dir motion_types quality fps duration (J, w)).1.1 !! job_id
    = Some j'
    /\ j' !! "status"%string = Some (VStr "done")
    /\ j' !! "progress"%string = Some (VInt 100)
    /\ j' !! "output"%string = Some (VVideos videos)
    /\ j' !! "metadata"%string = Some (VMeta meta)
    /\ j' !! "message"%string
       = Some (VStr ("Successfully created " +:+ pretty (Z.of_nat (length videos))
                     +:+ " videos in " +:+ str_of_float (md_total_processing_time meta)
                     +:+ "s"))
    /\ status job_id
         (batch_worker job_id input_dir motion_types quality fps duration (J, w)).1.1
       = Ok (200,
             (if truthy (VVideos videos) then <["videos"%string := VVideos videos]> else id)
               (<["metadata"%string := VMeta meta]>
                  ({[ "status" := VStr "done";
                      "progress" := VInt 100;
                      "message" := VStr ("Successfully created "
                                         +:+ pretty (Z.of_nat (length videos))
                                         +:+ " videos in "
                                         +:+ str_of_float (md_total_processing_time meta)
                                         +:+ "s");
                      "motion_types" := default (VNames []) (j !! "motion_types");
                      "quality" := default (VStr "unknown") (j !! "quality");
                      "fps" := default (VInt 10) (j !! "fps");
                      "duration" := default (VInt 5) (j !! "duration");
                      "output_count" := VInt (Z.of_nat (length videos));
                      "start_time" := default (VStr "") (j !! "start_time") ]}%string))).
Proof.
  intros Hj Hres.
  pose proof (batch_worker_run job_id input_dir motion_types quality fps duration J j w Hj)
    as Hrun.
  unfold awp in Hrun. destruct Hrun as (_ & _ & Ht & j' & Hj' & Hout).
  rewrite Hres in Hout. destruct Hout as (Hs & Hp & Ho & Hm & Hmsg).
  exists j'. repeat (split; [done|]).
  destruct Ht as [_ (j'' & Hj'' & Hkeep & _)].
  rewrite Hj' in Hj''. injection Hj'' as <-.
  unfold status. rewrite Hj'. unfold get_item. rewrite Hs, Hp, Hmsg, Ho, Hm.
  cbn [mbind exc_bind py_len is_str andb].
  rewrite bool_decide_eq_true_2 by done. rewrite bool_decide_eq_true_2 by (by eexists).
  cbn [mbind exc_bind andb].
  rewrite !Hkeep
    by (intros Hin; apply list_elem_of_In in Hin; simpl in Hin; intuition discriminate).
  by destruct (truthy (VVideos videos)).
Qed.

(** X19: When the conversion or the parsing of its arguments raises, the job
    ends in state [error] with the text of the exception as its message;
    its output and metadata are as they were, and its progress is the
    last percentage the callback stored. *)
Theorem batch_worker_error job_id input_dir motion_types quality fps duration
    (J : jobs) (j : job) w e :
  J !! job_id = Some j ->
  (worker_attempt input_dir motion_types quality fps duration w).2 = Raise e ->
  exists j',
    (batch_worker job_id input_dir motion_types quality fps duration (J, w)).1.1 !! job_id
    = Some j'
    /\ j' !! "status"%string = Some (VStr "error")
    /\ j' !! "message"%string = Some (VStr (str_of_exn e))
    /\ j' !! "output"%string = j !! "output"%string
    /\ j' !! "metadata"%string = j !! "metadata"%string
    /\ j' !! "progress"%string
       = reported_progress
           (progress_calls
              (new_events w (worker_attempt input_dir motion_types quality fps duration w).1))
           (j !! "progress"%string).
Proof.
  intros Hj Hres.
  pose proof (batch_worker_run job_id input_dir motion_types quality fps duration J j w Hj)
    as Hrun.
  unfold awp in Hrun. destruct Hrun as (_ & _ & _ & j' & Hj' & Hout).
  rewrite Hres in Hout. by exists j'.
Qed.

(** X20: An input directory without images does not give a job that is done
    with no video: the conversion hands back a bare list, the worker
    fails to unpack it, and the job ends in state [error] with the text of
    a [ValueError], its progress and output as they were. *)
Theorem empty_directory_fails_the_job job_id input_dir motion_types quality fps duration
    (J : jobs) (j : job) w :
  J !! job_id = Some j ->
  is_ok (py_float duration) = true -> is_ok (py_int fps) = true ->
  collect_images (worker_input_path input_dir) = [] ->
  os_makedirs (os_path_join script_dir "Output") = None ->
  exists j',
    (batch_worker job_id input_dir motion_types quality fps duration (J, w)).1.1 !! job_id
    = Some j'
    /\ j' !! "status"%string = Some (VStr "error")
    /\ j' !! "message"%string = Some (VStr (str_of_exn ValueError))
    /\ j' !! "progress"%string = j !! "progress"%string
    /\ j' !! "output"%string = j !! "output"%string.
Proof.
  intros Hj Hd Hf Himages Hmk.
  pose proof (batch_worker_run job_id input_dir motion_types quality fps duration J j w Hj)
    as Hrun.
  unfold awp in Hrun. destruct Hrun as (_ & _ & _ & j' & Hj' & Hout).
  unfold worker_attempt in Hout.
  destruct (py_float duration) as [d|]; [|done]. destruct (py_int fps) as [f|]; [|done].
  rewrite (empty_input_run_eq _ _ _ _ _ _ _ _ Himages Hmk) in Hout.
  cbn [fst snd mbind exc_bind unpack_pair] in Hout.
  destruct Hout as (Hs & Hm & Ho & _ & Hp).
  exists j'. repeat (split; [done|]). split; [|done].
  rewrite Hp. unfold new_events. cbn [trace]. by rewrite drop_app_length.
Qed.

End Worker.

(** X21: For batches of up to 300 images the percentage both progress
    callbacks compute, [int((current / total) * 100)], never raises, lies
    in [0, 100], is 100 at the last image only, and is the exact integer
    percentage or one below it: 29 of 100 gives 28. *)
Theorem progress_percent_bounds current total :
  1 <= current <= total -> total <= 300 ->
  exists p,
    progress_percent current total = Ok p
    /\ 0 <= p <= 100
    /\ (p = 100 <-> current = total)
    /\ (p = 100 * current / total \/ p = 100 * current / total - 1)
    /\ job_progress_raises true current total = None.
Proof.
  intros Hc Ht.
  set (ok := fun t c =>
    match progress_percent c t with
    | Ok p => ((p =? 100 * c / t) || (p =? 100 * c / t - 1))
              && (0 <=? p) && (p <=? 100)
              && bool_decide (p = 100 <-> c = t)
    | Raise _ => false
    end).
  assert (Hall : forallb (fun t => forallb (ok t) (seqZ 1 t)) (seqZ 1 300) = true)
    by (vm_compute; reflexivity).
  rewrite forallb_forall in Hall. specialize (Hall total).
  rewrite forallb_forall in Hall.
  assert (Ht' : In total (seqZ 1 300)) by (apply list_elem_of_In, elem_of_seqZ; lia).
  assert (Hc' : In current (seqZ 1 total)) by (apply list_elem_of_In, elem_of_seqZ; lia).
  specialize (Hall Ht' current Hc'). unfold ok, job_progress_raises in *.
  destruct (progress_percent current total) as [p|]; [|done].
  exists p. split; [done|].
  apply andb_prop in Hall as [Hall Hiff]. apply bool_decide_eq_true in Hiff.
  split; [lia|]. split; [done|]. split; [lia|done].
Qed.

(** ** The claims on explicit inputs *)

Module Runs.
Import Fixture.

#[local] Existing Instance kernels.

Lemma encoder_exception_run :
  is_ok (create_video_per_image_with_motion (H := host_no_stream) "in" "out"
           (MSeq ["zoom-in"%string]) (lit 2 10) 10 "360p" None w0).2 = false.
Proof.
  apply (proj1 (encoder_exception_is_fatal (H := host_no_stream))) with
    (img_path := "in/b.png"%string) (a := photo).
  - apply list_elem_of_In. vm_compute. right. left. reflexivity.
  - reflexivity.
  - left. vm_compute. discriminate.
Qed.

(** C2 fails on this run: the encoder opens no stream and stores no
    frame, and the batch returns the record of the video all the same. *)
Lemma unopened_stream_run :
  VideoWriter_isOpened (Host := host_silent) "out/in/b.png_motion_none_360p.avi" = false
  /\ (exists v,
        v ∈ videos_of
              (match (create_video_per_image_with_motion (H := host_silent) "in" "out"
                        (MSeq ["none"%string]) (lit 2 10) 10 "360p" None w0).2
               with Ok r => r | Raise _ => RList [] end)
        /\ vi_path v = "out/in/b.png_motion_none_360p.avi"%string)
  /\ EvRelease "out/in/b.png_motion_none_360p.avi"
     ∈ new_events w0
         (create_video_per_image_with_motion (H := host_silent) "in" "out"
            (MSeq ["none"%string]) (lit 2 10) 10 "360p" None w0).1.
Proof.
  split; [reflexivity|].
  pose proof (proj2 (encoding_failure_is_not_reported (H := host_silent))
                "in"%string "out"%string (MSeq ["none"%string]) (lit 2 10) 10 "360p"%string
                None w0
                (videos_of
                   (match (create_video_per_image_with_motion (H := host_silent) "in" "out"
                             (MSeq ["none"%string]) (lit 2 10) 10 "360p" None w0).2
                    with Ok r => r | Raise _ => RList [] end))
                (match (create_video_per_image_with_motion (H := host_silent) "in" "out"
                          (MSeq ["none"%string]) (lit 2 10) 10 "360p" None w0).2
                 with
                 | Ok (RTuple _ meta) => meta
                 | _ => {| md_start_time := ""; md_end_time := "";
                           md_total_processing_time := zero; md_videos_created := 0;
                           md_quality := ""; md_motion_effects := [] |}
                 end)
                2 "in/b.png"%string) as Hrun.
  cbv zeta in Hrun. apply Hrun.
  - vm_compute. reflexivity.
  - vm_compute. reflexivity.
  - apply list_elem_of_In. vm_compute. right. left. reflexivity.
  - vm_compute. reflexivity.
  - left. reflexivity.
Defined.

Lemma empty_input_run :
  (create_video_per_image_with_motion (H := host_empty) "in" "out"
     (MSeq ["zoom-in"%string]) (lit 2 10) 10 "360p" (Some progress_ok) w0).2
  = Ok (RList []).
Proof.
  apply (empty_input_returns_bare_list (H := host_empty)); reflexivity.
Defined.

(** The sibling path: a directory whose images all fail to decode gives
    the pair, with an empty list and [videos_created = 0]. *)
Lemma unreadable_input_returns_pair :
  exists meta,
    (create_video_per_image_with_motion (H := host_unreadable) "in" "out"
       (MSeq ["zoom-in"%string]) (lit 2 10) 10 "360p" (Some progress_ok) w0).2
    = Ok (RTuple [] meta)
    /\ md_videos_created meta = 0.
Proof. eexists. split; vm_compute; reflexivity. Qed.



Lemma tilt_shift_rejects_small_frame :
  is_ok (apply_tilt_shift_effect 0%nat 0 1
           {| heap := [small_frame]; trace := []; clock := 0 |}).2 = false.
Proof.
  apply (tilt_shift_rejects_colour_frames 8 4 0%nat 0 1 _ small_frame);
    [reflexivity|reflexivity|lia|lia].
Defined.

(** C7 as stated fails: with the plan [["none"]], a grayscale source is
    written with three channels, and a 16-bit source with its samples
    reduced modulo 256; neither written frame is the resized source. *)
Lemma none_plan_changes_the_source :
  (effective_motion_types (MSeq ["none"%string]) = ["none"%string]
   /\ cv2_resize gray_photo (640, 360)
      = Ok {| shape := [360; 640]%nat; data := ints [7; 7; 7; 7] |}
   /\ EvWrite "out/in/g.png_motion_none_360p.avi"
        {| shape := [360; 640; 3]%nat; data := ints [7; 7; 7; 7; 7; 7; 7; 7; 7; 7; 7; 7] |}
      ∈ trace (create_video_per_image_with_motion (H := host_gray) "in" "out"
                 (MSeq ["none"%string]) (lit 2 10) 10 "360p" None w0).1)
  /\ (cv2_resize deep_photo (640, 360)
      = Ok {| shape := [360; 640; 3]%nat;
              data := ints [300; 65535; 256; 300; 65535; 256;
                            300; 65535; 256; 300; 65535; 256] |}
      /\ EvWrite "out/in/d.png_motion_none_360p.avi"
           {| shape := [360; 640; 3]%nat;
              data := ints [44; 255; 0; 44; 255; 0; 44; 255; 0; 44; 255; 0] |}
         ∈ trace (create_video_per_image_with_motion (H := host_deep) "in" "out"
                    (MSeq ["none"%string]) (lit 2 10) 10 "360p" None w0).1).
Proof.
  split; [split; [reflexivity|split; [reflexivity|]]|split; [reflexivity|]].
  - apply list_elem_of_In. vm_compute. do 2 right. left. reflexivity.
  - apply list_elem_of_In. vm_compute. do 2 right. left. reflexivity.
Qed.

Lemma none_plan_run :
  exists img_path a target_size r v,
    img_path ∈ collect_images (H := host) "in"
    /\ decoded (H := host) img_path = Ok (Some a)
    /\ target_size_of (effective_quality "360p") = Ok target_size
    /\ cv2_resize a target_size = Ok r
    /\ "out/in/b.png_motion_none_360p.avi"%string
       = output_path_of (H := host) "out" img_path ["none"%string] (effective_quality "360p")
    /\ to_bgr r = Ok v
    /\ {| shape := [360; 640; 3]%nat; data := data photo |} = astype_uint8 v
    /\ (is_bgr8 r -> {| shape := [360; 640; 3]%nat; data := data photo |} = r).
Proof.
  apply (none_plan_writes_the_source (H := host) "in" "out" (MSeq ["none"%string])
           (lit 2 10) 10 "360p" (Some progress_ok) w0).
  - reflexivity.
  - apply list_elem_of_In. vm_compute. do 3 right. left. reflexivity.
Defined.

Lemma unknown_quality_run :
  target_size_of (effective_quality "doesnotexist") = Ok (1920, 1080).
Proof.
  apply (unknown_quality_falls_back_to_1080p (H := host) "doesnotexist").
  intros Hin. apply list_elem_of_In in Hin. vm_compute in Hin.
  repeat destruct Hin as [Hin|Hin]; discriminate || done.
Defined.

Lemma frame_loop_run :
  heap (for_each (range 4)
          (write_frame (H := host) "out.avi" 0%nat ["zoom-in"; "wave"]%string 4)
          {| heap := [photo]; trace := []; clock := 0 |}).1 !! 0%nat
  = Some photo.
Proof.
  apply (frame_loop_leaves_source_untouched (H := host) "out.avi" 0%nat
           ["zoom-in"; "wave"]%string 4 (range 4)
           {| heap := [photo]; trace := []; clock := 0 |} photo); reflexivity.
Defined.

Lemma truncation_run :
  effective_motion_types (MSeq ["foo"; "bar"; "baz"; "zoom-in"; "wave"]%string)
  = ["none"%string].
Proof.
  apply truncation_precedes_filtering.
  repeat constructor; vm_compute; discriminate.
Defined.

End Runs.

(** ** The further properties on explicit inputs *)

Module Checks.
Import Fixture.

#[local] Existing Instance kernels.

Definition w1 : world := {| heap := [photo]; trace := []; clock := 0 |}.

Definition wide_frame : ndarray :=
  {| shape := [1; 8; 3]%nat; data := ints (replicate 24 0) |}.

Definition plan3 : list string := ["zoom-in"; "wave"; "flip"]%string.

(** The run of the batch of the fixture with one zooming effect. *)
Definition zoom_run : world * exc retval :=
  create_video_per_image_with_motion (H := Fixture.host) "in" "out"
    (MSeq ["zoom-in"%string]) (lit 2 10) 10 "360p" (Some progress_ok) w0.

Definition videos_of_run (r : world * exc retval) : list video_info :=
  match r.2 with Ok res => videos_of res | Raise _ => [] end.

Definition no_metadata : metadata :=
  {| md_start_time := ""; md_end_time := ""; md_total_processing_time := zero;
     md_videos_created := 0; md_quality := ""; md_motion_effects := [] |}.

Definition metadata_of_run (r : world * exc retval) : metadata :=
  match r.2 with Ok (RTuple _ meta) => meta | _ => no_metadata end.

(** The worker of the site on the tracked job. *)
Definition worker_run (H : Host) : (jobs * world) * exc unit :=
  batch_worker (H := H) (S := Site.server) "job-0" "Input" (MSeq ["none"%string]) "360p"
    (NInt 10) (NFloat (lit 2 10)) (Site.tracked, w0).

Definition attempt (H : Host) : world * exc (value * value) :=
  worker_attempt (H := H) (S := Site.server) "Input" (MSeq ["none"%string]) "360p"
    (NInt 10) (NFloat (lit 2 10)) w0.

Definition videos_of_attempt (r : world * exc (value * value)) : list video_info :=
  match r.2 with Ok (VVideos videos, _) => videos | _ => [] end.

Definition metadata_of_attempt (r : world * exc (value * value)) : metadata :=
  match r.2 with Ok (_, VMeta meta) => meta | _ => no_metadata end.

Lemma zoom_in_leaves_photo_untouched :
  (forall l a, heap w1 !! l = Some a ->
     heap (apply_zoom_in_effect 0%nat 1 4 w1).1 !! l = Some a)
  /\ trace (apply_zoom_in_effect 0%nat 1 4 w1).1 = trace w1
  /\ (forall l', (apply_zoom_in_effect 0%nat 1 4 w1).2 = Ok l' ->
        (length (heap w1) <= l')%nat).
Proof.
  apply (effects_leave_arrays_untouched "zoom-in" apply_zoom_in_effect 0%nat 1 4 w1).
  reflexivity.
Defined.

Lemma zoom_in_keeps_photo_size :
  exists a', heap (apply_zoom_in_effect 0%nat 1 4 w1).1 !! 1%nat = Some a'
             /\ frame_dims a' = frame_dims photo
             /\ cv2_channels a' = cv2_channels photo.
Proof.
  apply (effects_keep_frame_size "zoom-in" apply_zoom_in_effect 0%nat 1 4 w1 photo 1%nat);
    [reflexivity|discriminate|discriminate|reflexivity|vm_compute; reflexivity].
Defined.

(** One frame past the end of a 16-frame segment, the window of an
    8-column frame starts at column 17 and has 7 columns. *)
Lemma pan_past_the_end_is_narrower :
  exists a',
    apply_360_pan_effect 0%nat 16 16 {| heap := [wide_frame]; trace := []; clock := 0 |}
    = ({| heap := [wide_frame] ++ [a']; trace := []; clock := 0 |}, Ok 1%nat)
    /\ shape a' = [1; pan_width 8 17; 3]%nat
    /\ (pan_width 8 17 <= 8)%nat
    /\ (0 <= 17 <= 2 * Z.of_nat 8 -> pan_width 8 17 = 8%nat)
    /\ (2 * Z.of_nat 8 < 17 -> Z.of_nat (pan_width 8 17) = Z.max (3 * Z.of_nat 8 - 17) 0).
Proof.
  exact (pan_360_window 0%nat 16 16 {| heap := [wide_frame]; trace := []; clock := 0 |}
           wide_frame 1 8 [3%nat] eq_refl eq_refl).
Defined.

Lemma segment_lookup_run :
  0 <= 0 < Z.of_nat (length plan3)
  /\ exists mt, list_index plan3 0 = Ok mt /\ plan3 !! Z.to_nat 0 = Some mt.
Proof.
  apply (segment_lookup_in_bounds plan3 50 16 0); [lia|lia|discriminate|].
  vm_compute. reflexivity.
Defined.

Lemma boundaries_partition_run : boundaries_partition 50 3 = true.
Proof. apply boundaries_partition_upto_1200; lia. Defined.

Lemma local_index_run :
  exists a,
    assign_segment 50 3 16 = Ok a
    /\ 0 <= seg_index a < 3
    /\ 0 <= frame_in_segment a <= frames_in_segment a
    /\ (50 mod 3 = 0 -> frame_in_segment a < frames_in_segment a).
Proof. apply local_index_overshoots_by_one_at_most; lia. Defined.

Lemma plan_order_run :
  current_segment 50 3 0 = Ok 0
  /\ current_segment 50 3 (50 - 1) = Ok (Z.min (3 - 1) (50 - 1))
  /\ forall frame_idx, 0 <= frame_idx < 50 - 1 ->
       exists s s', current_segment 50 3 frame_idx = Ok s
                    /\ current_segment 50 3 (frame_idx + 1) = Ok s'
                    /\ s <= s' <= s + 1.
Proof. apply effects_play_in_plan_order; lia. Defined.

Lemma written_frame_size_run :
  frame_dims {| shape := [360; 640; 3]%nat; data := data photo |}
  = Some (Z.to_nat 640, Z.to_nat 360)
  /\ is_uint8 {| shape := [360; 640; 3]%nat; data := data photo |}.
Proof.
  apply (written_frames_have_preset_size (H := Fixture.host) "in" "out"
           (MSeq ["zoom-in"%string]) (lit 2 10) 10 "360p" (Some progress_ok) w0
           "out/in/b.png_motion_zoom-in_360p.avi"%string).
  - vm_compute. intros Hin. apply list_elem_of_In in Hin. by destruct Hin.
  - vm_compute. intros Hin. apply list_elem_of_In in Hin. by destruct Hin.
  - reflexivity.
  - apply list_elem_of_In. vm_compute. do 3 right. left. reflexivity.
Defined.

Lemma completed_batch_run :
  exists target_size total_frames blocks,
    target_size_of (effective_quality "360p") = Ok target_size
    /\ total_frames_of (lit 2 10) 10 = Ok total_frames
    /\ new_events w0 zoom_run.1 = EvMakedirs "out" :: concat blocks
    /\ Forall2 (image_block (H := Fixture.host) "out"
                  (effective_motion_types (MSeq ["zoom-in"%string])) 10
                  (effective_quality "360p") target_size
                  (Z.of_nat (length (collect_images (H := Fixture.host) "in")))
                  total_frames (Some progress_ok))
               (enumerate (collect_images (H := Fixture.host) "in")) blocks.
Proof.
  apply (completed_batch_events (H := Fixture.host) "in" "out" (MSeq ["zoom-in"%string])
           (lit 2 10) 10 "360p" (Some progress_ok) w0
           (videos_of_run zoom_run) (metadata_of_run zoom_run)).
  vm_compute. reflexivity.
Defined.

Lemma batch_records_run :
  (exists target_size,
     target_size_of (effective_quality "360p") = Ok target_size
     /\ Forall2 (describes (H := Fixture.host) "out"
                   (effective_motion_types (MSeq ["zoom-in"%string])) (lit 2 10) 10
                   (effective_quality "360p") target_size)
                (filter (fun p => decodes (H := Fixture.host) p = true)
                        (collect_images (H := Fixture.host) "in"))
                (videos_of_run zoom_run))
  /\ (length (videos_of_run zoom_run)
      <= length (collect_images (H := Fixture.host) "in"))%nat
  /\ md_videos_created (metadata_of_run zoom_run)
     = Z.of_nat (length (videos_of_run zoom_run))
  /\ md_quality (metadata_of_run zoom_run) = effective_quality "360p"
  /\ md_motion_effects (metadata_of_run zoom_run)
     = effective_motion_types (MSeq ["zoom-in"%string]).
Proof.
  apply (batch_records (H := Fixture.host) "in" "out" (MSeq ["zoom-in"%string])
           (lit 2 10) 10 "360p" (Some progress_ok) w0).
  vm_compute. reflexivity.
Defined.

(** The encoder of [host_bad_write] refuses frame 1: the stream is left open. *)
Lemma failed_stream_run :
  EvRelease "out/in/b.png_motion_zoom-in_360p.avi"
  ∉ new_events w0
      (create_video_per_image_with_motion (H := host_bad_write) "in" "out"
         (MSeq ["zoom-in"%string]) (lit 2 10) 10 "360p" (Some progress_ok) w0).1.
Proof.
  apply (failed_stream_is_never_released (H := host_bad_write) "in" "out"
           (MSeq ["zoom-in"%string]) (lit 2 10) 10 "360p" (Some progress_ok) w0 2
           "out/in/b.png_motion_zoom-in_360p.avi"%string 1).
  - vm_compute. reflexivity.
  - lia.
  - vm_compute. discriminate.
Defined.

Lemma callbacks_returned_run :
  Forall (fun c => progress_ok c.1 c.2 = None)
    (progress_calls (new_events w0 zoom_run.1)).
Proof.
  apply (batch_returns_only_if_callbacks_return (H := Fixture.host) "in" "out"
           (MSeq ["zoom-in"%string]) (lit 2 10) 10 "360p" progress_ok w0
           (match zoom_run.2 with Ok r => r | Raise _ => RList [] end)).
  vm_compute. reflexivity.
Defined.

Lemma worker_contains_failures_run :
  (worker_run Site.site_no_stream).2 = Ok tt
  /\ tracks "job-0" Site.queued Site.tracked (worker_run Site.site_no_stream).1.1
  /\ exists j',
       (worker_run Site.site_no_stream).1.1 !! "job-0"%string = Some j'
       /\ (j' !! "status"%string = Some (VStr "done")
           \/ j' !! "status"%string = Some (VStr "error")).
Proof.
  unfold worker_run.
  apply (batch_worker_contains_failures (H := Site.site_no_stream) (S := Site.server)
           "job-0" "Input" (MSeq ["none"%string]) "360p" (NInt 10) (NFloat (lit 2 10))
           Site.tracked Site.queued w0).
  exact eq_refl.
Defined.

Lemma worker_done_run :
  exists j',
    (worker_run Site.site_host).1.1 !! "job-0"%string = Some j'
    /\ j' !! "status"%string = Some (VStr "done")
    /\ j' !! "progress"%string = Some (VInt 100)
    /\ j' !! "output"%string = Some (VVideos (videos_of_attempt (attempt Site.site_host)))
    /\ j' !! "metadata"%string = Some (VMeta (metadata_of_attempt (attempt Site.site_host)))
    /\ j' !! "message"%string
       = Some (VStr ("Successfully created "
                     +:+ pretty (Z.of_nat (length (videos_of_attempt (attempt Site.site_host))))
                     +:+ " videos in "
                     +:+ str_of_float (Server := Site.server)
                           (md_total_processing_time
                              (metadata_of_attempt (attempt Site.site_host)))
                     +:+ "s"))
    /\ status "job-0" (worker_run Site.site_host).1.1
       = Ok (200,
             (if truthy (VVideos (videos_of_attempt (attempt Site.site_host)))
              then <["videos"%string := VVideos (videos_of_attempt (attempt Site.site_host))]>
              else id)
               (<["metadata"%string := VMeta (metadata_of_attempt (attempt Site.site_host))]>
                  ({[ "status" := VStr "done";
                      "progress" := VInt 100;
                      "message" :=
                        VStr ("Successfully created "
                              +:+ pretty (Z.of_nat
                                            (length (videos_of_attempt (attempt Site.site_host))))
                              +:+ " videos in "
                              +:+ str_of_float (Server := Site.server)
                                    (md_total_processing_time
                                       (metadata_of_attempt (attempt Site.site_host)))
                              +:+ "s");
                      "motion_types" := default (VNames []) (Site.queued !! "motion_types");
                      "quality" := default (VStr "unknown") (Site.queued !! "quality");
                      "fps" := default (VInt 10) (Site.queued !! "fps");
                      "duration" := default (VInt 5) (Site.queued !! "duration");
                      "output_count" :=
                        VInt (Z.of_nat (length (videos_of_attempt (attempt Site.site_host))));
                      "start_time" := default (VStr "") (Site.queued !! "start_time")
                   ]}%string))).
Proof.
  unfold worker_run, attempt.
  apply (batch_worker_done (H := Site.site_host) (S := Site.server) "job-0" "Input"
           (MSeq ["none"%string]) "360p" (NInt 10) (NFloat (lit 2 10)) Site.tracked
           Site.queued w0).
  - exact eq_refl.
  - vm_compute. exact eq_refl.
Defined.

Lemma worker_error_run :
  exists j',
    (worker_run Site.site_no_stream).1.1 !! "job-0"%string = Some j'
    /\ j' !! "status"%string = Some (VStr "error")
    /\ j' !! "message"%string = Some (VStr (str_of_exn (Host := Site.site_no_stream) cv2_error))
    /\ j' !! "output"%string = Site.queued !! "output"%string
    /\ j' !! "metadata"%string = Site.queued !! "metadata"%string
    /\ j' !! "progress"%string
       = reported_progress
           (progress_calls (new_events w0 (attempt Site.site_no_stream).1))
           (Site.queued !! "progress"%string).
Proof.
  unfold worker_run, attempt.
  apply (batch_worker_error (H := Site.site_no_stream) (S := Site.server) "job-0" "Input"
           (MSeq ["none"%string]) "360p" (NInt 10) (NFloat (lit 2 10)) Site.tracked
           Site.queued w0 cv2_error).
  - exact eq_refl.
  - vm_compute. exact eq_refl.
Defined.

Lemma empty_directory_run :
  exists j',
    (worker_run Site.site_empty).1.1 !! "job-0"%string = Some j'
    /\ j' !! "status"%string = Some (VStr "error")
    /\ j' !! "message"%string = Some (VStr "not enough values to unpack")
    /\ j' !! "progress"%string = Site.queued !! "progress"%string
    /\ j' !! "output"%string = Site.queued !! "output"%string.
Proof.
  unfold worker_run, attempt.
  apply (empty_directory_fails_the_job (H := Site.site_empty) (S := Site.server) "job-0"
           "Input" (MSeq ["none"%string]) "360p" (NInt 10) (NFloat (lit 2 10)) Site.tracked
           Site.queued w0); [exact eq_refl|vm_compute; exact eq_refl..].
Defined.

Lemma percent_of_29_in_100 :
  exists p,
    progress_percent 29 100 = Ok p
    /\ 0 <= p <= 100
    /\ (p = 100 <-> 29 = 100)
    /\ (p = 100 * 29 / 100 \/ p = 100 * 29 / 100 - 1)
    /\ job_progress_raises true 29 100 = None.
Proof. apply progress_percent_bounds; lia. Defined.

End Checks.
